(** * Channel bootstrap (source/channel_bootstrap.c): a shallow embedding

    The client and server bootstraps are callback-driven C code.  Every C
    function that the event loop, the resolver, a socket, a channel or a TLS
    handler calls back is translated to a function over an explicit copy of
    the connection state, in a small state-and-trace monad: the state is the
    C struct the callback receives as [user_data], the trace is the ordered
    list of calls the function makes into the outside world (user callbacks,
    resolver, sockets, channels, allocator, event loop).  Results of calls
    into code that lives outside this file (allocation, socket and channel
    constructors, [aws_last_error]) are arguments of the translated
    function.  [AWS_ASSERT] is compiled out of release builds and is not
    executed by the model. *)

From Stdlib Require Import ZArith List Bool Lia String.
Import ListNotations.
Local Open Scope Z_scope.

(** ** Machine integers *)

Definition uint8_t (z : Z) : Z := z mod 256.
Definition uint32_t (z : Z) : Z := z mod 2 ^ 32.

(** ** Constants and enumerations of aws-c-common and aws-c-io *)

Definition AWS_OP_SUCCESS : Z := 0.
Definition AWS_OP_ERR : Z := -1.
Definition AWS_ERROR_SUCCESS : Z := 0.

Inductive aws_socket_domain := AWS_SOCKET_IPV4 | AWS_SOCKET_IPV6 | AWS_SOCKET_LOCAL.
Inductive aws_socket_type := AWS_SOCKET_STREAM | AWS_SOCKET_DGRAM.
Inductive aws_address_record_type := AWS_ADDRESS_RECORD_TYPE_A | AWS_ADDRESS_RECORD_TYPE_AAAA.
Inductive aws_task_status := AWS_TASK_STATUS_RUN_READY | AWS_TASK_STATUS_CANCELED.

Definition is_local (d : aws_socket_domain) : bool :=
  match d with AWS_SOCKET_LOCAL => true | _ => false end.
Definition is_ipv6 (d : aws_socket_domain) : bool :=
  match d with AWS_SOCKET_IPV6 => true | _ => false end.
Definition is_stream (t : aws_socket_type) : bool :=
  match t with AWS_SOCKET_STREAM => true | AWS_SOCKET_DGRAM => false end.
Definition is_run_ready (st : aws_task_status) : bool :=
  match st with AWS_TASK_STATUS_RUN_READY => true | AWS_TASK_STATUS_CANCELED => false end.

Record aws_socket_options := {
  opt_type : aws_socket_type;
  opt_domain : aws_socket_domain }.

Record aws_host_address := {
  host : string;
  address : string;
  record_type : aws_address_record_type }.

(** Heap objects are named by the number the allocator returned for them;
    a NULL pointer is [None]. *)
Definition socket_ptr := nat.
Definition channel_ptr := nat.
Definition event_loop_ptr := nat.
Definition task_ptr := nat.

Inductive object :=
| ObjSocket (s : socket_ptr)
| ObjTaskData (t : task_ptr)
| ObjClientArgs
| ObjServerArgs
| ObjChannelData
| ObjSlot (name : string).

(** ** Calls into the outside world, in the order the code makes them *)

Inductive effect :=
(* user callbacks of the client bootstrap *)
| SetupCallback (error_code : Z) (channel : option channel_ptr)
| ShutdownCallback (error_code : Z) (channel : option channel_ptr)
| UserOnNegotiationResult (err_code : Z)
(* user callbacks of the server bootstrap *)
| IncomingCallback (error_code : Z) (channel : option channel_ptr)
| ServerShutdownCallback (error_code : Z) (channel : channel_ptr)
| DestroyCallback
(* host resolver *)
| ResolveHost (host_name : string)
| RecordConnectionFailure (address : string) (rt : aws_address_record_type)
(* sockets *)
| SocketInit (s : socket_ptr) (o : aws_socket_options)
| SocketConnect (s : socket_ptr) (endpoint : string) (port : Z) (loop : event_loop_ptr)
| SocketClose (s : socket_ptr)
| SocketCleanUp (s : socket_ptr)
| SocketAssignToEventLoop (s : socket_ptr) (loop : event_loop_ptr)
| ListenerInit | ListenerBind | ListenerListen (backlog : Z)
| ListenerStartAccept (loop : event_loop_ptr)
| ListenerStopAccept
| ListenerCleanUp
(* channels, slots and handlers *)
| ChannelNew (c : channel_ptr) (loop : event_loop_ptr)
| ChannelShutdown (c : channel_ptr) (err_code : Z)
| ChannelDestroy (c : channel_ptr)
| SlotNew (name : string)
| SlotRemove (name : string)
| SlotInsertEnd (name : string)
| SlotInsertRight (left right : string)
| SlotSetHandler (name : string)
| TlsStartNegotiation
(* allocator and reference counts *)
| MemAcquire (o : object)
| MemRelease (o : object)
| HostNameDestroy
| HostAddressCleanUp (t : task_ptr)
| TlsOptionsCopy
| TlsOptionsCleanUp
| BootstrapAcquire
| BootstrapRelease
(* event loop *)
| ScheduleTaskNow (loop : event_loop_ptr) (t : task_ptr)
| ScheduleListenerDestroyTask (loop : event_loop_ptr) (arg : Z)
| RaiseError (err : Z)
| FatalAbort.

Definition is_setup_callback (e : effect) : bool :=
  match e with SetupCallback _ _ => true | _ => false end.
Definition is_shutdown_callback (e : effect) : bool :=
  match e with ShutdownCallback _ _ => true | _ => false end.
Definition is_incoming_callback (e : effect) : bool :=
  match e with IncomingCallback _ _ => true | _ => false end.
Definition is_server_shutdown_callback (e : effect) : bool :=
  match e with ServerShutdownCallback _ _ => true | _ => false end.
Definition is_destroy_callback (e : effect) : bool :=
  match e with DestroyCallback => true | _ => false end.
Definition is_schedule_task (e : effect) : bool :=
  match e with ScheduleTaskNow _ _ => true | _ => false end.
Definition is_mem_acquire (e : effect) : bool :=
  match e with MemAcquire _ => true | _ => false end.
Definition is_record_failure (e : effect) : bool :=
  match e with RecordConnectionFailure _ _ => true | _ => false end.

Definition is_channel_new (e : effect) : bool :=
  match e with ChannelNew _ _ => true | _ => false end.
Definition is_channel_shutdown (e : effect) : bool :=
  match e with ChannelShutdown _ _ => true | _ => false end.

Definition is_client_args_free (e : effect) : bool :=
  match e with MemRelease ObjClientArgs => true | _ => false end.
Definition is_server_args_free (e : effect) : bool :=
  match e with MemRelease ObjServerArgs => true | _ => false end.
Definition is_channel_data_free (e : effect) : bool :=
  match e with MemRelease ObjChannelData => true | _ => false end.

Definition count (p : effect -> bool) (tr : list effect) : nat :=
  List.length (List.filter p tr).

(** ** The state-and-trace monad *)

Module Run.

Definition M (S A : Type) : Type := S -> A * S * list effect.

Definition ret {S A} (a : A) : M S A := fun s => (a, s, []).

Definition result {S A} (r : A * S * list effect) : A := fst (fst r).
Definition state {S A} (r : A * S * list effect) : S := snd (fst r).
Definition trace {S A} (r : A * S * list effect) : list effect := snd r.

Definition bind {S A B} (m : M S A) (f : A -> M S B) : M S B :=
  fun s =>
    let r1 := m s in
    let r2 := f (result r1) (state r1) in
    (result r2, state r2, trace r1 ++ trace r2).

Definition get {S} : M S S := fun s => (s, s, []).
Definition gets {S A} (f : S -> A) : M S A := fun s => (f s, s, []).
Definition modify {S} (f : S -> S) : M S unit := fun s => (tt, f s, []).
Definition call {S} (e : effect) : M S unit := fun s => (tt, s, [e]).
Definition when {S} (b : bool) (m : M S unit) : M S unit := if b then m else ret tt.

(** [emit w r] is the run [r] with the calls [w] made before it. *)
Definition emit {S A} (w : list effect) (r : A * S * list effect) : A * S * list effect :=
  (result r, state r, w ++ trace r).

End Run.

Import Run.

Notation "x <- c1 ;; c2" := (bind c1 (fun x => c2))
  (at level 61, c1 at next level, right associativity).
Notation "c1 ;; c2" := (bind c1 (fun _ => c2))
  (at level 61, right associativity).

Definition nonzero (z : Z) : bool := negb (z =? 0).

Definition size_t (z : Z) : Z := z mod 2 ^ 64.

(** Results of the slot and handler constructors called while a channel is
    being set up: [true] when the call succeeded. *)
Record setup_results := {
  socket_slot_new : bool;
  socket_handler_new : bool;
  socket_set_handler : bool;
  tls_slot_new : bool;
  tls_handler_new : bool;
  tls_set_handler : bool;
  alpn_slot_new : bool;
  alpn_handler_new : bool;
  alpn_set_handler : bool;
  tls_start_negotiation : bool }.

(** The callbacks of the user's [aws_tls_connection_options]. *)
Record tls_connection_options := {
  on_data_read : bool;
  on_error : bool;
  on_negotiation_result : bool }.

(** ** Client bootstrap *)

Module Client.

(** [struct client_channel_data]; a function pointer is modelled by whether
    it is non-NULL. *)
Record client_channel_data := {
  channel : option channel_ptr;
  socket : option socket_ptr;
  on_protocol_negotiated : bool;
  user_on_data_read : bool;
  user_on_negotiation_result : bool;
  user_on_error : bool;
  use_tls : bool }.

(** [struct client_connection_args].  [setup_callback] is asserted non-NULL
    on entry and never written again, so it is not a field here. *)
Record client_connection_args := {
  shutdown_callback : bool;
  channel_data : client_channel_data;
  outgoing_options : aws_socket_options;
  outgoing_port : Z;
  host_name : option string;
  addresses_count : Z;
  failed_count : Z;
  connection_chosen : bool;
  setup_called : bool;
  ref_count : Z }.

Definition set_channel_data (f : client_channel_data -> client_channel_data)
    (a : client_connection_args) : client_connection_args :=
  {| shutdown_callback := shutdown_callback a; channel_data := f (channel_data a);
     outgoing_options := outgoing_options a; outgoing_port := outgoing_port a;
     host_name := host_name a; addresses_count := addresses_count a;
     failed_count := failed_count a; connection_chosen := connection_chosen a;
     setup_called := setup_called a; ref_count := ref_count a |}.

Definition with_channel (c : option channel_ptr) (d : client_channel_data) :=
  {| channel := c; socket := socket d; on_protocol_negotiated := on_protocol_negotiated d;
     user_on_data_read := user_on_data_read d;
     user_on_negotiation_result := user_on_negotiation_result d;
     user_on_error := user_on_error d; use_tls := use_tls d |}.

Definition with_socket (s : option socket_ptr) (d : client_channel_data) :=
  {| channel := channel d; socket := s; on_protocol_negotiated := on_protocol_negotiated d;
     user_on_data_read := user_on_data_read d;
     user_on_negotiation_result := user_on_negotiation_result d;
     user_on_error := user_on_error d; use_tls := use_tls d |}.

Definition set_shutdown_callback (v : bool) (a : client_connection_args) :=
  {| shutdown_callback := v; channel_data := channel_data a;
     outgoing_options := outgoing_options a; outgoing_port := outgoing_port a;
     host_name := host_name a; addresses_count := addresses_count a;
     failed_count := failed_count a; connection_chosen := connection_chosen a;
     setup_called := setup_called a; ref_count := ref_count a |}.

Definition set_host_name (v : option string) (a : client_connection_args) :=
  {| shutdown_callback := shutdown_callback a; channel_data := channel_data a;
     outgoing_options := outgoing_options a; outgoing_port := outgoing_port a;
     host_name := v; addresses_count := addresses_count a;
     failed_count := failed_count a; connection_chosen := connection_chosen a;
     setup_called := setup_called a; ref_count := ref_count a |}.

Definition set_addresses_count (v : Z) (a : client_connection_args) :=
  {| shutdown_callback := shutdown_callback a; channel_data := channel_data a;
     outgoing_options := outgoing_options a; outgoing_port := outgoing_port a;
     host_name := host_name a; addresses_count := v;
     failed_count := failed_count a; connection_chosen := connection_chosen a;
     setup_called := setup_called a; ref_count := ref_count a |}.

Definition set_failed_count (v : Z) (a : client_connection_args) :=
  {| shutdown_callback := shutdown_callback a; channel_data := channel_data a;
     outgoing_options := outgoing_options a; outgoing_port := outgoing_port a;
     host_name := host_name a; addresses_count := addresses_count a;
     failed_count := v; connection_chosen := connection_chosen a;
     setup_called := setup_called a; ref_count := ref_count a |}.

Definition set_connection_chosen (v : bool) (a : client_connection_args) :=
  {| shutdown_callback := shutdown_callback a; channel_data := channel_data a;
     outgoing_options := outgoing_options a; outgoing_port := outgoing_port a;
     host_name := host_name a; addresses_count := addresses_count a;
     failed_count := failed_count a; connection_chosen := v;
     setup_called := setup_called a; ref_count := ref_count a |}.

Definition set_setup_called (v : bool) (a : client_connection_args) :=
  {| shutdown_callback := shutdown_callback a; channel_data := channel_data a;
     outgoing_options := outgoing_options a; outgoing_port := outgoing_port a;
     host_name := host_name a; addresses_count := addresses_count a;
     failed_count := failed_count a; connection_chosen := connection_chosen a;
     setup_called := v; ref_count := ref_count a |}.

Definition set_ref_count (v : Z) (a : client_connection_args) :=
  {| shutdown_callback := shutdown_callback a; channel_data := channel_data a;
     outgoing_options := outgoing_options a; outgoing_port := outgoing_port a;
     host_name := host_name a; addresses_count := addresses_count a;
     failed_count := failed_count a; connection_chosen := connection_chosen a;
     setup_called := setup_called a; ref_count := v |}.

Definition is_some {A} (o : option A) : bool :=
  match o with Some _ => true | None => false end.

Definition CM : Type -> Type := M client_connection_args.

(** [args->ref_count++ == 0] *)
Definition s_client_connection_args_acquire : CM unit :=
  old <- gets ref_count ;;
  modify (set_ref_count (uint32_t (old + 1))) ;;
  when (old =? 0) (call BootstrapAcquire).

(** [--args->ref_count == 0] *)
Definition s_client_connection_args_release : CM unit :=
  old <- gets ref_count ;;
  modify (set_ref_count (uint32_t (old - 1))) ;;
  now <- gets ref_count ;;
  when (now =? 0)
    (call BootstrapRelease ;;
     has_name <- gets (fun a => is_some (host_name a)) ;;
     when has_name (call HostNameDestroy) ;;
     tls <- gets (fun a => use_tls (channel_data a)) ;;
     when tls (call TlsOptionsCleanUp) ;;
     call (MemRelease ObjClientArgs)).

Definition s_connection_args_setup_callback
    (error_code : Z) (channel : option channel_ptr) : CM unit :=
  called <- gets setup_called ;;
  when (negb called)
    (call (SetupCallback error_code channel) ;;
     modify (set_setup_called true) ;;
     when (nonzero error_code) (modify (set_shutdown_callback false)) ;;
     s_client_connection_args_release).

Section WithErrorCodes.

(** [AWS_ERROR_UNKNOWN] is declared in aws-c-common. *)
Variable AWS_ERROR_UNKNOWN : Z.

Definition s_connection_args_shutdown_callback
    (error_code : Z) (channel : option channel_ptr) : CM unit :=
  called <- gets setup_called ;;
  if negb called then
    let error_code := if nonzero error_code then error_code else AWS_ERROR_UNKNOWN in
    s_connection_args_setup_callback error_code None
  else
    cb <- gets shutdown_callback ;;
    when cb (call (ShutdownCallback error_code channel)).

End WithErrorCodes.

(** [slot_channel] is [slot->channel]. *)
Definition s_tls_client_on_negotiation_result
    (slot_channel : channel_ptr) (err_code : Z) : CM unit :=
  user_cb <- gets (fun a => user_on_negotiation_result (channel_data a)) ;;
  when user_cb (call (UserOnNegotiationResult err_code)) ;;
  if nonzero err_code then
    call (ChannelShutdown slot_channel err_code)
  else
    channel <- gets (fun a => channel (channel_data a)) ;;
    s_connection_args_setup_callback AWS_ERROR_SUCCESS channel.

Definition s_setup_client_tls (r : setup_results) : CM Z :=
  call (SlotNew "tls") ;;
  if negb (tls_slot_new r) then ret AWS_OP_ERR else
  if negb (tls_handler_new r) then
    call (MemRelease (ObjSlot "tls")) ;; ret AWS_OP_ERR
  else
    call (SlotInsertEnd "tls") ;;
    call (SlotSetHandler "tls") ;;
    if negb (tls_set_handler r) then ret AWS_OP_ERR else
    alpn <- gets (fun a => on_protocol_negotiated (channel_data a)) ;;
    alpn_done <-
      (if alpn then
         call (SlotNew "alpn") ;;
         if negb (alpn_slot_new r) then ret false else
         if negb (alpn_handler_new r) then
           call (MemRelease (ObjSlot "alpn")) ;; ret false
         else
           call (SlotInsertRight "tls" "alpn") ;;
           call (SlotSetHandler "alpn") ;;
           ret (alpn_set_handler r)
       else ret true) ;;
    if negb alpn_done then ret AWS_OP_ERR else
    call TlsStartNegotiation ;;
    if negb (tls_start_negotiation r) then ret AWS_OP_ERR else
    ret AWS_OP_SUCCESS.

(** The [error:] label of [s_on_client_channel_on_setup_completed]. *)
Definition setup_completed_error (channel : channel_ptr) (err_code : Z) : CM unit :=
  call (ChannelShutdown channel err_code).

Definition s_on_client_channel_on_setup_completed
    (channel : channel_ptr) (error_code : Z) (r : setup_results) (last_error : Z) : CM unit :=
  let err_code := error_code in
  if negb (nonzero err_code) then
    call (SlotNew "socket") ;;
    if negb (socket_slot_new r) then setup_completed_error channel last_error else
    if negb (socket_handler_new r) then
      call (SlotRemove "socket") ;; setup_completed_error channel last_error
    else
      call (SlotSetHandler "socket") ;;
      if negb (socket_set_handler r) then setup_completed_error channel last_error else
      tls <- gets (fun a => use_tls (channel_data a)) ;;
      if tls then
        rc <- s_setup_client_tls r ;;
        if nonzero rc then setup_completed_error channel last_error else ret tt
      else
        s_connection_args_setup_callback AWS_OP_SUCCESS (Some channel)
  else
    setup_completed_error channel err_code.

Definition socket_clean_up_and_free (s : option socket_ptr) : CM unit :=
  match s with
  | Some s => call (SocketCleanUp s) ;; call (MemRelease (ObjSocket s))
  | None => ret tt
  end.

Section WithErrorCodes.

Variable AWS_ERROR_UNKNOWN : Z.

Definition s_on_client_channel_on_shutdown (channel : channel_ptr) (error_code : Z) : CM unit :=
  s_connection_args_shutdown_callback AWS_ERROR_UNKNOWN error_code (Some channel) ;;
  call (ChannelDestroy channel) ;;
  s <- gets (fun a => socket (channel_data a)) ;;
  socket_clean_up_and_free s ;;
  s_client_connection_args_release.

End WithErrorCodes.

Definition incr_failed_count : CM unit :=
  modify (fun a => set_failed_count (uint8_t (failed_count a + 1)) a).

Definition last_attempt_failed : CM bool :=
  gets (fun a => failed_count a =? addresses_count a).

(** [remote_address] is [socket->remote_endpoint.address], [socket_loop] is
    [aws_socket_get_event_loop(socket)], [address_copy] tells whether
    [aws_string_new_from_c_str] returned a string and [new_channel] is what
    [aws_channel_new] returns. *)
Definition s_on_client_connection_established
    (socket : socket_ptr) (remote_address : string) (socket_loop : event_loop_ptr)
    (error_code : Z) (address_copy : bool) (new_channel : option channel_ptr) : CM unit :=
  when (nonzero error_code) incr_failed_count ;;
  chosen <- gets connection_chosen ;;
  if nonzero error_code || chosen then
    domain <- gets (fun a => opt_domain (outgoing_options a)) ;;
    when (negb (is_local domain) && nonzero error_code)
      (when address_copy
         (call (RecordConnectionFailure remote_address
                  (if is_ipv6 domain then AWS_ADDRESS_RECORD_TYPE_AAAA
                   else AWS_ADDRESS_RECORD_TYPE_A)))) ;;
    call (SocketClose socket) ;;
    call (SocketCleanUp socket) ;;
    call (MemRelease (ObjSocket socket)) ;;
    last <- last_attempt_failed ;;
    when last (s_connection_args_setup_callback error_code None) ;;
    s_client_connection_args_release
  else
    modify (set_connection_chosen true) ;;
    modify (set_channel_data (with_socket (Some socket))) ;;
    modify (set_channel_data (with_channel new_channel)) ;;
    match new_channel with
    | Some c => call (ChannelNew c socket_loop)
    | None =>
        call (SocketCleanUp socket) ;;
        call (MemRelease (ObjSocket socket)) ;;
        incr_failed_count ;;
        last <- last_attempt_failed ;;
        when last (s_connection_args_setup_callback error_code None)
    end.

(** [struct connection_task_data]; [args] is the state the monad carries. *)
Record connection_task_data := {
  task : task_ptr;
  endpoint_address : string;
  endpoint_port : Z;
  options : aws_socket_options;
  host_address : aws_host_address;
  connect_loop : event_loop_ptr }.

(** The labels of [s_attempt_connection], last first: each falls through to
    the next one. *)
Definition cleanup_task (td : connection_task_data) : CM unit :=
  call (HostAddressCleanUp (task td)) ;;
  call (MemRelease (ObjTaskData (task td))).

Definition task_cancelled (td : connection_task_data) (err_code : Z) : CM unit :=
  incr_failed_count ;;
  last <- last_attempt_failed ;;
  when last (s_connection_args_setup_callback err_code None) ;;
  s_client_connection_args_release ;;
  cleanup_task td.

Definition socket_alloc_failed (td : connection_task_data) (last_error : Z) : CM unit :=
  task_cancelled td last_error.

Definition socket_init_failed (td : connection_task_data) (s : socket_ptr)
    (last_error : Z) : CM unit :=
  call (MemRelease (ObjSocket s)) ;;
  socket_alloc_failed td last_error.

Definition socket_connect_failed (td : connection_task_data) (s : socket_ptr)
    (last_error : Z) : CM unit :=
  call (RecordConnectionFailure (address (host_address td)) (record_type (host_address td))) ;;
  call (SocketCleanUp s) ;;
  socket_init_failed td s last_error.

(** [outgoing_socket] is what [aws_mem_acquire] returns; [socket_init] and
    [socket_connect] tell whether [aws_socket_init] and [aws_socket_connect]
    succeeded. *)
Definition s_attempt_connection
    (td : connection_task_data) (status : aws_task_status)
    (outgoing_socket : option socket_ptr) (socket_init socket_connect : bool)
    (last_error : Z) : CM unit :=
  let err_code := 0 in
  if negb (is_run_ready status) then task_cancelled td err_code else
  match outgoing_socket with
  | None => socket_alloc_failed td last_error
  | Some s =>
      call (MemAcquire (ObjSocket s)) ;;
      call (SocketInit s (options td)) ;;
      if negb socket_init then socket_init_failed td s last_error else
      call (SocketConnect s (endpoint_address td) (endpoint_port td) (connect_loop td)) ;;
      if negb socket_connect then socket_connect_failed td s last_error else
      cleanup_task td
  end.

(** What the allocation of the task structure for one address gave:
    [aws_mem_calloc] returned NULL, or it returned [t] and
    [aws_host_address_copy] failed, or both succeeded. *)
Inductive task_alloc :=
| TaskAllocNull
| TaskCopyFailed (t : task_ptr)
| TaskAllocated (t : task_ptr).

(** [endpoint.address] is a character array of fixed size inside
    [struct aws_socket_endpoint] (aws-c-io, socket.h; the size is not part
    of these sources).  [s_on_host_resolved] copies a resolved address
    into it, and [s_new_client_channel] the name of a local socket, with
    no check that a release build executes: a name that does not fit with
    its terminator overflows the array.  The model keeps names as strings
    and says what the code does for names that fit; what it says of an
    endpoint is stated under [fits_endpoint]. *)
Definition fits_endpoint (address_size : nat) (name : string) : Prop :=
  (String.length name + 1 <= address_size)%nat.

(** The task structure [s_on_host_resolved] fills for the address [h];
    [endpoint_address] is the copy of [address h] in [endpoint.address],
    for an address that fits ([fits_endpoint]). *)
Definition fill_task_data (t : task_ptr) (port : Z) (o : aws_socket_options)
    (loop : event_loop_ptr) (h : aws_host_address) : connection_task_data :=
  {| task := t;
     endpoint_address := address h;
     endpoint_port := port;
     options := {| opt_type := opt_type o;
                   opt_domain := match record_type h with
                                 | AWS_ADDRESS_RECORD_TYPE_AAAA => AWS_SOCKET_IPV6
                                 | AWS_ADDRESS_RECORD_TYPE_A => AWS_SOCKET_IPV4
                                 end |};
     host_address := h;
     connect_loop := loop |}.

(** The inner loop [for (j = 0; j <= i; ++j)] over the array [tasks]. *)
Fixpoint free_tasks (tasks : list (option connection_task_data)) : CM unit :=
  match tasks with
  | [] => ret tt
  | Some td :: rest =>
      call (HostAddressCleanUp (task td)) ;;
      call (MemRelease (ObjTaskData (task td))) ;;
      free_tasks rest
  | None :: rest => free_tasks rest
  end.

(** The first loop of [s_on_host_resolved], from index [i] on, with
    [tasks] the entries filled so far.  [inl] is the array at the moment an
    allocation failed, [inr] the array once every entry is allocated. *)
Fixpoint allocate_tasks (alloc : nat -> task_alloc) (port : Z) (o : aws_socket_options)
    (loop : event_loop_ptr) (i : nat) (addrs : list aws_host_address)
    (tasks : list connection_task_data)
  : CM (list (option connection_task_data) + list connection_task_data) :=
  match addrs with
  | [] => ret (inr tasks)
  | h :: rest =>
      match alloc i with
      | TaskAllocNull => ret (inl (map Some tasks ++ [None]))
      | TaskCopyFailed t =>
          call (MemAcquire (ObjTaskData t)) ;;
          ret (inl (map Some tasks ++ [Some (fill_task_data t port o loop h)]))
      | TaskAllocated t =>
          call (MemAcquire (ObjTaskData t)) ;;
          allocate_tasks alloc port o loop (S i) rest (tasks ++ [fill_task_data t port o loop h])
      end
  end.

(** The second loop of [s_on_host_resolved]. *)
Fixpoint schedule_tasks (loop : event_loop_ptr) (tasks : list connection_task_data) : CM unit :=
  match tasks with
  | [] => ret tt
  | td :: rest =>
      s_client_connection_args_acquire ;;
      call (ScheduleTaskNow loop (task td)) ;;
      schedule_tasks loop rest
  end.

(** [connect_loop] is what [aws_event_loop_group_get_next_loop] returns.  The
    result is the list of tasks handed to the event loop.
    [AWS_FATAL_ASSERT] ends the process in every build. *)
Definition s_on_host_resolved
    (err_code : Z) (host_addresses : list aws_host_address)
    (connect_loop : event_loop_ptr) (alloc : nat -> task_alloc) (last_error : Z)
  : CM (list connection_task_data) :=
  if nonzero err_code then
    s_connection_args_setup_callback err_code None ;; ret []
  else
    let host_addresses_len := Z.of_nat (List.length host_addresses) in
    if negb (0 <? host_addresses_len) then call FatalAbort ;; ret [] else
    modify (set_addresses_count (uint8_t host_addresses_len)) ;;
    port <- gets outgoing_port ;;
    o <- gets outgoing_options ;;
    r <- allocate_tasks alloc port o connect_loop 0 host_addresses [] ;;
    match r with
    | inl tasks =>
        free_tasks tasks ;;
        let alloc_err_code := last_error in
        s_connection_args_setup_callback alloc_err_code None ;;
        ret []
    | inr tasks =>
        schedule_tasks connect_loop tasks ;;
        ret tasks
    end.

Record new_channel_results := {
  args_alloc : bool;
  tls_options_copy : bool;
  host_name_alloc : bool;
  resolve_host : bool;
  socket_alloc : option socket_ptr;
  local_socket_init : bool;
  local_socket_connect : bool;
  local_connect_loop : event_loop_ptr }.

(** The memory [aws_mem_calloc] returns. *)
Definition zeroed_args : client_connection_args :=
  {| shutdown_callback := false;
     channel_data := {| channel := None; socket := None; on_protocol_negotiated := false;
                        user_on_data_read := false; user_on_negotiation_result := false;
                        user_on_error := false; use_tls := false |};
     outgoing_options := {| opt_type := AWS_SOCKET_STREAM; opt_domain := AWS_SOCKET_IPV4 |};
     outgoing_port := 0; host_name := None; addresses_count := 0; failed_count := 0;
     connection_chosen := false; setup_called := false; ref_count := 0 |}.

Definition init_args (port : Z) (o : aws_socket_options) (a : client_connection_args) :=
  {| shutdown_callback := true; channel_data := channel_data a;
     outgoing_options := o; outgoing_port := port;
     host_name := host_name a; addresses_count := addresses_count a;
     failed_count := failed_count a; connection_chosen := connection_chosen a;
     setup_called := setup_called a; ref_count := ref_count a |}.

Definition init_tls (bootstrap_on_protocol_negotiated : bool) (co : tls_connection_options)
    (d : client_channel_data) : client_channel_data :=
  {| channel := channel d; socket := socket d;
     on_protocol_negotiated := bootstrap_on_protocol_negotiated;
     user_on_data_read := on_data_read co;
     user_on_negotiation_result := on_negotiation_result co;
     user_on_error := on_error co;
     use_tls := true |}.

(** The [error:] label of [s_new_client_channel]. *)
Definition new_client_channel_error : CM Z :=
  s_client_connection_args_release ;; ret AWS_OP_ERR.

(** [s_new_client_channel] from the point where the state is allocated.
    The user's callbacks are asserted non-NULL.  For a local socket the
    endpoint passed to [aws_socket_connect] is the copy of [host_name] in
    [endpoint.address], for a name that fits ([fits_endpoint]). *)
Definition new_client_channel_body
    (bootstrap_on_protocol_negotiated : bool) (host_name : string) (port : Z)
    (o : aws_socket_options) (connection_options : option tls_connection_options)
    (r : new_channel_results) : CM Z :=
  s_client_connection_args_acquire ;;
  modify (init_args port o) ;;
  tls_ok <-
    match connection_options with
    | Some co =>
        call TlsOptionsCopy ;;
        if negb (tls_options_copy r) then ret false else
        modify (set_channel_data (init_tls bootstrap_on_protocol_negotiated co)) ;;
        ret true
    | None => ret true
    end ;;
  if negb tls_ok then new_client_channel_error else
  if negb (is_local (opt_domain o)) then
    if negb (host_name_alloc r) then new_client_channel_error else
    modify (set_host_name (Some host_name)) ;;
    call (ResolveHost host_name) ;;
    if negb (resolve_host r) then new_client_channel_error else
    ret AWS_OP_SUCCESS
  else
    match socket_alloc r with
    | None => new_client_channel_error
    | Some s =>
        call (MemAcquire (ObjSocket s)) ;;
        call (SocketInit s o) ;;
        if negb (local_socket_init r) then
          call (MemRelease (ObjSocket s)) ;; new_client_channel_error
        else
          modify (set_addresses_count 1) ;;
          s_client_connection_args_acquire ;;
          call (SocketConnect s host_name 0 (local_connect_loop r)) ;;
          if negb (local_socket_connect r) then
            call (SocketCleanUp s) ;;
            call (MemRelease (ObjSocket s)) ;;
            s_client_connection_args_release ;;
            new_client_channel_error
          else ret AWS_OP_SUCCESS
    end.

(** The result is the return code, the connection state when one was
    allocated, and the calls made. *)
Definition s_new_client_channel
    (bootstrap_on_protocol_negotiated : bool) (host_name : string) (port : Z)
    (o : aws_socket_options) (connection_options : option tls_connection_options)
    (r : new_channel_results) : Z * option client_connection_args * list effect :=
  if negb (args_alloc r) then (AWS_OP_ERR, None, [])
  else
    let '(rc, a, tr) :=
      new_client_channel_body bootstrap_on_protocol_negotiated host_name port o
        connection_options r zeroed_args in
    (rc, Some a, MemAcquire ObjClientArgs :: tr).

Section WithInvalidOptions.

(** [AWS_IO_SOCKET_INVALID_OPTIONS] is declared in aws/io/io.h;
    [aws_raise_error] returns [AWS_OP_ERR]. *)
Variable AWS_IO_SOCKET_INVALID_OPTIONS : Z.

Definition aws_client_bootstrap_new_tls_socket_channel
    (bootstrap_on_protocol_negotiated : bool) (host_name : string) (port : Z)
    (o : aws_socket_options) (connection_options : tls_connection_options)
    (r : new_channel_results) : Z * option client_connection_args * list effect :=
  if negb (is_stream (opt_type o)) then
    (AWS_OP_ERR, None, [RaiseError AWS_IO_SOCKET_INVALID_OPTIONS])
  else
    s_new_client_channel bootstrap_on_protocol_negotiated host_name port o
      (Some connection_options) r.

End WithInvalidOptions.

Definition aws_client_bootstrap_new_socket_channel
    (bootstrap_on_protocol_negotiated : bool) (host_name : string) (port : Z)
    (o : aws_socket_options) (r : new_channel_results)
  : Z * option client_connection_args * list effect :=
  s_new_client_channel bootstrap_on_protocol_negotiated host_name port o None r.

End Client.

(** ** Server bootstrap *)

Module Server.

(** [struct server_connection_args]; [ref_count] is the value of the atomic
    variable, a [size_t] of 64 bits.  [incoming_callback] and
    [shutdown_callback] are asserted non-NULL on entry and never written
    again.  Of the inline [listener] socket only its [event_loop] field is
    read by this file. *)
Record server_connection_args := {
  destroy_callback : bool;
  on_protocol_negotiated : bool;
  user_on_data_read : bool;
  user_on_negotiation_result : bool;
  user_on_error : bool;
  use_tls : bool;
  listener_event_loop : option event_loop_ptr;
  ref_count : Z }.

(** [struct server_channel_data]; [server_connection_args] is the first
    component of the state the monad carries. *)
Record server_channel_data := {
  channel : option channel_ptr;
  socket : socket_ptr;
  incoming_called : bool }.

Definition set_ref_count (v : Z) (a : server_connection_args) :=
  {| destroy_callback := destroy_callback a;
     on_protocol_negotiated := on_protocol_negotiated a;
     user_on_data_read := user_on_data_read a;
     user_on_negotiation_result := user_on_negotiation_result a;
     user_on_error := user_on_error a;
     use_tls := use_tls a; listener_event_loop := listener_event_loop a;
     ref_count := v |}.

Definition set_incoming_called (v : bool) (d : server_channel_data) :=
  {| channel := channel d; socket := socket d; incoming_called := v |}.

Definition set_channel (c : option channel_ptr) (d : server_channel_data) :=
  {| channel := c; socket := socket d; incoming_called := incoming_called d |}.

Definition SM : Type -> Type := M server_connection_args.

(** Callbacks of one accepted connection see the listener's state and
    their own [server_channel_data]. *)
Definition DM : Type -> Type := M (server_connection_args * server_channel_data).

Definition on_args {A} (m : SM A) : DM A :=
  fun s => let '(a, args, w) := m (fst s) in (a, (args, snd s), w).

Definition on_data (f : server_channel_data -> server_channel_data) : DM unit :=
  modify (fun s => (fst s, f (snd s))).

(** [aws_atomic_fetch_add(&args->ref_count, 1) == 0] *)
Definition s_server_connection_args_acquire : SM unit :=
  old <- gets ref_count ;;
  modify (set_ref_count (size_t (old + 1))) ;;
  when (old =? 0) (call BootstrapAcquire).

(** [aws_atomic_fetch_sub(&args->ref_count, 1) == 1] *)
Definition s_server_connection_args_release : SM unit :=
  old <- gets ref_count ;;
  modify (set_ref_count (size_t (old - 1))) ;;
  when (old =? 1)
    (cb <- gets destroy_callback ;;
     when cb (call DestroyCallback) ;;
     call BootstrapRelease ;;
     tls <- gets use_tls ;;
     when tls (call TlsOptionsCleanUp) ;;
     call (MemRelease ObjServerArgs)).

Definition s_server_incoming_callback (error_code : Z) (channel : option channel_ptr) : DM unit :=
  call (IncomingCallback error_code channel) ;;
  on_data (set_incoming_called true).

Definition s_tls_server_on_negotiation_result (slot_channel : channel_ptr) (err_code : Z)
  : DM unit :=
  user_cb <- gets (fun s => user_on_negotiation_result (fst s)) ;;
  when user_cb (call (UserOnNegotiationResult err_code)) ;;
  let channel := slot_channel in
  if nonzero err_code then call (ChannelShutdown channel err_code)
  else s_server_incoming_callback err_code (Some channel).

Definition s_setup_server_tls (r : setup_results) : DM Z :=
  call (SlotNew "tls") ;;
  if negb (tls_slot_new r) then ret AWS_OP_ERR else
  if negb (tls_handler_new r) then
    call (MemRelease (ObjSlot "tls")) ;; ret AWS_OP_ERR
  else
    call (SlotInsertEnd "tls") ;;
    call (SlotSetHandler "tls") ;;
    if negb (tls_set_handler r) then ret AWS_OP_ERR else
    alpn <- gets (fun s => on_protocol_negotiated (fst s)) ;;
    if alpn then
      call (SlotNew "alpn") ;;
      if negb (alpn_slot_new r) then ret AWS_OP_ERR else
      if negb (alpn_handler_new r) then
        call (SlotRemove "alpn") ;; ret AWS_OP_ERR
      else
        call (SlotInsertRight "tls" "alpn") ;;
        call (SlotSetHandler "alpn") ;;
        if negb (alpn_set_handler r) then ret AWS_OP_ERR else ret AWS_OP_SUCCESS
    else ret AWS_OP_SUCCESS.

(** The [error:] label of [s_on_server_channel_on_setup_completed]. *)
Definition setup_completed_error (channel : channel_ptr) (err_code : Z) : DM unit :=
  call (ChannelShutdown channel err_code).

Definition s_on_server_channel_on_setup_completed
    (channel : channel_ptr) (error_code : Z) (r : setup_results) (last_error : Z) : DM unit :=
  let err_code := error_code in
  if nonzero err_code then
    call (ChannelDestroy channel) ;;
    s <- gets (fun s => socket (snd s)) ;;
    call (SocketCleanUp s) ;;
    call (MemRelease (ObjSocket s)) ;;
    s_server_incoming_callback err_code None ;;
    call (MemRelease ObjChannelData) ;;
    on_args s_server_connection_args_release
  else
    call (SlotNew "socket") ;;
    if negb (socket_slot_new r) then setup_completed_error channel last_error else
    if negb (socket_handler_new r) then
      call (SlotRemove "socket") ;; setup_completed_error channel last_error
    else
      call (SlotSetHandler "socket") ;;
      if negb (socket_set_handler r) then setup_completed_error channel last_error else
      tls <- gets (fun s => use_tls (fst s)) ;;
      if tls then
        rc <- s_setup_server_tls r ;;
        if nonzero rc then setup_completed_error channel last_error else ret tt
      else
        s_server_incoming_callback AWS_OP_SUCCESS (Some channel).

Section WithErrorCodes.

Variable AWS_ERROR_UNKNOWN : Z.

Definition s_on_server_channel_on_shutdown (channel : channel_ptr) (error_code : Z) : DM unit :=
  called <- gets (fun s => incoming_called (snd s)) ;;
  (if negb called then
     let error_code := if nonzero error_code then error_code else AWS_ERROR_UNKNOWN in
     s_server_incoming_callback error_code None
   else
     call (ServerShutdownCallback error_code channel)) ;;
  call (ChannelDestroy channel) ;;
  s <- gets (fun s => socket (snd s)) ;;
  call (SocketCleanUp s) ;;
  call (MemRelease (ObjSocket s)) ;;
  on_args s_server_connection_args_release ;;
  call (MemRelease ObjChannelData).

End WithErrorCodes.

(** What [s_on_server_connection_result] got from the allocator, from
    [aws_socket_assign_to_event_loop] and from [aws_channel_new]. *)
Record accept_results := {
  channel_data_alloc : bool;
  event_loop : event_loop_ptr;
  assign_to_event_loop : bool;
  new_channel : option channel_ptr }.

(** The [error_cleanup:] label of [s_on_server_connection_result]. *)
Definition error_cleanup (new_socket : socket_ptr) (last_error : Z) : SM unit :=
  call (IncomingCallback last_error None) ;;
  call (SocketCleanUp new_socket) ;;
  call (MemRelease (ObjSocket new_socket)) ;;
  s_server_connection_args_release.

(** The result is the [server_channel_data] that was handed to a new
    channel, when one was created. *)
Definition s_on_server_connection_result
    (error_code : Z) (new_socket : socket_ptr) (r : accept_results) (last_error : Z)
  : SM (option server_channel_data) :=
  s_server_connection_args_acquire ;;
  if negb (nonzero error_code) then
    if negb (channel_data_alloc r) then
      error_cleanup new_socket last_error ;; ret None
    else
      call (MemAcquire ObjChannelData) ;;
      call (SocketAssignToEventLoop new_socket (event_loop r)) ;;
      if negb (assign_to_event_loop r) then
        call (MemRelease ObjChannelData) ;;
        error_cleanup new_socket last_error ;; ret None
      else
        match new_channel r with
        | Some c =>
            call (ChannelNew c (event_loop r)) ;;
            ret (Some {| channel := Some c; socket := new_socket; incoming_called := false |})
        | None =>
            call (MemRelease ObjChannelData) ;;
            error_cleanup new_socket last_error ;; ret None
        end
  else
    call (IncomingCallback error_code None) ;;
    s_server_connection_args_release ;;
    ret None.

Definition s_listener_destroy_task : SM unit :=
  call ListenerStopAccept ;;
  call ListenerCleanUp ;;
  s_server_connection_args_release.

Record listener_results := {
  args_alloc : option Z;
  tls_options_copy : bool;
  connection_loop : event_loop_ptr;
  listener_init : bool;
  listener_bind : bool;
  listener_listen : bool;
  listener_start_accept : bool }.

(** The memory [aws_mem_calloc] returns. *)
Definition zeroed_args : server_connection_args :=
  {| destroy_callback := false; on_protocol_negotiated := false;
     user_on_data_read := false; user_on_negotiation_result := false;
     user_on_error := false; use_tls := false; listener_event_loop := None;
     ref_count := 0 |}.

Definition init_args (destroy : bool) (bootstrap_on_protocol_negotiated : bool)
    (a : server_connection_args) :=
  {| destroy_callback := destroy;
     on_protocol_negotiated := bootstrap_on_protocol_negotiated;
     user_on_data_read := user_on_data_read a;
     user_on_negotiation_result := user_on_negotiation_result a;
     user_on_error := user_on_error a;
     use_tls := use_tls a; listener_event_loop := listener_event_loop a;
     ref_count := ref_count a |}.

Definition init_tls (co : tls_connection_options) (a : server_connection_args) :=
  {| destroy_callback := destroy_callback a;
     on_protocol_negotiated := on_protocol_negotiated a;
     user_on_data_read := on_data_read co;
     user_on_negotiation_result := on_negotiation_result co;
     user_on_error := on_error co;
     use_tls := true; listener_event_loop := listener_event_loop a;
     ref_count := ref_count a |}.

(** Modelled from the spec: the socket implementation is not part of the
    sources; a listener that started accepting is bound to the event loop
    it accepts on ("begins accepting on a next-round-robin event loop",
    "the listener's event loop"). *)
Definition set_listener_event_loop (l : event_loop_ptr) (a : server_connection_args) :=
  {| destroy_callback := destroy_callback a;
     on_protocol_negotiated := on_protocol_negotiated a;
     user_on_data_read := user_on_data_read a;
     user_on_negotiation_result := user_on_negotiation_result a;
     user_on_error := user_on_error a;
     use_tls := use_tls a; listener_event_loop := Some l;
     ref_count := ref_count a |}.

(** The labels [cleanup_server_connection_args:] and [cleanup_listener:] of
    [s_server_new_socket_listener]. *)
Definition cleanup_server_connection_args : SM bool :=
  s_server_connection_args_release ;; ret false.

Definition cleanup_listener : SM bool :=
  call ListenerCleanUp ;; cleanup_server_connection_args.

(** [s_server_new_socket_listener] from the point where the state is
    allocated; the result tells whether a listener is returned. *)
Definition new_socket_listener_body
    (bootstrap_on_protocol_negotiated : bool)
    (connection_options : option tls_connection_options)
    (destroy : bool) (r : listener_results) : SM bool :=
  modify (set_ref_count 0) ;;
  s_server_connection_args_acquire ;;
  modify (init_args destroy bootstrap_on_protocol_negotiated) ;;
  tls_ok <-
    match connection_options with
    | Some co =>
        call TlsOptionsCopy ;;
        if negb (tls_options_copy r) then ret false else
        modify (init_tls co) ;; ret true
    | None => ret true
    end ;;
  if negb tls_ok then cleanup_server_connection_args else
  call ListenerInit ;;
  if negb (listener_init r) then cleanup_server_connection_args else
  call ListenerBind ;;
  if negb (listener_bind r) then cleanup_listener else
  call (ListenerListen 1024) ;;
  if negb (listener_listen r) then cleanup_listener else
  call (ListenerStartAccept (connection_loop r)) ;;
  if negb (listener_start_accept r) then cleanup_listener else
  modify (set_listener_event_loop (connection_loop r)) ;;
  ret true.

Section Layout.

(** [offsetof(struct server_connection_args, listener)] *)
Variable offsetof_listener : Z.

Definition AWS_CONTAINER_OF (ptr offset : Z) : Z := ptr - offset.

(** The result is the returned pointer to the listener (NULL is [None]),
    the address and contents of the state when one was allocated, and the
    calls made. *)
Definition s_server_new_socket_listener
    (bootstrap_on_protocol_negotiated : bool)
    (connection_options : option tls_connection_options)
    (destroy : bool) (r : listener_results)
  : option Z * option (Z * server_connection_args) * list effect :=
  match args_alloc r with
  | None => (None, None, [])
  | Some p =>
      let '(ok, a, tr) :=
        new_socket_listener_body bootstrap_on_protocol_negotiated connection_options
          destroy r zeroed_args in
      ((if ok then Some (p + offsetof_listener) else None), Some (p, a),
       MemAcquire ObjServerArgs :: tr)
  end.

Definition aws_server_bootstrap_new_socket_listener
    (bootstrap_on_protocol_negotiated : bool) (destroy : bool) (r : listener_results) :=
  s_server_new_socket_listener bootstrap_on_protocol_negotiated None destroy r.

Section WithInvalidOptions.

Variable AWS_IO_SOCKET_INVALID_OPTIONS : Z.

Definition aws_server_bootstrap_new_tls_socket_listener
    (bootstrap_on_protocol_negotiated : bool) (o : aws_socket_options)
    (connection_options : tls_connection_options)
    (destroy : bool) (r : listener_results)
  : option Z * option (Z * server_connection_args) * list effect :=
  if negb (is_stream (opt_type o)) then
    (None, None, [RaiseError AWS_IO_SOCKET_INVALID_OPTIONS])
  else
    s_server_new_socket_listener bootstrap_on_protocol_negotiated
      (Some connection_options) destroy r.

End WithInvalidOptions.

(** [heap] gives the [server_connection_args] that live at an address.  The
    function reads [listener->event_loop], a field of the state the listener
    is embedded in; a pointer that is not inside a live state has no
    defined behaviour ([None]). *)
Definition aws_server_bootstrap_destroy_socket_listener
    (heap : Z -> option server_connection_args) (listener : Z)
  : option (Z * list effect) :=
  let server_connection_args := AWS_CONTAINER_OF listener offsetof_listener in
  match heap server_connection_args with
  | Some a =>
      match listener_event_loop a with
      | Some loop =>
          Some (AWS_OP_SUCCESS, [ScheduleListenerDestroyTask loop server_connection_args])
      | None => None
      end
  | None => None
  end.

End Layout.

End Server.

(** ** The connection race as a transition system

    One call into [s_new_client_channel] and every callback that follows
    from it.  The state holds the connection state of the C code and what
    the outside world still owes it: the resolver's answer, the queued
    [attempt_connection] tasks, the sockets with a connect in flight, and
    the channel.  An event is one callback together with the results the
    callback gets from the code it calls.

    Modelled from the spec: the channel, socket, resolver and event-loop
    implementations are not part of the sources.  The transition system
    follows their contracts: a successful resolution carries a non-empty
    address list; a queued task runs once, in queue order; a connect that
    was started completes once; a channel completes its setup exactly
    once, reports a TLS negotiation result at most once, and completes its
    shutdown at most once and only after setup, with the error code
    latched when the shutdown was started. *)

Module Race.

Import Client.

Inductive channel_phase :=
| NoChannel
| SetupPending (c : channel_ptr)
| Negotiating (c : channel_ptr)
| Established (c : channel_ptr)
| ShuttingDown (c : channel_ptr) (err : Z)
| Destroyed.

Record system := {
  args : client_connection_args;
  freed : bool;
  resolving : bool;
  scheduled : list connection_task_data;
  connecting : list (socket_ptr * string);
  chan : channel_phase;
  log : list effect }.

Inductive event :=
| HostResolved (err_code : Z) (host_addresses : list aws_host_address)
    (connect_loop : event_loop_ptr) (alloc : nat -> task_alloc) (last_error : Z)
| AttemptConnection (status : aws_task_status) (outgoing_socket : option socket_ptr)
    (socket_init socket_connect : bool) (last_error : Z)
| ConnectionEstablished (s : socket_ptr) (socket_loop : event_loop_ptr) (error_code : Z)
    (address_copy : bool) (new_channel : option channel_ptr)
| ChannelSetupCompleted (error_code : Z) (r : setup_results) (last_error : Z)
| TlsNegotiationResult (err_code : Z)
| ChannelShutdownCompleted (error_code : Z).

Definition args_freed (tr : list effect) : bool := existsb is_client_args_free tr.

Fixpoint shutdown_requested (tr : list effect) : option Z :=
  match tr with
  | [] => None
  | ChannelShutdown _ err :: _ => Some err
  | _ :: rest => shutdown_requested rest
  end.

Fixpoint channel_created (tr : list effect) : option channel_ptr :=
  match tr with
  | [] => None
  | ChannelNew c _ :: _ => Some c
  | _ :: rest => channel_created rest
  end.

Fixpoint take_socket (s : socket_ptr) (l : list (socket_ptr * string))
  : option (string * list (socket_ptr * string)) :=
  match l with
  | [] => None
  | (s', a) :: rest =>
      if Nat.eqb s s' then Some (a, rest)
      else match take_socket s rest with
           | Some (a', rest') => Some (a', (s', a) :: rest')
           | None => None
           end
  end.

(** The socket whose connect [s_attempt_connection] left in flight. *)
Definition connect_started (td : connection_task_data) (status : aws_task_status)
    (outgoing_socket : option socket_ptr) (socket_init socket_connect : bool)
  : list (socket_ptr * string) :=
  match outgoing_socket with
  | Some s =>
      if is_run_ready status && socket_init && socket_connect
      then [(s, endpoint_address td)] else []
  | None => []
  end.

Definition phase_after_setup (c : channel_ptr) (tls : bool) (tr : list effect) : channel_phase :=
  match shutdown_requested tr with
  | Some err => ShuttingDown c err
  | None => if tls then Negotiating c else Established c
  end.

Section WithErrorCodes.

Variable AWS_ERROR_UNKNOWN : Z.

Definition step (ev : event) (s : system) : option system :=
  if freed s then None else
  match ev with
  | HostResolved err_code host_addresses connect_loop alloc last_error =>
      if resolving s && (nonzero err_code || negb (Nat.eqb (List.length host_addresses) 0)) then
        let '(tasks, a, tr) :=
          s_on_host_resolved err_code host_addresses connect_loop alloc last_error (args s) in
        Some {| args := a; freed := args_freed tr; resolving := false;
                scheduled := scheduled s ++ tasks; connecting := connecting s;
                chan := chan s; log := log s ++ tr |}
      else None
  | AttemptConnection status outgoing_socket socket_init socket_connect last_error =>
      match scheduled s with
      | td :: rest =>
          let '(_, a, tr) :=
            s_attempt_connection td status outgoing_socket socket_init socket_connect
              last_error (args s) in
          Some {| args := a; freed := args_freed tr; resolving := resolving s;
                  scheduled := rest;
                  connecting := connecting s ++
                    connect_started td status outgoing_socket socket_init socket_connect;
                  chan := chan s; log := log s ++ tr |}
      | [] => None
      end
  | ConnectionEstablished sk socket_loop error_code address_copy new_channel =>
      match take_socket sk (connecting s) with
      | Some (remote_address, rest) =>
          let '(_, a, tr) :=
            s_on_client_connection_established sk remote_address socket_loop error_code
              address_copy new_channel (args s) in
          Some {| args := a; freed := args_freed tr; resolving := resolving s;
                  scheduled := scheduled s; connecting := rest;
                  chan := match channel_created tr with
                          | Some c => SetupPending c
                          | None => chan s
                          end;
                  log := log s ++ tr |}
      | None => None
      end
  | ChannelSetupCompleted error_code r last_error =>
      match chan s with
      | SetupPending c =>
          let '(_, a, tr) :=
            s_on_client_channel_on_setup_completed c error_code r last_error (args s) in
          Some {| args := a; freed := args_freed tr; resolving := resolving s;
                  scheduled := scheduled s; connecting := connecting s;
                  chan := phase_after_setup c (use_tls (channel_data a)) tr;
                  log := log s ++ tr |}
      | _ => None
      end
  | TlsNegotiationResult err_code =>
      match chan s with
      | Negotiating c =>
          let '(_, a, tr) := s_tls_client_on_negotiation_result c err_code (args s) in
          Some {| args := a; freed := args_freed tr; resolving := resolving s;
                  scheduled := scheduled s; connecting := connecting s;
                  chan := phase_after_setup c false tr;
                  log := log s ++ tr |}
      | _ => None
      end
  | ChannelShutdownCompleted error_code =>
      let enabled :=
        match chan s with
        | Negotiating c | Established c => Some c
        | ShuttingDown c err => if error_code =? err then Some c else None
        | _ => None
        end in
      match enabled with
      | Some c =>
          let '(_, a, tr) :=
            s_on_client_channel_on_shutdown AWS_ERROR_UNKNOWN c error_code (args s) in
          Some {| args := a; freed := args_freed tr; resolving := resolving s;
                  scheduled := scheduled s; connecting := connecting s;
                  chan := Destroyed; log := log s ++ tr |}
      | None => None
      end
  end.

Fixpoint run (evs : list event) (s : system) : option system :=
  match evs with
  | [] => Some s
  | ev :: rest =>
      match step ev s with
      | Some s' => run rest s'
      | None => None
      end
  end.

End WithErrorCodes.

(** The system right after a call into [s_new_client_channel] returned
    [AWS_OP_SUCCESS]: a resolution is outstanding, or for a local socket
    the one connect. *)
Definition started
    (bootstrap_on_protocol_negotiated : bool) (host_name : string) (port : Z)
    (o : aws_socket_options) (connection_options : option tls_connection_options)
    (r : new_channel_results) : option system :=
  match s_new_client_channel bootstrap_on_protocol_negotiated host_name port o
          connection_options r with
  | (rc, Some a, tr) =>
      if rc =? AWS_OP_SUCCESS then
        Some {| args := a; freed := false;
                resolving := negb (is_local (opt_domain o));
                scheduled := [];
                connecting := if is_local (opt_domain o)
                              then match socket_alloc r with
                                   | Some s => [(s, host_name)]
                                   | None => []
                                   end
                              else [];
                chan := NoChannel; log := tr |}
      else None
  | _ => None
  end.

(** Nothing is outstanding: no callback will follow. *)
Definition quiescent (s : system) : bool :=
  negb (resolving s)
  && match scheduled s with [] => true | _ => false end
  && match connecting s with [] => true | _ => false end
  && match chan s with NoChannel | Destroyed => true | _ => false end.

(** Attempts of the race that have not completed yet. *)
Definition outstanding (s : system) : nat :=
  (List.length (scheduled s) + List.length (connecting s))%nat.

End Race.

(** ** A listener and its accepted connections as a transition system

    One listener created by [s_server_new_socket_listener] and every
    callback that follows.  Accepted connections are numbered in the model
    (the number is not visible to the code); every call recorded in the
    log carries the number of the connection whose callback made it, or
    [None] for the listener itself.

    Modelled from the spec: the channel, socket and event-loop
    implementations are not part of the sources.  The transition system
    follows their contracts: a listener reports accepted connections until
    it stops accepting; a channel completes its setup exactly once, reports
    a TLS negotiation result at most once, and completes its shutdown at
    most once and only after a successful setup, with the error code
    latched when the shutdown was started; the user destroys a listener at
    most once. *)

Module Listener.

Import Server.

Inductive conn_phase :=
| SetupPending (c : channel_ptr)
| Negotiating (c : channel_ptr)
| Live (c : channel_ptr)
| ShuttingDown (c : channel_ptr) (err : Z)
| Closed.

Record conn := {
  phase : conn_phase;
  data : server_channel_data }.

Record system := {
  base : Z;
  args : server_connection_args;
  freed : bool;
  accepting : bool;
  destroy_called : bool;
  destroy_tasks : list Z;
  conns : nat -> option conn;
  log : list (option nat * effect) }.

Inductive event :=
| ConnectionResult (id : nat) (error_code : Z) (new_socket : socket_ptr)
    (r : accept_results) (last_error : Z)
| ChannelSetupCompleted (id : nat) (error_code : Z) (r : setup_results) (last_error : Z)
| TlsNegotiationResult (id : nat) (err_code : Z)
| ChannelShutdownCompleted (id : nat) (error_code : Z)
| DestroySocketListener (listener : Z)
| ListenerDestroyTask.

Definition args_freed (tr : list effect) : bool := existsb is_server_args_free tr.

Definition data_freed (tr : list effect) : bool := existsb is_channel_data_free tr.

Definition stopped_accepting (tr : list effect) : bool :=
  existsb (fun e => match e with ListenerStopAccept => true | _ => false end) tr.

Fixpoint shutdown_requested (tr : list effect) : option Z :=
  match tr with
  | [] => None
  | ChannelShutdown _ err :: _ => Some err
  | _ :: rest => shutdown_requested rest
  end.

Definition phase_after (c : channel_ptr) (d : server_channel_data) (tr : list effect)
  : conn_phase :=
  if data_freed tr then Closed
  else match shutdown_requested tr with
       | Some err => ShuttingDown c err
       | None => if incoming_called d then Live c else Negotiating c
       end.

Definition update (id : nat) (c : conn) (m : nat -> option conn) : nat -> option conn :=
  fun j => if Nat.eqb j id then Some c else m j.

Definition tag (id : option nat) (tr : list effect) : list (option nat * effect) :=
  map (fun e => (id, e)) tr.

(** The calls recorded for connection [id]. *)
Definition calls_of (id : nat) (l : list (option nat * effect)) : list effect :=
  map snd (filter (fun x => match fst x with
                            | Some j => Nat.eqb j id
                            | None => false
                            end) l).

Definition all_calls (l : list (option nat * effect)) : list effect := map snd l.

(** What lives at each address: the listener's state at [base] until it is
    released. *)
Definition heap (s : system) : Z -> option server_connection_args :=
  fun p => if (p =? base s) && negb (freed s) then Some (args s) else None.

Section WithParameters.

Variable AWS_ERROR_UNKNOWN : Z.
Variable offsetof_listener : Z.

(** A callback of connection [id] ran on the listener's state and the
    connection's own data. *)
Definition after_callback (s : system) (id : nat) (ph : conn_phase)
    (r : unit * (server_connection_args * server_channel_data) * list effect) : system :=
  let '(_, (a, d), tr) := r in
  {| base := base s; args := a; freed := args_freed tr; accepting := accepting s;
     destroy_called := destroy_called s; destroy_tasks := destroy_tasks s;
     conns := update id {| phase := ph; data := d |} (conns s);
     log := log s ++ tag (Some id) tr |}.

Definition step (ev : event) (s : system) : option system :=
  if freed s then None else
  match ev with
  | ConnectionResult id error_code new_socket r last_error =>
      match conns s id with
      | None =>
          if accepting s then
            let '(cd, a, tr) :=
              s_on_server_connection_result error_code new_socket r last_error (args s) in
            let c :=
              match cd, new_channel r with
              | Some d, Some c => {| phase := SetupPending c; data := d |}
              | _, _ => {| phase := Closed;
                           data := {| channel := None; socket := new_socket;
                                      incoming_called := false |} |}
              end in
            Some {| base := base s; args := a; freed := args_freed tr;
                    accepting := accepting s; destroy_called := destroy_called s;
                    destroy_tasks := destroy_tasks s;
                    conns := update id c (conns s);
                    log := log s ++ tag (Some id) tr |}
          else None
      | Some _ => None
      end
  | ChannelSetupCompleted id error_code r last_error =>
      match conns s id with
      | Some {| phase := SetupPending c; data := d |} =>
          let res :=
            s_on_server_channel_on_setup_completed c error_code r last_error (args s, d) in
          Some (after_callback s id (phase_after c (snd (state res)) (trace res)) res)
      | _ => None
      end
  | TlsNegotiationResult id err_code =>
      match conns s id with
      | Some {| phase := Negotiating c; data := d |} =>
          let res := s_tls_server_on_negotiation_result c err_code (args s, d) in
          Some (after_callback s id (phase_after c (snd (state res)) (trace res)) res)
      | _ => None
      end
  | ChannelShutdownCompleted id error_code =>
      match conns s id with
      | Some {| phase := ph; data := d |} =>
          let enabled :=
            match ph with
            | Negotiating c | Live c => Some c
            | ShuttingDown c err => if error_code =? err then Some c else None
            | _ => None
            end in
          match enabled with
          | Some c =>
              let res :=
                s_on_server_channel_on_shutdown AWS_ERROR_UNKNOWN c error_code (args s, d) in
              Some (after_callback s id Closed res)
          | None => None
          end
      | None => None
      end
  | DestroySocketListener listener =>
      if destroy_called s then None else
      match aws_server_bootstrap_destroy_socket_listener offsetof_listener (heap s) listener with
      | Some (_, tr) =>
          Some {| base := base s; args := args s; freed := freed s;
                  accepting := accepting s; destroy_called := true;
                  destroy_tasks :=
                    destroy_tasks s ++
                    flat_map (fun e => match e with
                                       | ScheduleListenerDestroyTask _ arg => [arg]
                                       | _ => []
                                       end) tr;
                  conns := conns s; log := log s ++ tag None tr |}
      | None => None
      end
  | ListenerDestroyTask =>
      match destroy_tasks s with
      | arg :: rest =>
          match heap s arg with
          | Some a0 =>
              let '(_, a, tr) := s_listener_destroy_task a0 in
              Some {| base := base s; args := a; freed := args_freed tr;
                      accepting := accepting s && negb (stopped_accepting tr);
                      destroy_called := destroy_called s; destroy_tasks := rest;
                      conns := conns s; log := log s ++ tag None tr |}
          | None => None
          end
      | [] => None
      end
  end.

Fixpoint run (evs : list event) (s : system) : option system :=
  match evs with
  | [] => Some s
  | ev :: rest =>
      match step ev s with
      | Some s' => run rest s'
      | None => None
      end
  end.

(** The system right after [s_server_new_socket_listener] returned a
    listener. *)
Definition started
    (bootstrap_on_protocol_negotiated : bool)
    (connection_options : option tls_connection_options)
    (destroy : bool) (r : listener_results) : option (Z * system) :=
  match s_server_new_socket_listener offsetof_listener bootstrap_on_protocol_negotiated
          connection_options destroy r with
  | (Some listener, Some (p, a), tr) =>
      Some (listener,
            {| base := p; args := a; freed := false; accepting := true;
               destroy_called := false; destroy_tasks := [];
               conns := fun _ => None; log := tag None tr |})
  | _ => None
  end.

End WithParameters.

(** Connections whose channel data is still allocated: each of them holds a
    reference on the listener's state. *)
Definition is_open (c : option conn) : bool :=
  match c with
  | Some {| phase := Closed |} => false
  | Some _ => true
  | None => false
  end.

End Listener.

(** ** What the client callbacks compute

    The state a callback leaves and the calls it makes, as functions of the
    state it starts from.  The lemmas named [*_run] below prove that the
    monadic translations compute exactly these. *)

Module ClientForms.

Import Client.

Definition acquired (a : client_connection_args) : client_connection_args :=
  set_ref_count (uint32_t (ref_count a + 1)) a.

Definition acquire_calls (a : client_connection_args) : list effect :=
  if ref_count a =? 0 then [BootstrapAcquire] else [].

Definition released (a : client_connection_args) : client_connection_args :=
  set_ref_count (uint32_t (ref_count a - 1)) a.

Definition release_calls (a : client_connection_args) : list effect :=
  if uint32_t (ref_count a - 1) =? 0 then
    BootstrapRelease ::
    (if is_some (host_name a) then [HostNameDestroy] else []) ++
    (if use_tls (channel_data a) then [TlsOptionsCleanUp] else []) ++
    [MemRelease ObjClientArgs]
  else [].

(** The state once the user's setup callback returned. *)
Definition marked (e : Z) (a : client_connection_args) : client_connection_args :=
  if nonzero e then set_shutdown_callback false (set_setup_called true a)
  else set_setup_called true a.

Definition setup_state (e : Z) (a : client_connection_args) : client_connection_args :=
  if setup_called a then a else released (marked e a).

Definition setup_calls (e : Z) (ch : option channel_ptr) (a : client_connection_args)
  : list effect :=
  if setup_called a then [] else SetupCallback e ch :: release_calls (marked e a).

Definition or_unknown (unknown e : Z) : Z := if nonzero e then e else unknown.

Definition shutdown_state (unknown e : Z) (a : client_connection_args) :=
  if setup_called a then a else setup_state (or_unknown unknown e) a.

Definition shutdown_calls (unknown e : Z) (ch : option channel_ptr)
    (a : client_connection_args) : list effect :=
  if setup_called a then
    if shutdown_callback a then [ShutdownCallback e ch] else []
  else setup_calls (or_unknown unknown e) None a.

Definition negotiation_state (e : Z) (a : client_connection_args) :=
  if nonzero e then a else setup_state AWS_ERROR_SUCCESS a.

Definition negotiation_calls (c : channel_ptr) (e : Z) (a : client_connection_args)
  : list effect :=
  (if user_on_negotiation_result (channel_data a) then [UserOnNegotiationResult e] else []) ++
  (if nonzero e then [ChannelShutdown c e]
   else setup_calls AWS_ERROR_SUCCESS (channel (channel_data a)) a).

Definition socket_calls (s : option socket_ptr) : list effect :=
  match s with
  | Some s => [SocketCleanUp s; MemRelease (ObjSocket s)]
  | None => []
  end.

Definition on_shutdown_state (unknown e : Z) (a : client_connection_args) :=
  released (shutdown_state unknown e a).

Definition on_shutdown_calls (unknown : Z) (c : channel_ptr) (e : Z)
    (a : client_connection_args) : list effect :=
  shutdown_calls unknown e (Some c) a ++
  ChannelDestroy c ::
  socket_calls (socket (channel_data (shutdown_state unknown e a))) ++
  release_calls (shutdown_state unknown e a).

Definition incr (a : client_connection_args) : client_connection_args :=
  set_failed_count (uint8_t (failed_count a + 1)) a.

(** The test [failed_count == addresses_count] and the delivery behind it. *)
Definition gate_open (a : client_connection_args) : bool :=
  failed_count a =? addresses_count a.

Definition gate (e : Z) (a : client_connection_args) : client_connection_args :=
  if gate_open a then setup_state e a else a.

Definition gate_calls (e : Z) (a : client_connection_args) : list effect :=
  if gate_open a then setup_calls e None a else [].

Definition record_calls (remote_address : string) (e : Z) (address_copy : bool)
    (a : client_connection_args) : list effect :=
  if negb (is_local (opt_domain (outgoing_options a))) && nonzero e then
    if address_copy then
      [RecordConnectionFailure remote_address
         (if is_ipv6 (opt_domain (outgoing_options a)) then AWS_ADDRESS_RECORD_TYPE_AAAA
          else AWS_ADDRESS_RECORD_TYPE_A)]
    else []
  else [].

(** The branch of [s_on_client_connection_established] that gives the
    socket up. *)
Definition counted (e : Z) (a : client_connection_args) : client_connection_args :=
  if nonzero e then incr a else a.

Definition lost_state (e : Z) (a : client_connection_args) : client_connection_args :=
  released (gate e (counted e a)).

Definition lost_calls (sk : socket_ptr) (remote_address : string) (e : Z)
    (address_copy : bool) (a : client_connection_args) : list effect :=
  record_calls remote_address e address_copy a ++
  [SocketClose sk; SocketCleanUp sk; MemRelease (ObjSocket sk)] ++
  gate_calls e (counted e a) ++ release_calls (gate e (counted e a)).

(** The branch that keeps the socket. *)
Definition chosen (sk : socket_ptr) (nc : option channel_ptr) (a : client_connection_args) :=
  set_channel_data (with_channel nc)
    (set_channel_data (with_socket (Some sk)) (set_connection_chosen true a)).

Definition won_state (sk : socket_ptr) (e : Z) (nc : option channel_ptr)
    (a : client_connection_args) : client_connection_args :=
  match nc with
  | Some _ => chosen sk nc a
  | None => gate e (incr (chosen sk nc a))
  end.

Definition won_calls (sk : socket_ptr) (loop : event_loop_ptr) (e : Z)
    (nc : option channel_ptr) (a : client_connection_args) : list effect :=
  match nc with
  | Some c => [ChannelNew c loop]
  | None => [SocketCleanUp sk; MemRelease (ObjSocket sk)] ++
            gate_calls e (incr (chosen sk nc a))
  end.

Definition gives_up (e : Z) (a : client_connection_args) : bool :=
  nonzero e || connection_chosen a.

Definition established_state (sk : socket_ptr) (e : Z) (nc : option channel_ptr)
    (a : client_connection_args) : client_connection_args :=
  if gives_up e a then lost_state e a else won_state sk e nc a.

Definition established_calls (sk : socket_ptr) (remote_address : string)
    (loop : event_loop_ptr) (e : Z) (address_copy : bool) (nc : option channel_ptr)
    (a : client_connection_args) : list effect :=
  if gives_up e a then lost_calls sk remote_address e address_copy a
  else won_calls sk loop e nc a.

(** The label [task_cancelled:] and what falls through to it. *)
Definition failed_state (e : Z) (a : client_connection_args) : client_connection_args :=
  released (gate e (incr a)).

Definition cleanup_calls (td : connection_task_data) : list effect :=
  [HostAddressCleanUp (task td); MemRelease (ObjTaskData (task td))].

Definition failed_calls (td : connection_task_data) (e : Z) (a : client_connection_args)
  : list effect :=
  gate_calls e (incr a) ++ release_calls (gate e (incr a)) ++ cleanup_calls td.

(** Whether [s_attempt_connection] leaves a connect in flight. *)
Definition attempt_connects (status : aws_task_status) (outgoing_socket : option socket_ptr)
    (socket_init socket_connect : bool) : bool :=
  is_run_ready status && is_some outgoing_socket && socket_init && socket_connect.

Definition attempt_error (status : aws_task_status) (last_error : Z) : Z :=
  if is_run_ready status then last_error else 0.

Definition attempt_state (status : aws_task_status) (outgoing_socket : option socket_ptr)
    (socket_init socket_connect : bool) (last_error : Z) (a : client_connection_args) :=
  if attempt_connects status outgoing_socket socket_init socket_connect then a
  else failed_state (attempt_error status last_error) a.

(** The calls [s_attempt_connection] makes on a socket before it reaches
    [task_cancelled:] or [cleanup_task:]. *)
Definition attempt_socket_calls (td : connection_task_data) (status : aws_task_status)
    (outgoing_socket : option socket_ptr) (socket_init socket_connect : bool)
  : list effect :=
  if is_run_ready status then
    match outgoing_socket with
    | None => []
    | Some s =>
        [MemAcquire (ObjSocket s); SocketInit s (options td)] ++
        (if socket_init then
           SocketConnect s (endpoint_address td) (endpoint_port td) (connect_loop td) ::
           (if socket_connect then []
            else [RecordConnectionFailure (address (host_address td))
                    (record_type (host_address td));
                  SocketCleanUp s; MemRelease (ObjSocket s)])
         else [MemRelease (ObjSocket s)])
    end
  else [].

Definition attempt_calls (td : connection_task_data) (status : aws_task_status)
    (outgoing_socket : option socket_ptr) (socket_init socket_connect : bool)
    (last_error : Z) (a : client_connection_args) : list effect :=
  attempt_socket_calls td status outgoing_socket socket_init socket_connect ++
  (if attempt_connects status outgoing_socket socket_init socket_connect
   then cleanup_calls td
   else failed_calls td (attempt_error status last_error) a).

(** The loops of [s_on_host_resolved]. *)
Definition task_object (o : option connection_task_data) : list effect :=
  match o with
  | Some td => [HostAddressCleanUp (task td); MemRelease (ObjTaskData (task td))]
  | None => []
  end.

Definition free_calls (tasks : list (option connection_task_data)) : list effect :=
  flat_map task_object tasks.

Fixpoint acquired_n (n : nat) (a : client_connection_args) : client_connection_args :=
  match n with
  | O => a
  | S n => acquired_n n (acquired a)
  end.

Fixpoint schedule_calls (loop : event_loop_ptr) (tasks : list connection_task_data)
    (a : client_connection_args) : list effect :=
  match tasks with
  | [] => []
  | td :: rest =>
      acquire_calls a ++ ScheduleTaskNow loop (task td) :: schedule_calls loop rest (acquired a)
  end.

(** The array of task structures after the first loop, and the calls the
    loop made. *)
Fixpoint allocated (alloc : nat -> task_alloc) (port : Z) (o : aws_socket_options)
    (loop : event_loop_ptr) (i : nat) (addrs : list aws_host_address)
    (tasks : list connection_task_data)
  : list (option connection_task_data) + list connection_task_data :=
  match addrs with
  | [] => inr tasks
  | h :: rest =>
      match alloc i with
      | TaskAllocNull => inl (map Some tasks ++ [None])
      | TaskCopyFailed t => inl (map Some tasks ++ [Some (fill_task_data t port o loop h)])
      | TaskAllocated t =>
          allocated alloc port o loop (S i) rest (tasks ++ [fill_task_data t port o loop h])
      end
  end.

Fixpoint allocate_calls (alloc : nat -> task_alloc) (i : nat) (addrs : list aws_host_address)
  : list effect :=
  match addrs with
  | [] => []
  | h :: rest =>
      match alloc i with
      | TaskAllocNull => []
      | TaskCopyFailed t => [MemAcquire (ObjTaskData t)]
      | TaskAllocated t => MemAcquire (ObjTaskData t) :: allocate_calls alloc (S i) rest
      end
  end.

Definition counted_addresses (host_addresses : list aws_host_address)
    (a : client_connection_args) : client_connection_args :=
  set_addresses_count (uint8_t (Z.of_nat (List.length host_addresses))) a.

Definition is_allocated (x : task_alloc) : bool :=
  match x with TaskAllocated _ => true | _ => false end.

(** Every allocation for the addresses numbered [i], ..., [i + n - 1]
    succeeds. *)
Definition all_allocated (alloc : nat -> task_alloc) (i n : nat) : bool :=
  forallb (fun j => is_allocated (alloc j)) (seq i n).

(** The task structures a trace allocates, and the ones it frees. *)
Definition tasks_acquired (tr : list effect) : list task_ptr :=
  flat_map (fun e => match e with MemAcquire (ObjTaskData t) => [t] | _ => [] end) tr.

Definition tasks_released (tr : list effect) : list task_ptr :=
  flat_map (fun e => match e with MemRelease (ObjTaskData t) => [t] | _ => [] end) tr.

Definition acquire_task (td : connection_task_data) : effect :=
  MemAcquire (ObjTaskData (task td)).

(** Whether [s_on_client_connection_established], giving the socket up,
    delivers the setup callback. *)
Definition setup_due (e : Z) (a : client_connection_args) : bool :=
  gate_open (counted e a) && negb (setup_called a).

End ClientForms.

(** ** What the server callbacks compute *)

Module ServerForms.

Import Server.

Definition acquired (a : server_connection_args) : server_connection_args :=
  set_ref_count (size_t (ref_count a + 1)) a.

Definition acquire_calls (a : server_connection_args) : list effect :=
  if ref_count a =? 0 then [BootstrapAcquire] else [].

Definition released (a : server_connection_args) : server_connection_args :=
  set_ref_count (size_t (ref_count a - 1)) a.

Definition release_calls (a : server_connection_args) : list effect :=
  if ref_count a =? 1 then
    (if destroy_callback a then [DestroyCallback] else []) ++
    BootstrapRelease ::
    (if use_tls a then [TlsOptionsCleanUp] else []) ++
    [MemRelease ObjServerArgs]
  else [].

Definition or_unknown (unknown e : Z) : Z := if nonzero e then e else unknown.

Definition socket_calls (d : server_channel_data) : list effect :=
  [SocketCleanUp (socket d); MemRelease (ObjSocket (socket d))].

Definition on_shutdown_state (a : server_connection_args) (d : server_channel_data) :=
  (released a, if incoming_called d then d else set_incoming_called true d).

Definition on_shutdown_calls (unknown : Z) (c : channel_ptr) (e : Z)
    (a : server_connection_args) (d : server_channel_data) : list effect :=
  (if incoming_called d then [ServerShutdownCallback e c]
   else [IncomingCallback (or_unknown unknown e) None]) ++
  ChannelDestroy c :: socket_calls d ++ release_calls a ++ [MemRelease ObjChannelData].

Definition negotiation_state (e : Z) (a : server_connection_args) (d : server_channel_data) :=
  (a, if nonzero e then d else set_incoming_called true d).

Definition negotiation_calls (c : channel_ptr) (e : Z) (a : server_connection_args)
  : list effect :=
  (if user_on_negotiation_result a then [UserOnNegotiationResult e] else []) ++
  (if nonzero e then [ChannelShutdown c e] else [IncomingCallback e (Some c)]).

Definition setup_failed_state (a : server_connection_args) (d : server_channel_data) :=
  (released a, set_incoming_called true d).

Definition setup_failed_calls (c : channel_ptr) (e : Z) (a : server_connection_args)
    (d : server_channel_data) : list effect :=
  ChannelDestroy c :: socket_calls d ++
  [IncomingCallback e None; MemRelease ObjChannelData] ++ release_calls a.

(** How the construction of the slots of an accepted channel ends. *)
Inductive setup_outcome := Delivered | Deferred | Failed.

Definition socket_slot_ok (r : setup_results) : bool :=
  socket_slot_new r && socket_handler_new r && socket_set_handler r.

Definition tls_slot_ok (r : setup_results) : bool :=
  tls_slot_new r && tls_handler_new r && tls_set_handler r.

Definition alpn_slot_ok (r : setup_results) : bool :=
  alpn_slot_new r && alpn_handler_new r && alpn_set_handler r.

Definition server_setup_outcome (r : setup_results) (a : server_connection_args)
  : setup_outcome :=
  if socket_slot_ok r then
    if use_tls a then
      if tls_slot_ok r && (negb (on_protocol_negotiated a) || alpn_slot_ok r)
      then Deferred else Failed
    else Delivered
  else Failed.

(** Calls that build the slots of a channel. *)
Definition is_slot_call (e : effect) : bool :=
  match e with
  | SlotNew _ | SlotRemove _ | SlotInsertEnd _ | SlotInsertRight _ _ | SlotSetHandler _
  | MemRelease (ObjSlot _) | TlsStartNegotiation => true
  | _ => false
  end.

Definition is_some_channel (o : option channel_ptr) : bool :=
  match o with Some _ => true | None => false end.

(** Whether [s_on_server_connection_result] hands the socket to a new
    channel. *)
Definition accept_ok (e : Z) (r : accept_results) : bool :=
  negb (nonzero e) && channel_data_alloc r && assign_to_event_loop r
  && is_some_channel (new_channel r).

Definition accept_state (e : Z) (r : accept_results) (a : server_connection_args) :=
  if accept_ok e r then acquired a else released (acquired a).

Definition accept_error (e last_error : Z) : Z := if nonzero e then e else last_error.

(** The allocator and socket calls around the delivery of an accept
    failure. *)
Definition is_accept_call (e : effect) : bool :=
  match e with
  | MemAcquire ObjChannelData | MemRelease ObjChannelData
  | SocketAssignToEventLoop _ _ | SocketCleanUp _ | MemRelease (ObjSocket _)
  | ChannelNew _ _ => true
  | _ => false
  end.

(** How one callback changes the listener's state and what it may call
    besides: nothing, one more reference, or one reference given back from
    the state [before]. *)
Inductive ref_step (a : server_connection_args) (a' : server_connection_args)
    (tr : list effect) : Prop :=
| RefKept :
    a' = a -> filter is_destroy_callback tr = [] -> filter is_server_args_free tr = [] ->
    ref_step a a' tr
| RefAcquired :
    a' = acquired a -> filter is_destroy_callback tr = [] ->
    filter is_server_args_free tr = [] -> ref_step a a' tr
| RefReleased (before : server_connection_args) :
    before = a \/ before = acquired a ->
    a' = released before ->
    filter is_destroy_callback tr = filter is_destroy_callback (release_calls before) ->
    filter is_server_args_free tr = filter is_server_args_free (release_calls before) ->
    ref_step a a' tr.

End ServerForms.

(** ** Concrete inputs used by the examples below *)

Module Examples.

Import Client.

Definition stream_ipv4 : aws_socket_options :=
  {| opt_type := AWS_SOCKET_STREAM; opt_domain := AWS_SOCKET_IPV4 |}.

Definition datagram_ipv4 : aws_socket_options :=
  {| opt_type := AWS_SOCKET_DGRAM; opt_domain := AWS_SOCKET_IPV4 |}.

Definition all_succeed : new_channel_results :=
  {| args_alloc := true; tls_options_copy := true; host_name_alloc := true;
     resolve_host := true; socket_alloc := Some 9%nat; local_socket_init := true;
     local_socket_connect := true; local_connect_loop := 0%nat |}.

Definition slots_succeed : setup_results :=
  {| socket_slot_new := true; socket_handler_new := true; socket_set_handler := true;
     tls_slot_new := true; tls_handler_new := true; tls_set_handler := true;
     alpn_slot_new := true; alpn_handler_new := true; alpn_set_handler := true;
     tls_start_negotiation := true |}.

Definition no_user_tls_callbacks : tls_connection_options :=
  {| on_data_read := false; on_error := false; on_negotiation_result := false |}.

Definition address_a (n : string) : aws_host_address :=
  {| host := "example.com"; address := n; record_type := AWS_ADDRESS_RECORD_TYPE_A |}.

Definition two_addresses : list aws_host_address :=
  [address_a "10.0.0.1"; address_a "10.0.0.2"].

(** The state of a race over two addresses in which nothing has completed
    yet: the reference of the state itself and one per attempt. *)
Definition racing : client_connection_args :=
  {| shutdown_callback := true;
     channel_data := {| channel := None; socket := None; on_protocol_negotiated := false;
                        user_on_data_read := false; user_on_negotiation_result := false;
                        user_on_error := false; use_tls := false |};
     outgoing_options := stream_ipv4; outgoing_port := 443;
     host_name := Some "example.com"%string; addresses_count := 2; failed_count := 0;
     connection_chosen := false; setup_called := false; ref_count := 3 |}.

(** The same race once the first address connected and got its channel. *)
Definition won : client_connection_args :=
  {| shutdown_callback := true;
     channel_data := {| channel := Some 5%nat; socket := Some 1%nat;
                        on_protocol_negotiated := false;
                        user_on_data_read := false; user_on_negotiation_result := false;
                        user_on_error := false; use_tls := false |};
     outgoing_options := stream_ipv4; outgoing_port := 443;
     host_name := Some "example.com"%string; addresses_count := 2; failed_count := 0;
     connection_chosen := true; setup_called := false; ref_count := 3 |}.

(** A TLS connection whose channel is negotiating. *)
Definition negotiating : client_connection_args :=
  {| shutdown_callback := true;
     channel_data := {| channel := Some 5%nat; socket := Some 1%nat;
                        on_protocol_negotiated := false;
                        user_on_data_read := false; user_on_negotiation_result := false;
                        user_on_error := false; use_tls := true |};
     outgoing_options := stream_ipv4; outgoing_port := 443;
     host_name := Some "example.com"%string; addresses_count := 1; failed_count := 0;
     connection_chosen := true; setup_called := false; ref_count := 2 |}.

(** The last of two attempts, the first having failed. *)
Definition one_left : client_connection_args :=
  {| shutdown_callback := true;
     channel_data := {| channel := None; socket := None; on_protocol_negotiated := false;
                        user_on_data_read := false; user_on_negotiation_result := false;
                        user_on_error := false; use_tls := false |};
     outgoing_options := stream_ipv4; outgoing_port := 443;
     host_name := Some "example.com"%string; addresses_count := 2; failed_count := 1;
     connection_chosen := false; setup_called := false; ref_count := 2 |}.

(** The state when the resolver answers: only the reference of the state
    itself is held. *)
Definition resolving : client_connection_args :=
  {| shutdown_callback := true;
     channel_data := {| channel := None; socket := None; on_protocol_negotiated := false;
                        user_on_data_read := false; user_on_negotiation_result := false;
                        user_on_error := false; use_tls := false |};
     outgoing_options := stream_ipv4; outgoing_port := 443;
     host_name := Some "example.com"%string; addresses_count := 0; failed_count := 0;
     connection_chosen := false; setup_called := false; ref_count := 1 |}.

(** The allocator gives out the first task structure and then fails. *)
Definition second_allocation_fails (i : nat) : task_alloc :=
  match i with
  | O => TaskAllocated 0%nat
  | _ => TaskAllocNull
  end.

Definition every_allocation_succeeds (i : nat) : task_alloc := TaskAllocated i.

(** Both attempts connect; the channel for the first one cannot be
    allocated; the second one is closed as a late success. *)
Definition winner_without_channel : list Race.event :=
  [ Race.HostResolved 0 two_addresses 7%nat every_allocation_succeeds 0;
    Race.AttemptConnection AWS_TASK_STATUS_RUN_READY (Some 1%nat) true true 0;
    Race.AttemptConnection AWS_TASK_STATUS_RUN_READY (Some 2%nat) true true 0;
    Race.ConnectionEstablished 1%nat 7%nat 0 true None;
    Race.ConnectionEstablished 2%nat 7%nat 0 true None ].

(** A local socket connects and the channel for it cannot be allocated. *)
Definition local_without_channel : list Race.event :=
  [ Race.ConnectionEstablished 9%nat 0%nat 0 true None ].

Definition stream_local : aws_socket_options :=
  {| opt_type := AWS_SOCKET_STREAM; opt_domain := AWS_SOCKET_LOCAL |}.

(** The system right after the call
    [aws_client_bootstrap_new_socket_channel(bootstrap, "example.com", 443, ...)]
    returned [AWS_OP_SUCCESS]. *)
Definition race_start : Race.system :=
  {| Race.args := resolving; Race.freed := false; Race.resolving := true;
     Race.scheduled := []; Race.connecting := []; Race.chan := Race.NoChannel;
     Race.log := [MemAcquire ObjClientArgs; BootstrapAcquire; ResolveHost "example.com"] |}.

Definition many_addresses : list aws_host_address := repeat (address_a "10.0.0.1") 256.

Definition task_for (t : task_ptr) (n : string) : connection_task_data :=
  fill_task_data t 443 stream_ipv4 7%nat (address_a n).

Definition listening : Server.server_connection_args :=
  {| Server.destroy_callback := true; Server.on_protocol_negotiated := false;
     Server.user_on_data_read := false; Server.user_on_negotiation_result := false;
     Server.user_on_error := false; Server.use_tls := false;
     Server.listener_event_loop := Some 0%nat; Server.ref_count := 2 |}.

Definition accepted : Server.server_channel_data :=
  {| Server.channel := Some 5%nat; Server.socket := 1%nat; Server.incoming_called := false |}.

Definition listener_succeeds : Server.listener_results :=
  {| Server.args_alloc := Some 4096; Server.tls_options_copy := true;
     Server.connection_loop := 0%nat; Server.listener_init := true;
     Server.listener_bind := true; Server.listener_listen := true;
     Server.listener_start_accept := true |}.

Definition accept_succeeds (c : channel_ptr) : Server.accept_results :=
  {| Server.channel_data_alloc := true; Server.event_loop := 0%nat;
     Server.assign_to_event_loop := true; Server.new_channel := Some c |}.

(** The system right after
    [aws_server_bootstrap_new_socket_listener] returned a listener, the
    state having been allocated at address 4096 and the listener lying 64
    bytes into it. *)
Definition listener_start : Listener.system :=
  {| Listener.base := 4096;
     Listener.args :=
       {| Server.destroy_callback := true; Server.on_protocol_negotiated := false;
          Server.user_on_data_read := false; Server.user_on_negotiation_result := false;
          Server.user_on_error := false; Server.use_tls := false;
          Server.listener_event_loop := Some 0%nat; Server.ref_count := 1 |};
     Listener.freed := false; Listener.accepting := true;
     Listener.destroy_called := false; Listener.destroy_tasks := [];
     Listener.conns := fun _ => None;
     Listener.log :=
       Listener.tag None
         [MemAcquire ObjServerArgs; BootstrapAcquire; ListenerInit; ListenerBind;
          ListenerListen 1024; ListenerStartAccept 0%nat] |}.

(** One connection is accepted, its channel is set up and later shut
    down. *)
Definition serve_one : list Listener.event :=
  [ Listener.ConnectionResult 0%nat 0 1%nat (accept_succeeds 5%nat) 0;
    Listener.ChannelSetupCompleted 0%nat 0 slots_succeed 0;
    Listener.ChannelShutdownCompleted 0%nat 0 ].

(** The listener is destroyed while a connection is open; the connection
    closes afterwards. *)
Definition destroy_then_close : list Listener.event :=
  [ Listener.ConnectionResult 0%nat 0 1%nat (accept_succeeds 5%nat) 0;
    Listener.ChannelSetupCompleted 0%nat 0 slots_succeed 0;
    Listener.DestroySocketListener 4160;
    Listener.ListenerDestroyTask;
    Listener.ChannelShutdownCompleted 0%nat 0 ].

End Examples.

(** ** Event sequences of the race *)

Module Scripts.

(** An [attempt_connection] task dispatched with the cancelled status. *)
Definition cancel : Race.event :=
  Race.AttemptConnection AWS_TASK_STATUS_CANCELED None false false 0.

(** Two attempts connect; the first to complete gets its channel, the
    second completes without error after it. *)
Definition late_success : list Race.event :=
  [ Race.AttemptConnection AWS_TASK_STATUS_RUN_READY (Some 1%nat) true true 0;
    Race.AttemptConnection AWS_TASK_STATUS_RUN_READY (Some 2%nat) true true 0;
    Race.ConnectionEstablished 1%nat 0%nat 0 true (Some 0%nat);
    Race.ConnectionEstablished 2%nat 0%nat 0 true None ].

(** For [n] resolved addresses, events after which the test
    [failed_count == addresses_count] has passed: as many cancelled tasks
    as the 8-bit [addresses_count] says, or a late success when it says
    none. *)
Definition early_gate (n : nat) : list Race.event :=
  if Z.of_nat n mod 256 =? 0 then late_success
  else repeat cancel (Z.to_nat (Z.of_nat n mod 256)).

End Scripts.

(** ** What holds in every state of a listener *)

Module ListenerInv.

Import Server.

(** What was delivered for a connection, by the phase the connection is
    in: nothing before the incoming callback is due; the channel, with
    error code 0, once the connection is live; and exactly one callback,
    the channel with error code 0 or an error with no channel, once the
    connection is closed. *)
Definition conn_ok (c : option Listener.conn) (delivered : list effect) : Prop :=
  match c with
  | None => delivered = []
  | Some {| Listener.phase := ph; Listener.data := d |} =>
      match ph with
      | Listener.SetupPending _ | Listener.Negotiating _ | Listener.ShuttingDown _ _ =>
          incoming_called d = false /\ delivered = []
      | Listener.Live c =>
          incoming_called d = true /\ delivered = [IncomingCallback AWS_OP_SUCCESS (Some c)]
      | Listener.Closed =>
          exists e ch, delivered = [IncomingCallback e ch] /\ (ch = None \/ e = 0)
      end
  end.

Definition incoming_of (id : nat) (s : Listener.system) : list effect :=
  filter is_incoming_callback (Listener.calls_of id (Listener.log s)).

Definition conn_inv (id : nat) (s : Listener.system) : Prop :=
  conn_ok (Listener.conns s id) (incoming_of id s).

(** The listener's state keeps its callbacks and its event loop; the
    destroy callback was invoked once if the state was released and a
    callback was supplied, and never otherwise; a released state has a
    reference count of 0; a scheduled destroy task carries the address of
    the state. *)
Definition lifetime_inv (destroy : bool) (loop : event_loop_ptr) (s : Listener.system) : Prop :=
  destroy_callback (Listener.args s) = destroy /\
  listener_event_loop (Listener.args s) = Some loop /\
  filter is_destroy_callback (Listener.all_calls (Listener.log s)) =
    (if Listener.freed s && destroy then [DestroyCallback] else []) /\
  (Listener.freed s = true -> ref_count (Listener.args s) = 0) /\
  (forall q, In q (Listener.destroy_tasks s) -> q = Listener.base s).

End ListenerInv.

(** ** More closed forms and views of a trace *)

Module MoreForms.

Import Client.

(** The calls of a trace into the user's setup and shutdown callbacks, in
    order. *)
Definition is_user_callback (e : effect) : bool :=
  is_setup_callback e || is_shutdown_callback e.

Definition user_callbacks (tr : list effect) : list effect := filter is_user_callback tr.

(** The last call of a trace. *)
Definition last_call (tr : list effect) : option effect :=
  match rev tr with
  | e :: _ => Some e
  | [] => None
  end.

(** Allocations and releases of socket memory, and releases of task
    structures. *)
Definition is_socket_memory (e : effect) : bool :=
  match e with
  | MemAcquire (ObjSocket _) | MemRelease (ObjSocket _) => true
  | _ => false
  end.

Definition is_task_free (e : effect) : bool :=
  match e with MemRelease (ObjTaskData _) => true | _ => false end.

Definition is_socket_clean_up (e : effect) : bool :=
  match e with SocketCleanUp _ => true | _ => false end.

Definition is_channel_data_memory (e : effect) : bool :=
  match e with
  | MemAcquire ObjChannelData | MemRelease ObjChannelData => true
  | _ => false
  end.

Definition is_bootstrap_reference (e : effect) : bool :=
  match e with BootstrapAcquire | BootstrapRelease => true | _ => false end.

Definition is_listener_clean_up (e : effect) : bool :=
  match e with ListenerCleanUp => true | _ => false end.

Definition is_tls_options_clean_up (e : effect) : bool :=
  match e with TlsOptionsCleanUp => true | _ => false end.

(** [m] run [n] times in a row. *)
Fixpoint repeat_call {S : Type} (n : nat) (m : M S unit) : M S unit :=
  match n with
  | O => ret tt
  | Datatypes.S n => m ;; repeat_call n m
  end.

(** How the construction of the slots of a client channel ends: the
    setup callback is delivered, the TLS negotiation was started and the
    callback is deferred to its result, or a call failed. *)
Definition client_setup_outcome (r : setup_results) (a : client_connection_args)
  : ServerForms.setup_outcome :=
  if ServerForms.socket_slot_ok r then
    if use_tls (channel_data a) then
      if ServerForms.tls_slot_ok r
         && (negb (on_protocol_negotiated (channel_data a)) || ServerForms.alpn_slot_ok r)
         && tls_start_negotiation r
      then ServerForms.Deferred else ServerForms.Failed
    else ServerForms.Delivered
  else ServerForms.Failed.

End MoreForms.

(** ** What holds in every state of a connection race *)

Module RaceInv.

Import Client MoreForms.

(** The channel of a race, while it exists. *)
Definition live_channel (p : Race.channel_phase) : option channel_ptr :=
  match p with
  | Race.SetupPending c | Race.Negotiating c | Race.Established c
  | Race.ShuttingDown c _ => Some c
  | Race.NoChannel | Race.Destroyed => None
  end.

(** The fields that decide which user callback a handler may invoke, and
    the fields a winning connection writes. *)
Definition flags (a : client_connection_args) : bool * bool :=
  (setup_called a, shutdown_callback a).

Definition choice (a : client_connection_args) : bool * option channel_ptr :=
  (connection_chosen a, channel (channel_data a)).

(** What a handler that started from [a] and ended in [a'] with the calls
    [tr] told the user: nothing ([None]), or the setup callback with an
    error code and a channel. *)
Definition delivered (d : option (Z * option channel_ptr))
    (a a' : client_connection_args) (tr : list effect) : Prop :=
  match d with
  | None => flags a' = flags a /\ user_callbacks tr = []
  | Some (e, ch) =>
      setup_called a = false /\
      flags a' = (true, negb (nonzero e) && shutdown_callback a) /\
      user_callbacks tr = [SetupCallback e ch]
  end.

(** The user callbacks of a race, in order, are nothing yet, the setup
    callback alone, or the setup callback with error code 0 followed by
    the shutdown callback.  A channel that was handed to the setup
    callback is alive as long as the shutdown callback has not been
    invoked. *)
Definition protocol_inv (s : Race.system) : Prop :=
  (user_callbacks (Race.log s) = [] /\ flags (Race.args s) = (false, true))
  \/
  (exists e ch,
     user_callbacks (Race.log s) = [SetupCallback e ch] /\
     flags (Race.args s) = (true, e =? 0) /\
     forall c, ch = Some c -> e = 0 /\ live_channel (Race.chan s) = Some c)
  \/
  (exists ch e' c,
     user_callbacks (Race.log s) = [SetupCallback 0 ch; ShutdownCallback e' (Some c)] /\
     (ch = None \/ ch = Some c) /\
     Race.chan s = Race.Destroyed /\ setup_called (Race.args s) = true).

(** A channel exists only for a chosen connection, and the state names
    it. *)
Definition channel_inv (s : Race.system) : Prop :=
  (Race.chan s <> Race.NoChannel -> connection_chosen (Race.args s) = true) /\
  (forall c, live_channel (Race.chan s) = Some c ->
             channel (channel_data (Race.args s)) = Some c).

(** References on the connection state: the one the state holds for
    itself until the setup callback is delivered, and one for every task
    that has not run, every connect in flight and the channel. *)
Definition pending (a : client_connection_args) : Z :=
  if setup_called a then 0 else 1.

Definition users (s : Race.system) : Z :=
  Z.of_nat (List.length (Race.scheduled s)) + Z.of_nat (List.length (Race.connecting s)) +
  match live_channel (Race.chan s) with Some _ => 1 | None => 0 end.

Definition holders (s : Race.system) : Z := pending (Race.args s) + users s.

(** A handler that started from [a] with enough references, and gives
    [own] of them back besides the one a delivery of the setup callback
    gives back: the count it leaves, and whether it freed the state. *)
Definition refs_ok (own : Z) (a a' : client_connection_args) (tr : list effect) : Prop :=
  pending a + own <= ref_count a < 2 ^ 32 ->
  pending a' <= pending a /\
  ref_count a' = ref_count a - (pending a - pending a') - own /\
  Race.args_freed tr = negb (ref_count a' =? ref_count a) && (ref_count a' =? 0).

(** The state is referenced by everything that will still use it, and it
    is freed only when nothing will. *)
Definition memory_inv (s : Race.system) : Prop :=
  if Race.freed s then holders s = 0 /\ Race.resolving s = false /\ ref_count (Race.args s) = 0
  else
    holders s <= ref_count (Race.args s) < 2 ^ 32 /\
    1 <= ref_count (Race.args s) /\
    (Race.resolving s = true ->
     ref_count (Race.args s) = 1 /\ setup_called (Race.args s) = false).

(** No resolution carries 2^32 - 2 addresses or more. *)
Definition bounded_event (ev : Race.event) : Prop :=
  match ev with
  | Race.HostResolved _ host_addresses _ _ _ =>
      Z.of_nat (List.length host_addresses) < 2 ^ 32 - 2
  | _ => True
  end.

End RaceInv.

(** ** More event sequences *)

Module MoreScripts.

(** Two addresses resolve; the first attempt connects and gets channel 5,
    whose setup completes; the second attempt fails; the channel is shut
    down. *)
Definition connect_and_close : list Race.event :=
  [ Race.HostResolved 0 Examples.two_addresses 7%nat Examples.every_allocation_succeeds 0;
    Race.AttemptConnection AWS_TASK_STATUS_RUN_READY (Some 1%nat) true true 0;
    Race.AttemptConnection AWS_TASK_STATUS_RUN_READY (Some 2%nat) true true 0;
    Race.ConnectionEstablished 1%nat 7%nat 0 true (Some 5%nat);
    Race.ChannelSetupCompleted 0 Examples.slots_succeed 0;
    Race.ConnectionEstablished 2%nat 7%nat 111 true None;
    Race.ChannelShutdownCompleted 0 ].

End MoreScripts.

(** ** When a race ends well *)

Module RaceProgress.

Import Client MoreForms RaceInv.

(** The conditions under which a race ends well: a resolution carries at
    most 255 addresses, and [aws_channel_new] does not fail for a
    connection that was established. *)
Definition well_behaved_event (ev : Race.event) : Prop :=
  match ev with
  | Race.HostResolved _ host_addresses _ _ _ => (List.length host_addresses <= 255)%nat
  | Race.ConnectionEstablished _ _ error_code _ new_channel =>
      error_code = 0 -> new_channel <> None
  | _ => True
  end.

(** Something will still deliver the setup callback: the resolution, the
    channel, or the last of the attempts that are outstanding. *)
Definition progress_inv (s : Race.system) : Prop :=
  setup_called (Race.args s) = true
  \/ (Race.resolving s = true /\ connection_chosen (Race.args s) = false /\
      failed_count (Race.args s) = 0 /\ Race.scheduled s = [] /\ Race.connecting s = [])
  \/ (exists c, live_channel (Race.chan s) = Some c)
  \/ (Race.resolving s = false /\ connection_chosen (Race.args s) = false /\
      failed_count (Race.args s) + Z.of_nat (Race.outstanding s) =
        addresses_count (Race.args s) /\
      addresses_count (Race.args s) <= 255 /\
      (1 <= Race.outstanding s)%nat /\ 0 <= failed_count (Race.args s)).

(** Every reference is accounted for. *)
Definition exact_inv (s : Race.system) : Prop :=
  Race.freed s = false -> ref_count (Race.args s) = holders s.

End RaceProgress.

(** ** What the user of a listener is told about each connection *)

Module ListenerProtocol.

Import Server.

(** The calls of a trace into the user's incoming and shutdown callbacks,
    in order. *)
Definition is_server_callback (e : effect) : bool :=
  is_incoming_callback e || is_server_shutdown_callback e.

Definition server_callbacks (tr : list effect) : list effect := filter is_server_callback tr.

Definition callbacks_of (id : nat) (s : Listener.system) : list effect :=
  server_callbacks (Listener.calls_of id (Listener.log s)).

(** By the phase a connection is in: nothing before the incoming callback
    is due; the incoming callback with its channel while the connection is
    live; and, once the connection is closed, either the incoming callback
    alone, with no channel, or the incoming callback with a channel
    followed by the shutdown callback for that channel. *)
Definition conn_protocol (c : option Listener.conn) (calls : list effect) : Prop :=
  match c with
  | None => calls = []
  | Some {| Listener.phase := ph; Listener.data := d |} =>
      match ph with
      | Listener.SetupPending _ | Listener.Negotiating _ | Listener.ShuttingDown _ _ =>
          incoming_called d = false /\ calls = []
      | Listener.Live c =>
          incoming_called d = true /\ calls = [IncomingCallback AWS_OP_SUCCESS (Some c)]
      | Listener.Closed =>
          (exists e, calls = [IncomingCallback e None]) \/
          (exists c e, calls = [IncomingCallback AWS_OP_SUCCESS (Some c);
                                ServerShutdownCallback e c])
      end
  end.

Definition protocol_inv (id : nat) (s : Listener.system) : Prop :=
  conn_protocol (Listener.conns s id) (callbacks_of id s).

End ListenerProtocol.

(** ** Who holds a reference on the state of a listener *)

Module ListenerMemory.

Import Server.

(** The connections among [ids] whose channel data is still allocated. *)
Definition count_open (m : nat -> option Listener.conn) (ids : list nat) : Z :=
  Z.of_nat (List.length (filter (fun id => Listener.is_open (m id)) ids)).

(** The listener's own reference, given back by [s_listener_destroy_task]. *)
Definition listener_ref (s : Listener.system) : Z :=
  if Listener.accepting s then 1 else 0.

Definition frees_of (s : Listener.system) : list effect :=
  filter is_server_args_free (Listener.all_calls (Listener.log s)).

Definition closes (ph : Listener.conn_phase) : bool :=
  match ph with Listener.Closed => true | _ => false end.

(** A callback that takes [delta] references on the state [a]. *)
Definition counted (delta : Z) (a a' : server_connection_args) (tr : list effect) : Prop :=
  a' = set_ref_count (ref_count a + delta) a /\
  filter is_server_args_free tr =
    (if ref_count a + delta =? 0 then [MemRelease ObjServerArgs] else []).

(** [ids] are the connections accepted so far.  The reference count is
    the number of open connections, and one more until the destroy task
    has run; the state is released when the count is 0, and freed once; a
    pending destroy task carries the address of the state, which still
    holds the listener's own reference. *)
Definition memory_inv (ids : list nat) (s : Listener.system) : Prop :=
  NoDup ids /\
  (forall id, In id ids <-> Listener.conns s id <> None) /\
  ref_count (Listener.args s) = listener_ref s + count_open (Listener.conns s) ids /\
  Listener.freed s = (ref_count (Listener.args s) =? 0) /\
  frees_of s = (if Listener.freed s then [MemRelease ObjServerArgs] else []) /\
  match Listener.destroy_tasks s with
  | [] => Listener.accepting s = false -> Listener.destroy_called s = true
  | q :: rest =>
      q = Listener.base s /\ rest = [] /\ Listener.accepting s = true /\
      Listener.destroy_called s = true
  end.

End ListenerMemory.

(** ** The count of failed attempts, while it does not wrap *)

Module RaceTally.

Import Client RaceInv.





End RaceTally.

(** ** Races with TLS, and races after a long resolution *)

Module TallyExamples.






End TallyExamples.

(** * Proofs *)

(** ** Laws of the monad, for running a translated function step by step *)

Section Laws.

Context {S A B : Type}.

Lemma bind_run (m : M S A) (k : A -> M S B) s a s1 w :
  m s = (a, s1, w) -> bind m k s = emit w (k a s1).
Proof. intros H. unfold bind, emit. rewrite H. reflexivity. Qed.

Lemma bind_gets (f : S -> A) (k : A -> M S B) s : bind (gets f) k s = k (f s) s.
Proof. unfold bind, gets. cbn. destruct (k (f s) s) as [[? ?] ?]. reflexivity. Qed.

Lemma bind_ret (x : A) (k : A -> M S B) s : bind (ret x) k s = k x s.
Proof. unfold bind, ret. cbn. destruct (k x s) as [[? ?] ?]. reflexivity. Qed.

Lemma bind_modify (g : S -> S) (k : unit -> M S B) s : bind (modify g) k s = k tt (g s).
Proof. unfold bind, modify. cbn. destruct (k tt (g s)) as [[? ?] ?]. reflexivity. Qed.

Lemma bind_call e (k : unit -> M S B) s : bind (call e) k s = emit [e] (k tt s).
Proof. reflexivity. Qed.

Lemma bind_when b (m : M S unit) (k : unit -> M S B) s :
  bind (when b m) k s = if b then bind m k s else k tt s.
Proof.
  destruct b; [reflexivity|].
  unfold when, bind, ret. cbn. destruct (k tt s) as [[? ?] ?]. reflexivity.
Qed.

Lemma bind_if (b : bool) (m1 m2 : M S A) (k : A -> M S B) s :
  bind (if b then m1 else m2) k s = if b then bind m1 k s else bind m2 k s.
Proof. destruct b; reflexivity. Qed.

Lemma bind_bind {C} (m : M S A) (f : A -> M S B) (k : B -> M S C) s :
  bind (bind m f) k s = bind m (fun x => bind (f x) k) s.
Proof. unfold bind. cbn. rewrite app_assoc. reflexivity. Qed.

Lemma run_if (b : bool) (m1 m2 : M S A) s :
  (if b then m1 else m2) s = if b then m1 s else m2 s.
Proof. destruct b; reflexivity. Qed.

Lemma run_when b (m : M S unit) s : when b m s = if b then m s else (tt, s, []).
Proof. destruct b; reflexivity. Qed.

Lemma run_call e (s : S) : call e s = (tt, s, [e]).
Proof. reflexivity. Qed.

Lemma run_ret (x : A) (s : S) : ret x s = (x, s, []).
Proof. reflexivity. Qed.

Lemma emit_if w (b : bool) (x y : A * S * list effect) :
  emit w (if b then x else y) = if b then emit w x else emit w y.
Proof. destruct b; reflexivity. Qed.

Lemma emit_triple w (a : A) (s : S) w' : emit w (a, s, w') = (a, s, w ++ w').
Proof. reflexivity. Qed.

End Laws.

Create HintDb run discriminated.

Ltac mstep :=
  first [ rewrite bind_bind | rewrite bind_gets | rewrite bind_modify | rewrite bind_call
        | rewrite bind_ret | rewrite bind_when | rewrite bind_if
        | erewrite bind_run by (solve [eauto with run])
        | rewrite run_when | rewrite run_if | rewrite run_call | rewrite run_ret
        | rewrite emit_if | rewrite emit_triple ].

Ltac mrun := repeat mstep.

Lemma count_app p (a b : list effect) : count p (a ++ b) = (count p a + count p b)%nat.
Proof. unfold count. rewrite List.filter_app, List.length_app. reflexivity. Qed.

Lemma count_cons p e (l : list effect) :
  count p (e :: l) = ((if p e then 1 else 0) + count p l)%nat.
Proof. unfold count. cbn. destruct (p e); reflexivity. Qed.

Lemma count_nil p : count p [] = 0%nat.
Proof. reflexivity. Qed.

(** ** The client callbacks compute their closed forms *)

Module ClientRuns.

Import Client ClientForms.

Lemma acquire_run a :
  s_client_connection_args_acquire a = (tt, acquired a, acquire_calls a).
Proof.
  unfold s_client_connection_args_acquire, acquired, acquire_calls. mrun.
  destruct (ref_count a =? 0); reflexivity.
Qed.

Lemma release_run a :
  s_client_connection_args_release a = (tt, released a, release_calls a).
Proof.
  unfold s_client_connection_args_release, release_calls, released. mrun.
  cbn [ref_count set_ref_count host_name channel_data].
  destruct (uint32_t (ref_count a - 1) =? 0); [|reflexivity].
  destruct (is_some (host_name a)), (use_tls (channel_data a)); reflexivity.
Qed.

#[export] Hint Resolve acquire_run release_run : run.

Lemma setup_callback_run e ch a :
  s_connection_args_setup_callback e ch a = (tt, setup_state e a, setup_calls e ch a).
Proof.
  unfold s_connection_args_setup_callback, setup_state, setup_calls, marked. mrun.
  destruct (setup_called a), (nonzero e); cbn [negb]; try reflexivity.
  all: rewrite release_run; reflexivity.
Qed.

#[export] Hint Resolve setup_callback_run : run.

Lemma shutdown_callback_run unknown e ch a :
  s_connection_args_shutdown_callback unknown e ch a =
  (tt, shutdown_state unknown e a, shutdown_calls unknown e ch a).
Proof.
  unfold s_connection_args_shutdown_callback, shutdown_state, shutdown_calls, or_unknown. mrun.
  destruct (setup_called a); cbn [negb].
  - destruct (shutdown_callback a); reflexivity.
  - apply setup_callback_run.
Qed.

#[export] Hint Resolve shutdown_callback_run : run.

Lemma negotiation_result_run c e a :
  s_tls_client_on_negotiation_result c e a =
  (tt, negotiation_state e a, negotiation_calls c e a).
Proof.
  unfold s_tls_client_on_negotiation_result, negotiation_state, negotiation_calls. mrun.
  destruct (user_on_negotiation_result (channel_data a)), (nonzero e); mrun;
    try reflexivity; rewrite setup_callback_run; reflexivity.
Qed.

Lemma socket_clean_up_and_free_run s a :
  socket_clean_up_and_free s a = (tt, a, socket_calls s).
Proof. destruct s; reflexivity. Qed.

#[export] Hint Resolve socket_clean_up_and_free_run : run.

Lemma on_shutdown_run unknown c e a :
  s_on_client_channel_on_shutdown unknown c e a =
  (tt, on_shutdown_state unknown e a, on_shutdown_calls unknown c e a).
Proof.
  unfold s_on_client_channel_on_shutdown, on_shutdown_state, on_shutdown_calls. mrun.
  rewrite release_run. reflexivity.
Qed.

Lemma bind_gate {B} e (m : CM B) a :
  (last <- last_attempt_failed ;; when last (s_connection_args_setup_callback e None) ;; m) a =
  emit (gate_calls e a) (m (gate e a)).
Proof.
  unfold last_attempt_failed, gate, gate_calls, gate_open. rewrite bind_gets, bind_when.
  destruct (failed_count a =? addresses_count a).
  - erewrite bind_run by apply setup_callback_run. reflexivity.
  - unfold emit. cbn. destruct (m a) as [[? ?] ?]. reflexivity.
Qed.

Lemma gate_run e a :
  (last <- last_attempt_failed ;; when last (s_connection_args_setup_callback e None)) a =
  (tt, gate e a, gate_calls e a).
Proof.
  unfold last_attempt_failed, gate, gate_calls, gate_open. mrun.
  destruct (failed_count a =? addresses_count a); [|reflexivity].
  apply setup_callback_run.
Qed.

Ltac crun := repeat first [ rewrite bind_gate; cbv beta | rewrite gate_run | mstep ].

Lemma incr_run a : incr_failed_count a = (tt, incr a, []).
Proof. reflexivity. Qed.

#[export] Hint Resolve incr_run : run.


Lemma established_run sk addr loop e copy nc a :
  s_on_client_connection_established sk addr loop e copy nc a =
  (tt, established_state sk e nc a, established_calls sk addr loop e copy nc a).
Proof.
  unfold s_on_client_connection_established, established_state, established_calls,
    gives_up, lost_state, lost_calls, won_state, won_calls, record_calls, counted.
  rewrite bind_when.
  destruct (nonzero e) eqn:He; cbn [orb].
  - crun. cbn [orb connection_chosen incr set_failed_count outgoing_options].
    destruct (negb (is_local (opt_domain (outgoing_options a)))); cbn [andb]; crun.
    + destruct copy; crun; rewrite release_run; reflexivity.
    + rewrite release_run; reflexivity.
  - crun. destruct (connection_chosen a); crun.
    + rewrite andb_false_r. crun. rewrite release_run. reflexivity.
    + destruct nc; crun; reflexivity.
Qed.

Lemma cleanup_task_run td a : cleanup_task td a = (tt, a, cleanup_calls td).
Proof. reflexivity. Qed.

#[export] Hint Resolve cleanup_task_run : run.

Lemma task_cancelled_run td e a :
  task_cancelled td e a = (tt, failed_state e a, failed_calls td e a).
Proof.
  unfold task_cancelled, failed_state, failed_calls. crun. reflexivity.
Qed.

Lemma attempt_connection_run td status sock init conn last_error a :
  s_attempt_connection td status sock init conn last_error a =
  (tt, attempt_state status sock init conn last_error a,
   attempt_calls td status sock init conn last_error a).
Proof.
  unfold s_attempt_connection, attempt_state, attempt_calls, attempt_connects,
    attempt_error, attempt_socket_calls, socket_connect_failed, socket_init_failed,
    socket_alloc_failed.
  destruct status; cbn [is_run_ready negb andb].
  - destruct sock as [s|]; cbn [is_some andb].
    + mrun. destruct init; cbn [negb andb]; mrun.
      * destruct conn; cbn [negb]; mrun; [reflexivity|].
        rewrite task_cancelled_run. reflexivity.
      * rewrite task_cancelled_run. reflexivity.
    + apply task_cancelled_run.
  - apply task_cancelled_run.
Qed.

Lemma free_tasks_run tasks a : free_tasks tasks a = (tt, a, free_calls tasks).
Proof.
  induction tasks as [|[td|] rest IH]; cbn [free_tasks free_calls flat_map task_object].
  - reflexivity.
  - mrun. rewrite IH. reflexivity.
  - exact IH.
Qed.

Lemma allocate_tasks_run alloc port o loop addrs :
  forall i tasks a,
    allocate_tasks alloc port o loop i addrs tasks a =
    (allocated alloc port o loop i addrs tasks, a, allocate_calls alloc i addrs).
Proof.
  induction addrs as [|h rest IH]; intros i tasks a;
    cbn [allocate_tasks allocated allocate_calls].
  - reflexivity.
  - destruct (alloc i); mrun; try reflexivity.
    rewrite IH. reflexivity.
Qed.

Lemma schedule_tasks_run loop tasks :
  forall a,
    schedule_tasks loop tasks a =
    (tt, acquired_n (List.length tasks) a, schedule_calls loop tasks a).
Proof.
  induction tasks as [|td rest IH]; intros a;
    cbn [schedule_tasks acquired_n schedule_calls List.length].
  - reflexivity.
  - mrun. rewrite IH. reflexivity.
Qed.

#[export] Hint Resolve free_tasks_run allocate_tasks_run schedule_tasks_run : run.

Lemma host_resolved_failed_run e addrs loop alloc last_error a :
  nonzero e = true ->
  s_on_host_resolved e addrs loop alloc last_error a =
  ([], setup_state e a, setup_calls e None a).
Proof.
  intros He. unfold s_on_host_resolved. rewrite He. mrun. cbn. rewrite app_nil_r. reflexivity.
Qed.

Lemma host_resolved_run e addrs loop alloc last_error a :
  nonzero e = false -> addrs <> [] ->
  s_on_host_resolved e addrs loop alloc last_error a =
  let a1 := counted_addresses addrs a in
  match allocated alloc (outgoing_port a) (outgoing_options a) loop 0 addrs [] with
  | inl tasks =>
      ([], setup_state last_error a1,
       allocate_calls alloc 0 addrs ++ free_calls tasks ++ setup_calls last_error None a1)
  | inr tasks =>
      (tasks, acquired_n (List.length tasks) a1,
       allocate_calls alloc 0 addrs ++ schedule_calls loop tasks a1)
  end.
Proof.
  intros He Hne. unfold s_on_host_resolved. rewrite He.
  assert (Hlen : (0 <? Z.of_nat (List.length addrs)) = true).
  { apply Z.ltb_lt. destruct addrs; [congruence|]. cbn [List.length]. lia. }
  rewrite Hlen. cbn [negb]. mrun.
  cbn [outgoing_port outgoing_options set_addresses_count].
  fold (counted_addresses addrs a).
  destruct (allocated alloc (outgoing_port a) (outgoing_options a) loop 0 addrs []); mrun.
  - cbn. rewrite app_nil_r. reflexivity.
  - cbn. rewrite app_nil_r. reflexivity.
Qed.

End ClientRuns.

(** ** The server callbacks compute their closed forms *)

Module ServerRuns.

Import Server ServerForms.

Lemma server_acquire_run a :
  s_server_connection_args_acquire a = (tt, acquired a, acquire_calls a).
Proof.
  unfold s_server_connection_args_acquire, acquired, acquire_calls. mrun.
  destruct (ref_count a =? 0); reflexivity.
Qed.

Lemma server_release_run a :
  s_server_connection_args_release a = (tt, released a, release_calls a).
Proof.
  unfold s_server_connection_args_release, release_calls, released. mrun.
  cbn [destroy_callback use_tls set_ref_count].
  destruct (ref_count a =? 1); [|reflexivity].
  destruct (destroy_callback a), (use_tls a); reflexivity.
Qed.

#[export] Hint Resolve server_acquire_run server_release_run : run.

Lemma on_args_run {A} (m : SM A) s x a' w :
  m (fst s) = (x, a', w) -> on_args m s = (x, (a', snd s), w).
Proof. intros H. unfold on_args. rewrite H. reflexivity. Qed.

Lemma on_args_release_run s :
  on_args s_server_connection_args_release s =
  (tt, (released (fst s), snd s), release_calls (fst s)).
Proof. apply on_args_run, server_release_run. Qed.

Lemma incoming_run e ch s :
  s_server_incoming_callback e ch s =
  (tt, (fst s, set_incoming_called true (snd s)), [IncomingCallback e ch]).
Proof. reflexivity. Qed.

#[export] Hint Resolve on_args_release_run incoming_run : run.

Lemma server_negotiation_result_run c e a d :
  s_tls_server_on_negotiation_result c e (a, d) =
  (tt, negotiation_state e a d, negotiation_calls c e a).
Proof.
  unfold s_tls_server_on_negotiation_result, negotiation_state, negotiation_calls. mrun.
  cbn [fst snd].
  destruct (user_on_negotiation_result a), (nonzero e); mrun; reflexivity.
Qed.

Lemma server_on_shutdown_run unknown c e a d :
  s_on_server_channel_on_shutdown unknown c e (a, d) =
  (tt, on_shutdown_state a d, on_shutdown_calls unknown c e a d).
Proof.
  unfold s_on_server_channel_on_shutdown, on_shutdown_state, on_shutdown_calls,
    socket_calls, or_unknown.
  rewrite bind_gets. cbn [snd].
  destruct (incoming_called d); cbn [negb]; mrun; cbn [fst snd socket set_incoming_called].
  all: reflexivity.
Qed.

Lemma setup_failed_run c e r last_error a d :
  nonzero e = true ->
  s_on_server_channel_on_setup_completed c e r last_error (a, d) =
  (tt, setup_failed_state a d, setup_failed_calls c e a d).
Proof.
  intros He. unfold s_on_server_channel_on_setup_completed. rewrite He.
  unfold setup_failed_state, setup_failed_calls, socket_calls. mrun.
  rewrite on_args_release_run. reflexivity.
Qed.

Lemma setup_server_tls_run r a d :
  exists slots,
    forallb is_slot_call slots = true /\
    s_setup_server_tls r (a, d) =
    ((if tls_slot_ok r && (negb (on_protocol_negotiated a) || alpn_slot_ok r)
      then AWS_OP_SUCCESS else AWS_OP_ERR), (a, d), slots).
Proof.
  unfold s_setup_server_tls, tls_slot_ok, alpn_slot_ok.
  destruct (tls_slot_new r), (tls_handler_new r), (tls_set_handler r),
    (on_protocol_negotiated a) eqn:Hpn, (alpn_slot_new r), (alpn_handler_new r),
    (alpn_set_handler r); cbn [negb andb orb];
    (eexists; split; [| mrun; cbn [fst]; rewrite ?Hpn; mrun; reflexivity]; reflexivity).
Qed.

Lemma setup_ok_run c e r last_error a d :
  nonzero e = false ->
  exists slots,
    forallb is_slot_call slots = true /\
    s_on_server_channel_on_setup_completed c e r last_error (a, d) =
    match server_setup_outcome r a with
    | Delivered =>
        (tt, (a, set_incoming_called true d), slots ++ [IncomingCallback AWS_OP_SUCCESS (Some c)])
    | Deferred => (tt, (a, d), slots)
    | Failed => (tt, (a, d), slots ++ [ChannelShutdown c last_error])
    end.
Proof.
  intros He. unfold s_on_server_channel_on_setup_completed, server_setup_outcome,
    socket_slot_ok, setup_completed_error. rewrite He.
  destruct (socket_slot_new r); cbn [negb andb].
  2: { exists [SlotNew "socket"]. split; [reflexivity|]. mrun. reflexivity. }
  destruct (socket_handler_new r); cbn [negb andb].
  2: { exists [SlotNew "socket"; SlotRemove "socket"]. split; [reflexivity|]. mrun. reflexivity. }
  destruct (socket_set_handler r); cbn [negb andb].
  2: { exists [SlotNew "socket"; SlotSetHandler "socket"]. split; [reflexivity|].
       mrun. reflexivity. }
  destruct (use_tls a) eqn:Htls.
  - destruct (setup_server_tls_run r a d) as (slots & Hs & Hrun).
    exists ([SlotNew "socket"; SlotSetHandler "socket"] ++ slots). split.
    { rewrite forallb_app, Hs. reflexivity. }
    mrun. cbn [fst]. rewrite Htls.
    destruct (tls_slot_ok r && (negb (on_protocol_negotiated a) || alpn_slot_ok r));
      cbn; rewrite ?app_nil_r; reflexivity.
  - exists [SlotNew "socket"; SlotSetHandler "socket"]. split; [reflexivity|].
    mrun. cbn [fst]. rewrite Htls. reflexivity.
Qed.

Lemma listener_destroy_task_run a :
  s_listener_destroy_task a =
  (tt, released a, [ListenerStopAccept; ListenerCleanUp] ++ release_calls a).
Proof. unfold s_listener_destroy_task. mrun. rewrite server_release_run. reflexivity. Qed.

Lemma filter_slots p slots :
  (forall e, is_slot_call e = true -> p e = false) ->
  forallb is_slot_call slots = true -> filter p slots = [].
Proof.
  intros Hp. induction slots as [|x slots IH]; intros H; [reflexivity|].
  cbn in H. apply andb_prop in H. destruct H as [Hx Hs].
  cbn. rewrite (Hp x Hx). exact (IH Hs).
Qed.

Lemma filter_accept_calls p l :
  (forall e, is_accept_call e = true -> p e = false) ->
  forallb is_accept_call l = true -> filter p l = [].
Proof.
  intros Hp. induction l as [|x l IH]; intros H; [reflexivity|].
  cbn in H. apply andb_prop in H. destruct H as [Hx Hs].
  cbn. rewrite (Hp x Hx). exact (IH Hs).
Qed.

Lemma error_cleanup_run new_socket last_error a :
  error_cleanup new_socket last_error a =
  (tt, released a,
   [IncomingCallback last_error None; SocketCleanUp new_socket;
    MemRelease (ObjSocket new_socket)] ++ release_calls a).
Proof. unfold error_cleanup. mrun. rewrite server_release_run. reflexivity. Qed.

#[export] Hint Resolve error_cleanup_run : run.

(** [s_on_server_connection_result]: either a channel is created over the
    accepted socket and nothing is delivered, or the incoming callback is
    delivered once, with the error and no channel, and the reference just
    taken is given back. *)
Lemma connection_result_run e new_socket r last_error a :
  exists pre post,
    forallb is_accept_call pre = true /\ forallb is_accept_call post = true /\
    s_on_server_connection_result e new_socket r last_error a =
    if accept_ok e r then
      (match new_channel r with
       | Some c => Some {| channel := Some c; socket := new_socket; incoming_called := false |}
       | None => None
       end, acquired a, acquire_calls a ++ pre)
    else
      (None, released (acquired a),
       acquire_calls a ++ pre ++ [IncomingCallback (accept_error e last_error) None] ++ post ++
       release_calls (acquired a)).
Proof.
  unfold s_on_server_connection_result, accept_ok, accept_error.
  destruct (nonzero e) eqn:He; cbn [negb andb].
  - exists [], []. split; [reflexivity|]. split; [reflexivity|].
    mrun. cbn [app]. rewrite ?app_nil_r. reflexivity.
  - destruct (channel_data_alloc r); cbn [negb andb].
    2: { exists [], [SocketCleanUp new_socket; MemRelease (ObjSocket new_socket)].
         split; [reflexivity|]. split; [reflexivity|]. mrun.
         cbn [app]; rewrite ?app_nil_r; rewrite <- ?app_assoc; reflexivity. }
    destruct (assign_to_event_loop r); cbn [negb andb].
    2: { exists [MemAcquire ObjChannelData;
                 SocketAssignToEventLoop new_socket (event_loop r);
                 MemRelease ObjChannelData],
           [SocketCleanUp new_socket; MemRelease (ObjSocket new_socket)].
         split; [reflexivity|]. split; [reflexivity|]. mrun.
         cbn [app]; rewrite ?app_nil_r; rewrite <- ?app_assoc; reflexivity. }
    destruct (new_channel r) as [c|]; cbn [is_some_channel].
    + exists [MemAcquire ObjChannelData;
              SocketAssignToEventLoop new_socket (event_loop r);
              ChannelNew c (event_loop r)], [].
      split; [reflexivity|]. split; [reflexivity|]. mrun.
         cbn [app]; rewrite ?app_nil_r; rewrite <- ?app_assoc; reflexivity.
    + exists [MemAcquire ObjChannelData;
              SocketAssignToEventLoop new_socket (event_loop r);
              MemRelease ObjChannelData],
        [SocketCleanUp new_socket; MemRelease (ObjSocket new_socket)].
      split; [reflexivity|]. split; [reflexivity|]. mrun.
         cbn [app]; rewrite ?app_nil_r; rewrite <- ?app_assoc; reflexivity.
Qed.

End ServerRuns.

(** ** Calls that are not user callbacks *)

Module Quiet.

Lemma client_release p a :
  p BootstrapRelease = false -> p HostNameDestroy = false ->
  p TlsOptionsCleanUp = false -> p (MemRelease ObjClientArgs) = false ->
  filter p (ClientForms.release_calls a) = [].
Proof.
  intros H1 H2 H3 H4. unfold ClientForms.release_calls.
  destruct (uint32_t (Client.ref_count a - 1) =? 0); [|reflexivity].
  destruct (Client.is_some (Client.host_name a)), (Client.use_tls (Client.channel_data a));
    cbn; rewrite ?H1, ?H2, ?H3, ?H4; reflexivity.
Qed.

Lemma client_socket p s :
  (forall s, p (SocketCleanUp s) = false) -> (forall o, p (MemRelease o) = false) ->
  filter p (ClientForms.socket_calls s) = [].
Proof. intros H1 H2. destruct s; cbn; rewrite ?H1, ?H2; reflexivity. Qed.

Lemma server_release p a :
  p DestroyCallback = false -> p BootstrapRelease = false ->
  p TlsOptionsCleanUp = false -> p (MemRelease ObjServerArgs) = false ->
  filter p (ServerForms.release_calls a) = [].
Proof.
  intros H0 H1 H3 H4. unfold ServerForms.release_calls.
  destruct (Server.ref_count a =? 1); [|reflexivity].
  destruct (Server.destroy_callback a), (Server.use_tls a);
    cbn; rewrite ?H0, ?H1, ?H3, ?H4; reflexivity.
Qed.

Lemma client_setup_calls p e ch a :
  p BootstrapRelease = false -> p HostNameDestroy = false ->
  p TlsOptionsCleanUp = false -> p (MemRelease ObjClientArgs) = false ->
  p (SetupCallback e ch) = false ->
  filter p (ClientForms.setup_calls e ch a) = [].
Proof.
  intros H1 H2 H3 H4 H5. unfold ClientForms.setup_calls.
  destruct (Client.setup_called a); [reflexivity|].
  cbn [filter]. rewrite H5. apply client_release; assumption.
Qed.

Lemma client_gate p e a :
  p BootstrapRelease = false -> p HostNameDestroy = false ->
  p TlsOptionsCleanUp = false -> p (MemRelease ObjClientArgs) = false ->
  p (SetupCallback e None) = false ->
  filter p (ClientForms.gate_calls e a) = [].
Proof.
  intros. unfold ClientForms.gate_calls.
  destruct (ClientForms.gate_open a); [|reflexivity].
  apply client_setup_calls; assumption.
Qed.

Lemma client_record p addr e copy a :
  (forall x y, p (RecordConnectionFailure x y) = false) ->
  filter p (ClientForms.record_calls addr e copy a) = [].
Proof.
  intros H. unfold ClientForms.record_calls.
  destruct (_ && _); [|reflexivity].
  destruct copy; [|reflexivity]. cbn. rewrite H. reflexivity.
Qed.

Lemma channel_created tr : filter is_channel_new tr = [] -> Race.channel_created tr = None.
Proof.
  induction tr as [|x tr IH]; [reflexivity|].
  destruct x; cbn; try exact IH. discriminate.
Qed.

Lemma shutdown_requested tr :
  filter is_channel_shutdown tr = [] -> Race.shutdown_requested tr = None.
Proof.
  induction tr as [|x tr IH]; [reflexivity|].
  destruct x; cbn; try exact IH. discriminate.
Qed.

Lemma listener_shutdown_requested tr :
  filter is_channel_shutdown tr = [] -> Listener.shutdown_requested tr = None.
Proof.
  induction tr as [|x tr IH]; [reflexivity|].
  destruct x; cbn; try exact IH. discriminate.
Qed.

End Quiet.

Ltac quiet :=
  rewrite ?Quiet.client_release, ?Quiet.client_socket, ?Quiet.server_release,
    ?Quiet.client_setup_calls, ?Quiet.client_gate, ?Quiet.client_record
    by (intros; reflexivity).

Section ClientClaims.

Import Client ClientForms ClientRuns.

Variable AWS_ERROR_UNKNOWN : Z.

Lemma or_unknown_eqb e :
  or_unknown AWS_ERROR_UNKNOWN e = if e =? 0 then AWS_ERROR_UNKNOWN else e.
Proof. unfold or_unknown, nonzero. destruct (e =? 0); reflexivity. Qed.

(** The user callbacks a client channel shutdown makes before setup was
    delivered. *)
Lemma client_shutdown_before_setup c e a :
  setup_called a = false ->
  filter is_setup_callback (trace (s_on_client_channel_on_shutdown AWS_ERROR_UNKNOWN c e a)) =
    [SetupCallback (if e =? 0 then AWS_ERROR_UNKNOWN else e) None] /\
  filter is_shutdown_callback (trace (s_on_client_channel_on_shutdown AWS_ERROR_UNKNOWN c e a)) = [].
Proof.
  intros Hs. rewrite on_shutdown_run. cbn [trace snd].
  unfold on_shutdown_calls, shutdown_calls, shutdown_state, setup_calls, setup_state.
  rewrite Hs, or_unknown_eqb.
  split; rewrite !filter_app; cbn [filter is_setup_callback is_shutdown_callback];
    rewrite !filter_app; quiet; reflexivity.
Qed.


Lemma filter_setup_gate_calls e a :
  filter is_setup_callback (gate_calls e a) =
  if gate_open a && negb (setup_called a) then [SetupCallback e None] else [].
Proof.
  unfold gate_calls, setup_calls.
  destruct (gate_open a); [|reflexivity].
  destruct (setup_called a); [reflexivity|].
  cbn. quiet. reflexivity.
Qed.

Lemma ref_count_released a : ref_count (released a) = uint32_t (ref_count a - 1).
Proof. reflexivity. Qed.

Lemma ref_count_marked e a : ref_count (marked e a) = ref_count a.
Proof. unfold marked. destruct (nonzero e); reflexivity. Qed.

Lemma uint32_twice x : uint32_t (uint32_t (x - 1) - 1) = uint32_t (x - 2).
Proof.
  unfold uint32_t. rewrite Zminus_mod_idemp_l. f_equal. lia.
Qed.

Lemma ref_count_gate e a :
  ref_count (gate e a) =
  if gate_open a && negb (setup_called a) then uint32_t (ref_count a - 1) else ref_count a.
Proof.
  unfold gate, setup_state.
  destruct (gate_open a); [|reflexivity].
  destruct (setup_called a); [reflexivity|].
  cbn [andb negb]. rewrite ref_count_released, ref_count_marked. reflexivity.
Qed.

Lemma failed_count_released a : failed_count (released a) = failed_count a.
Proof. reflexivity. Qed.

Lemma failed_count_marked e a : failed_count (marked e a) = failed_count a.
Proof. unfold marked. destruct (nonzero e); reflexivity. Qed.

Lemma failed_count_gate e a : failed_count (gate e a) = failed_count a.
Proof.
  unfold gate, setup_state. destruct (gate_open a); [|reflexivity].
  destruct (setup_called a); [reflexivity|].
  rewrite failed_count_released, failed_count_marked. reflexivity.
Qed.

Lemma counted_fields e a :
  ref_count (counted e a) = ref_count a /\
  setup_called (counted e a) = setup_called a /\
  addresses_count (counted e a) = addresses_count a /\
  failed_count (counted e a) = if e =? 0 then failed_count a else uint8_t (failed_count a + 1).
Proof.
  unfold counted, nonzero. destruct (e =? 0); cbn; auto.
Qed.

(** C2, as the code has it: when a connection completes with a nonzero
    error, or after a connection was chosen, the handler records the
    address with the resolver exactly when the domain is not local, the
    error is nonzero and the address could be copied; it closes, cleans up
    and frees the socket; it increments [failed_count] (modulo 256) when
    the error is nonzero and leaves it unchanged otherwise; it delivers the
    setup callback, with the error and no channel, exactly when
    [failed_count] then equals [addresses_count] and setup was not
    delivered before; it creates no channel; and it releases one reference
    for the attempt, after the one a delivery of setup releases. *)
Theorem C2_connection_given_up
    (sk : socket_ptr) (remote_address : string) (loop : event_loop_ptr) (e : Z)
    (address_copy : bool) (nc : option channel_ptr) (a : client_connection_args) :
  e <> 0 \/ connection_chosen a = true ->
  let r := s_on_client_connection_established sk remote_address loop e address_copy nc a in
  filter is_record_failure (trace r) =
    (if negb (is_local (opt_domain (outgoing_options a))) && negb (e =? 0) && address_copy
     then [RecordConnectionFailure remote_address
             (if is_ipv6 (opt_domain (outgoing_options a))
              then AWS_ADDRESS_RECORD_TYPE_AAAA else AWS_ADDRESS_RECORD_TYPE_A)]
     else []) /\
  (exists before after,
     trace r = before ++ [SocketClose sk; SocketCleanUp sk; MemRelease (ObjSocket sk)] ++ after) /\
  failed_count (state r) = (if e =? 0 then failed_count a else uint8_t (failed_count a + 1)) /\
  filter is_setup_callback (trace r) =
    (if setup_due e a then [SetupCallback e None] else []) /\
  Race.channel_created (trace r) = None /\
  ref_count (state r) = uint32_t (ref_count a - (if setup_due e a then 2 else 1)).
Proof.
  intros Hlost r. subst r. rewrite established_run. cbn [trace state fst snd].
  assert (Hg : gives_up e a = true).
  { unfold gives_up, nonzero. destruct Hlost as [He | Hc].
    - apply Z.eqb_neq in He. rewrite He. reflexivity.
    - rewrite Hc. apply orb_true_r. }
  unfold established_state, established_calls. rewrite Hg.
  unfold lost_state, lost_calls, setup_due.
  destruct (counted_fields e a) as (Hrc & Hsc & Hac & Hfc).
  split; [|split; [|split; [|split; [|split]]]].
  - rewrite !filter_app. cbn [filter is_record_failure]. quiet.
    rewrite app_nil_r. unfold record_calls, nonzero.
    destruct (negb (is_local _)), (e =? 0), address_copy; reflexivity.
  - exists (record_calls remote_address e address_copy a),
      (gate_calls e (counted e a) ++ release_calls (gate e (counted e a))).
    reflexivity.
  - rewrite failed_count_released, failed_count_gate. exact Hfc.
  - rewrite !filter_app. cbn [filter is_setup_callback].
    rewrite filter_setup_gate_calls, Hsc. quiet. rewrite app_nil_r. reflexivity.
  - apply Quiet.channel_created.
    rewrite !filter_app. cbn [filter is_channel_new]. quiet. reflexivity.
  - rewrite ref_count_released, ref_count_gate, Hsc, Hrc.
    destruct (gate_open (counted e a) && negb (setup_called a)).
    + apply uint32_twice.
    + reflexivity.
Qed.



End ClientClaims.

Lemma Z_discr_5 : 5 <> 0.
Proof. discriminate. Defined.

(** C2 at a concrete input: the second of two attempts fails with error 5
    after the first one failed. *)
Lemma C2_connection_given_up_witness :
  filter is_setup_callback
    (trace (Client.s_on_client_connection_established 2%nat "10.0.0.2" 7%nat 5 true None
              Examples.one_left)) =
  [SetupCallback 5 None].
Proof.
  exact (proj1 (proj2 (proj2 (proj2
    (C2_connection_given_up 2%nat "10.0.0.2" 7%nat 5 true None Examples.one_left
       (or_introl Z_discr_5)))))).
Defined.

(** The claim behind C2 says that [failed_count] is incremented whenever the
    socket is given up.  A connection that completes without error after
    another one was chosen is given up, no address is recorded, and
    [failed_count] stays what it was. *)
Lemma C2_late_success_is_not_counted :
  Client.connection_chosen Examples.won = true /\
  Client.failed_count Examples.won = 0 /\
  Client.failed_count
    (state (Client.s_on_client_connection_established 2%nat "10.0.0.2" 7%nat 0 true None
              Examples.won)) = 0 /\
  trace (Client.s_on_client_connection_established 2%nat "10.0.0.2" 7%nat 0 true None
           Examples.won) =
  [SocketClose 2%nat; SocketCleanUp 2%nat; MemRelease (ObjSocket 2%nat)].
Proof. repeat split. Qed.

Section ShutdownClaims.

Variable AWS_ERROR_UNKNOWN : Z.

(** The user callbacks an accepted channel's shutdown makes before the
    incoming callback was delivered. *)
Lemma server_shutdown_before_incoming c e a d :
  Server.incoming_called d = false ->
  filter is_incoming_callback
    (trace (Server.s_on_server_channel_on_shutdown AWS_ERROR_UNKNOWN c e (a, d))) =
    [IncomingCallback (if e =? 0 then AWS_ERROR_UNKNOWN else e) None] /\
  filter is_server_shutdown_callback
    (trace (Server.s_on_server_channel_on_shutdown AWS_ERROR_UNKNOWN c e (a, d))) = [].
Proof.
  intros Hd. rewrite ServerRuns.server_on_shutdown_run. cbn [trace snd].
  unfold ServerForms.on_shutdown_calls, ServerForms.socket_calls, ServerForms.or_unknown, nonzero.
  rewrite Hd.
  split; rewrite !filter_app; cbn [filter is_incoming_callback is_server_shutdown_callback];
    rewrite !filter_app; quiet; destruct (e =? 0); reflexivity.
Qed.

(** C6: when a channel's shutdown completes before the client's setup
    callback (for an accepted channel: the incoming callback) was
    delivered, that callback is invoked exactly once, with no channel and
    with the error code of the shutdown, or with [AWS_ERROR_UNKNOWN] when
    that code is 0; the shutdown callback is not invoked.  A nonzero code
    is passed on as it is. *)
Theorem C6_shutdown_before_delivery
    (a : Client.client_connection_args)
    (sa : Server.server_connection_args) (d : Server.server_channel_data)
    (c : channel_ptr) (error_code : Z) :
  Client.setup_called a = false ->
  Server.incoming_called d = false ->
  let reported := if error_code =? 0 then AWS_ERROR_UNKNOWN else error_code in
  let client := trace (Client.s_on_client_channel_on_shutdown AWS_ERROR_UNKNOWN c error_code a) in
  let server :=
    trace (Server.s_on_server_channel_on_shutdown AWS_ERROR_UNKNOWN c error_code (sa, d)) in
  (error_code <> 0 -> reported = error_code) /\
  filter is_setup_callback client = [SetupCallback reported None] /\
  filter is_shutdown_callback client = [] /\
  filter is_incoming_callback server = [IncomingCallback reported None] /\
  filter is_server_shutdown_callback server = [].
Proof.
  intros Ha Hd reported client server. subst reported client server.
  destruct (client_shutdown_before_setup AWS_ERROR_UNKNOWN c error_code a Ha) as [H1 H2].
  destruct (server_shutdown_before_incoming c error_code sa d Hd) as [H3 H4].
  repeat split; try assumption.
  intros Hne. apply Z.eqb_neq in Hne. rewrite Hne. reflexivity.
Qed.

End ShutdownClaims.

(** C6 at concrete inputs: a negotiating client channel and an accepted
    channel shut down with error code 0, [AWS_ERROR_UNKNOWN] being 2. *)
Lemma C6_shutdown_before_delivery_witness :
  filter is_setup_callback
    (trace (Client.s_on_client_channel_on_shutdown 2 5%nat 0 Examples.negotiating)) =
    [SetupCallback 2 None] /\
  filter is_incoming_callback
    (trace (Server.s_on_server_channel_on_shutdown 2 5%nat 0
              (Examples.listening, Examples.accepted))) =
    [IncomingCallback 2 None].
Proof.
  pose proof (C6_shutdown_before_delivery 2 Examples.negotiating Examples.listening
                Examples.accepted 5%nat 0 eq_refl eq_refl) as H.
  exact (conj (proj1 (proj2 H)) (proj1 (proj2 (proj2 (proj2 H))))).
Defined.

Section OptionsClaims.

Variable AWS_IO_SOCKET_INVALID_OPTIONS : Z.
Variable offsetof_listener : Z.

(** C8: with socket options whose type is not [AWS_SOCKET_STREAM],
    [aws_client_bootstrap_new_tls_socket_channel] returns [AWS_OP_ERR] and
    [aws_server_bootstrap_new_tls_socket_listener] returns NULL; either
    raises [AWS_IO_SOCKET_INVALID_OPTIONS] and makes no other call: no
    connection state is allocated, no socket or listener is created, no
    resolution is started. *)
Theorem C8_tls_needs_stream_socket
    (bootstrap_on_protocol_negotiated : bool) (host_name : string) (port : Z)
    (o : aws_socket_options) (connection_options : tls_connection_options)
    (r : Client.new_channel_results) (destroy : bool) (lr : Server.listener_results) :
  opt_type o <> AWS_SOCKET_STREAM ->
  Client.aws_client_bootstrap_new_tls_socket_channel AWS_IO_SOCKET_INVALID_OPTIONS
    bootstrap_on_protocol_negotiated host_name port o connection_options r =
  (AWS_OP_ERR, None, [RaiseError AWS_IO_SOCKET_INVALID_OPTIONS]) /\
  Server.aws_server_bootstrap_new_tls_socket_listener offsetof_listener
    AWS_IO_SOCKET_INVALID_OPTIONS bootstrap_on_protocol_negotiated o connection_options
    destroy lr =
  (None, None, [RaiseError AWS_IO_SOCKET_INVALID_OPTIONS]).
Proof.
  intros Ho.
  unfold Client.aws_client_bootstrap_new_tls_socket_channel,
    Server.aws_server_bootstrap_new_tls_socket_listener.
  destruct (opt_type o); [congruence|]. split; reflexivity.
Qed.

End OptionsClaims.

Lemma datagram_is_not_stream : opt_type Examples.datagram_ipv4 <> AWS_SOCKET_STREAM.
Proof. discriminate. Defined.

(** C8 at a concrete input: a datagram socket, every later call being able
    to succeed. *)
Lemma C8_tls_needs_stream_socket_witness :
  Client.aws_client_bootstrap_new_tls_socket_channel 1049 false "example.com" 443
    Examples.datagram_ipv4 Examples.no_user_tls_callbacks Examples.all_succeed =
  (AWS_OP_ERR, None, [RaiseError 1049]) /\
  Server.aws_server_bootstrap_new_tls_socket_listener 64 1049 false
    Examples.datagram_ipv4 Examples.no_user_tls_callbacks true Examples.listener_succeeds =
  (None, None, [RaiseError 1049]).
Proof.
  exact (C8_tls_needs_stream_socket 1049 64 false "example.com" 443 Examples.datagram_ipv4
           Examples.no_user_tls_callbacks Examples.all_succeed true Examples.listener_succeeds
           datagram_is_not_stream).
Defined.


(** ** Host resolution: the two loops of [s_on_host_resolved] *)

Section Resolution.

Import Client ClientForms ClientRuns.

Lemma allocated_ok alloc port o loop addrs :
  forall i tasks,
    all_allocated alloc i (List.length addrs) = true ->
    exists new,
      allocated alloc port o loop i addrs tasks = inr (tasks ++ new) /\
      map host_address new = addrs /\
      allocate_calls alloc i addrs = map acquire_task new.
Proof.
  induction addrs as [|h rest IH]; intros i tasks Hall.
  - exists []. cbn. rewrite app_nil_r. auto.
  - cbn [List.length seq all_allocated forallb] in Hall.
    apply andb_prop in Hall. destruct Hall as [Hi Hrest].
    cbn [allocated allocate_calls].
    destruct (alloc i) as [| t | t]; try discriminate.
    destruct (IH (S i) (tasks ++ [fill_task_data t port o loop h]) Hrest)
      as (new & Hnew & Hmap & Hcalls).
    exists (fill_task_data t port o loop h :: new).
    rewrite Hnew, Hcalls, <- app_assoc. cbn. rewrite Hmap. auto.
Qed.

Lemma tasks_released_app a b : tasks_released (a ++ b) = tasks_released a ++ tasks_released b.
Proof. apply flat_map_app. Qed.

Lemma tasks_acquired_app a b : tasks_acquired (a ++ b) = tasks_acquired a ++ tasks_acquired b.
Proof. apply flat_map_app. Qed.

Lemma free_calls_app a b : free_calls (a ++ b) = free_calls a ++ free_calls b.
Proof. apply flat_map_app. Qed.

Lemma tasks_released_free_some tasks :
  tasks_released (free_calls (map Some tasks)) = map task tasks.
Proof.
  induction tasks as [|td rest IH]; [reflexivity|].
  change (map Some (td :: rest)) with ([Some td] ++ map Some rest).
  rewrite free_calls_app, tasks_released_app, IH. reflexivity.
Qed.

Lemma allocated_failed alloc port o loop addrs :
  forall i tasks,
    all_allocated alloc i (List.length addrs) = false ->
    exists arr,
      allocated alloc port o loop i addrs tasks = inl arr /\
      tasks_released (free_calls arr) =
        map task tasks ++ tasks_acquired (allocate_calls alloc i addrs).
Proof.
  induction addrs as [|h rest IH]; intros i tasks Hall; [discriminate|].
  cbn [List.length seq all_allocated forallb] in Hall.
  cbn [allocated allocate_calls].
  destruct (alloc i) as [| t | t]; cbn [is_allocated andb] in Hall.
  - eexists. split; [reflexivity|].
    rewrite free_calls_app, tasks_released_app, tasks_released_free_some. reflexivity.
  - eexists. split; [reflexivity|].
    rewrite free_calls_app, tasks_released_app, tasks_released_free_some. reflexivity.
  - destruct (IH (S i) (tasks ++ [fill_task_data t port o loop h]) Hall) as (arr & Harr & Hrel).
    exists arr. split; [exact Harr|].
    rewrite Hrel, map_app, <- app_assoc. reflexivity.
Qed.

Lemma filter_allocate_calls p alloc addrs :
  (forall x, p (MemAcquire x) = false) ->
  forall i, filter p (allocate_calls alloc i addrs) = [].
Proof.
  intros Hp. induction addrs as [|h rest IH]; intros i; [reflexivity|].
  cbn [allocate_calls]. destruct (alloc i); cbn [filter]; rewrite ?Hp; auto.
Qed.

Lemma filter_free_calls p arr :
  (forall x, p (MemRelease x) = false) -> (forall x, p (HostAddressCleanUp x) = false) ->
  filter p (free_calls arr) = [].
Proof.
  intros H1 H2. induction arr as [|[td|] rest IH]; [reflexivity| |exact IH].
  cbn. rewrite H1, H2. exact IH.
Qed.

Lemma tasks_released_allocate_calls alloc addrs :
  forall i, tasks_released (allocate_calls alloc i addrs) = [].
Proof.
  induction addrs as [|h rest IH]; intros i; [reflexivity|].
  cbn [allocate_calls]. destruct (alloc i); cbn; auto.
Qed.

Lemma tasks_acquired_free_calls arr : tasks_acquired (free_calls arr) = [].
Proof.
  induction arr as [|[td|] rest IH]; [reflexivity| |exact IH]. cbn. exact IH.
Qed.

Lemma filter_schedule_calls p loop tasks :
  p BootstrapAcquire = false -> (forall l t, p (ScheduleTaskNow l t) = false) ->
  forall a, filter p (schedule_calls loop tasks a) = [].
Proof.
  intros H1 H2. induction tasks as [|td rest IH]; intros a; [reflexivity|].
  cbn [schedule_calls]. rewrite filter_app. cbn [filter]. rewrite H2, IH.
  unfold acquire_calls. destruct (ref_count a =? 0); cbn; rewrite ?H1; reflexivity.
Qed.

Lemma scheduled_tasks loop tasks :
  forall a,
    filter is_schedule_task (schedule_calls loop tasks a) =
    map (fun td => ScheduleTaskNow loop (task td)) tasks.
Proof.
  induction tasks as [|td rest IH]; intros a; [reflexivity|].
  cbn [schedule_calls map]. rewrite filter_app. cbn [filter is_schedule_task]. rewrite IH.
  unfold acquire_calls. destruct (ref_count a =? 0); reflexivity.
Qed.

Lemma uint32_succ x : uint32_t (uint32_t x + 1) = uint32_t (x + 1).
Proof. unfold uint32_t. apply Zplus_mod_idemp_l. Qed.

Lemma acquired_n_fields n :
  forall a,
    ref_count (acquired_n n a) =
      (if Nat.eqb n 0 then ref_count a else uint32_t (ref_count a + Z.of_nat n)) /\
    setup_called (acquired_n n a) = setup_called a /\
    failed_count (acquired_n n a) = failed_count a /\
    addresses_count (acquired_n n a) = addresses_count a /\
    connection_chosen (acquired_n n a) = connection_chosen a /\
    shutdown_callback (acquired_n n a) = shutdown_callback a /\
    channel_data (acquired_n n a) = channel_data a /\
    outgoing_options (acquired_n n a) = outgoing_options a /\
    host_name (acquired_n n a) = host_name a.
Proof.
  induction n as [|n IH]; intros a.
  - cbn [acquired_n]. repeat split.
  - cbn [acquired_n]. destruct (IH (acquired a)) as (H1 & H2 & H3 & H4 & H5 & H6 & H7 & H8 & H9).
    repeat split; try assumption.
    rewrite H1. cbn [acquired ref_count set_ref_count Nat.eqb].
    destruct (Nat.eqb n 0) eqn:Hn.
    + apply Nat.eqb_eq in Hn. subst n. reflexivity.
    + unfold uint32_t. rewrite Zplus_mod_idemp_l. f_equal. lia.
Qed.

Lemma tasks_of_setup_calls e ch a :
  tasks_released (setup_calls e ch a) = [] /\ tasks_acquired (setup_calls e ch a) = [].
Proof.
  unfold setup_calls, release_calls.
  destruct (setup_called a); [auto|].
  destruct (uint32_t _ =? 0); [|auto].
  destruct (is_some _), (use_tls _); auto.
Qed.

Lemma tasks_released_schedule_calls loop tasks :
  forall a, tasks_released (schedule_calls loop tasks a) = [].
Proof.
  induction tasks as [|td rest IH]; intros a; [reflexivity|].
  cbn [schedule_calls]. rewrite tasks_released_app. cbn. rewrite IH.
  unfold acquire_calls. destruct (ref_count a =? 0); reflexivity.
Qed.

Lemma tasks_released_acquire_tasks tasks : tasks_released (map acquire_task tasks) = [].
Proof. induction tasks as [|td rest IH]; [reflexivity|]. exact IH. Qed.

Lemma filter_acquire_tasks p tasks :
  (forall x, p (MemAcquire x) = false) -> filter p (map acquire_task tasks) = [].
Proof.
  intros Hp. induction tasks as [|td rest IH]; [reflexivity|].
  cbn. unfold acquire_task at 1. rewrite Hp. exact IH.
Qed.

Lemma nonzero_0 : nonzero 0 = false.
Proof. reflexivity. Qed.

Lemma host_resolved_addresses_count addrs loop alloc last_error a :
  addrs <> [] ->
  addresses_count (state (s_on_host_resolved 0 addrs loop alloc last_error a)) =
  uint8_t (Z.of_nat (List.length addrs)).
Proof.
  intros Hne.
  rewrite (host_resolved_run 0 addrs loop alloc last_error a nonzero_0 Hne). cbv zeta.
  destruct (allocated alloc (outgoing_port a) (outgoing_options a) loop 0 addrs [])
    as [arr | new]; cbn [state fst snd].
  - unfold setup_state. cbn [counted_addresses setup_called set_addresses_count].
    destruct (setup_called a); [reflexivity|].
    unfold marked. destruct (nonzero last_error); reflexivity.
  - destruct (acquired_n_fields (List.length new) (counted_addresses addrs a))
      as (_ & _ & _ & Hac & _).
    rewrite Hac. reflexivity.
Qed.

(** C4: a successful resolution (error code 0, a non-empty address list)
    that reaches a connection state whose setup callback was not delivered
    records the length of the list, modulo 256, in [addresses_count].  When
    every allocation succeeds, one task structure per address is allocated,
    in the order of the addresses, and only then is each of them scheduled,
    once; no setup callback is delivered and nothing is freed.  When an
    allocation fails, no task is scheduled, the task structures that were
    allocated are exactly the ones freed, the setup callback is delivered
    exactly once, with [aws_last_error()] and no channel, and one reference
    on the state is released. *)
Theorem C4_all_or_nothing_scheduling
    (host_addresses : list aws_host_address) (connect_loop : event_loop_ptr)
    (alloc : nat -> task_alloc) (last_error : Z) (a : client_connection_args) :
  setup_called a = false ->
  host_addresses <> [] ->
  let r := s_on_host_resolved 0 host_addresses connect_loop alloc last_error a in
  addresses_count (state r) = uint8_t (Z.of_nat (List.length host_addresses)) /\
  if all_allocated alloc 0 (List.length host_addresses) then
    map host_address (result r) = host_addresses /\
    trace r = map acquire_task (result r) ++
              schedule_calls connect_loop (result r) (counted_addresses host_addresses a) /\
    filter is_schedule_task (trace r) =
      map (fun td => ScheduleTaskNow connect_loop (task td)) (result r) /\
    filter is_setup_callback (trace r) = [] /\
    tasks_released (trace r) = []
  else
    result r = [] /\
    filter is_schedule_task (trace r) = [] /\
    tasks_released (trace r) = tasks_acquired (trace r) /\
    filter is_setup_callback (trace r) = [SetupCallback last_error None] /\
    ref_count (state r) = uint32_t (ref_count a - 1).
Proof.
  intros Hs Hne r. subst r.
  split; [apply host_resolved_addresses_count; exact Hne|].
  rewrite (host_resolved_run 0 host_addresses connect_loop alloc last_error a nonzero_0 Hne).
  cbv zeta.
  destruct (all_allocated alloc 0 (List.length host_addresses)) eqn:Hall.
  - destruct (allocated_ok alloc (outgoing_port a) (outgoing_options a) connect_loop
                host_addresses 0 [] Hall) as (new & Hnew & Hmap & Hcalls).
    rewrite Hnew, Hcalls. cbn [app result state trace fst snd].
    split; [exact Hmap|]. split; [reflexivity|].
    split; [|split].
    + rewrite filter_app, scheduled_tasks, filter_acquire_tasks by reflexivity. reflexivity.
    + rewrite filter_app, filter_acquire_tasks, filter_schedule_calls by reflexivity.
      reflexivity.
    + rewrite tasks_released_app, tasks_released_acquire_tasks, tasks_released_schedule_calls.
      reflexivity.
  - destruct (allocated_failed alloc (outgoing_port a) (outgoing_options a) connect_loop
                host_addresses 0 [] Hall) as (arr & Harr & Hrel).
    rewrite Harr. cbn [result state trace fst snd].
    destruct (tasks_of_setup_calls last_error None (counted_addresses host_addresses a))
      as [Hr0 Ha0].
    assert (Hsc : setup_called (counted_addresses host_addresses a) = false) by exact Hs.
    split; [|split; [|split; [|split]]].
    + reflexivity.
    + rewrite !filter_app, filter_allocate_calls, filter_free_calls by reflexivity.
      quiet. reflexivity.
    + rewrite !tasks_released_app, !tasks_acquired_app, Hrel, Hr0, Ha0,
        tasks_released_allocate_calls, tasks_acquired_free_calls.
      cbn [map app]. rewrite !app_nil_r. reflexivity.
    + rewrite !filter_app, filter_allocate_calls, filter_free_calls by reflexivity.
      unfold setup_calls. rewrite Hsc. cbn [app filter is_setup_callback]. quiet. reflexivity.
    + unfold setup_state. rewrite Hsc, ref_count_released, ref_count_marked. reflexivity.
Qed.

End Resolution.


(** ** Executions of the race *)

Lemma two_addresses_not_empty : Examples.two_addresses <> [].
Proof. discriminate. Defined.

(** C4 at a concrete input: two addresses, the second allocation fails
    and [aws_last_error()] is 1. *)
Lemma C4_all_or_nothing_scheduling_witness :
  filter is_schedule_task
    (trace (Client.s_on_host_resolved 0 Examples.two_addresses 7%nat
              Examples.second_allocation_fails 1 Examples.resolving)) = [] /\
  filter is_setup_callback
    (trace (Client.s_on_host_resolved 0 Examples.two_addresses 7%nat
              Examples.second_allocation_fails 1 Examples.resolving)) =
  [SetupCallback 1 None].
Proof.
  pose proof (C4_all_or_nothing_scheduling Examples.two_addresses 7%nat
                Examples.second_allocation_fails 1 Examples.resolving eq_refl
                two_addresses_not_empty) as H.
  exact (conj (proj1 (proj2 (proj2 H))) (proj1 (proj2 (proj2 (proj2 (proj2 H)))))).
Defined.

(** C1, the execution that breaks it.  A call into
    [aws_client_bootstrap_new_socket_channel] returns [AWS_OP_SUCCESS]; the
    resolver gives two addresses; both attempts connect; [aws_channel_new]
    returns NULL for the first; the second is closed because a connection
    was chosen.  Then nothing is outstanding any more, the connection state
    is still allocated, and neither the setup callback nor the shutdown
    callback was ever invoked. *)
Theorem C1_setup_callback_never_delivered (AWS_ERROR_UNKNOWN : Z) :
  exists s0 s,
    Client.aws_client_bootstrap_new_socket_channel false "example.com" 443
      Examples.stream_ipv4 Examples.all_succeed =
      (AWS_OP_SUCCESS, Some (Race.args s0), Race.log s0) /\
    Race.started false "example.com" 443 Examples.stream_ipv4 None Examples.all_succeed =
      Some s0 /\
    Race.run AWS_ERROR_UNKNOWN Examples.winner_without_channel s0 = Some s /\
    Race.quiescent s = true /\
    Race.freed s = false /\
    Client.setup_called (Race.args s) = false /\
    filter is_setup_callback (Race.log s) = [] /\
    filter is_shutdown_callback (Race.log s) = [].
Proof.
  eexists. eexists.
  split; [|split; [reflexivity|]].
  - reflexivity.
  - split; [vm_compute; reflexivity|]. repeat split.
Qed.

(** A second execution that breaks C1: a local socket connects and
    [aws_channel_new] returns NULL.  The setup callback is invoked with
    error code 0 and no channel, and no shutdown callback follows. *)
Lemma local_socket_without_channel (AWS_ERROR_UNKNOWN : Z) :
  exists s0 s,
    Race.started false "/tmp/sock" 0 Examples.stream_local None Examples.all_succeed =
      Some s0 /\
    Race.run AWS_ERROR_UNKNOWN Examples.local_without_channel s0 = Some s /\
    Race.quiescent s = true /\
    filter is_setup_callback (Race.log s) = [SetupCallback 0 None] /\
    filter is_shutdown_callback (Race.log s) = [].
Proof.
  eexists. eexists. split; [reflexivity|]. split; [vm_compute; reflexivity|]. repeat split.
Qed.

(** ** Steps of the race *)

Section RaceSteps.

Import Client ClientForms ClientRuns.

Variable AWS_ERROR_UNKNOWN : Z.

Lemma existsb_filter (p : effect -> bool) tr : filter p tr = [] -> existsb p tr = false.
Proof.
  induction tr as [|x tr IH]; [reflexivity|].
  cbn. destruct (p x); [discriminate|]. exact IH.
Qed.

Lemma step_attempt s td rest status sock init conn last_error :
  Race.freed s = false ->
  Race.scheduled s = td :: rest ->
  Race.step AWS_ERROR_UNKNOWN (Race.AttemptConnection status sock init conn last_error) s =
  Some {| Race.args := attempt_state status sock init conn last_error (Race.args s);
          Race.freed := Race.args_freed
                          (attempt_calls td status sock init conn last_error (Race.args s));
          Race.resolving := Race.resolving s;
          Race.scheduled := rest;
          Race.connecting := Race.connecting s ++ Race.connect_started td status sock init conn;
          Race.chan := Race.chan s;
          Race.log := Race.log s ++
                      attempt_calls td status sock init conn last_error (Race.args s) |}.
Proof.
  intros Hf Hs. unfold Race.step. rewrite Hf, Hs, attempt_connection_run. reflexivity.
Qed.

Lemma step_established s sk loop e copy nc remote_address rest :
  Race.freed s = false ->
  Race.take_socket sk (Race.connecting s) = Some (remote_address, rest) ->
  Race.step AWS_ERROR_UNKNOWN (Race.ConnectionEstablished sk loop e copy nc) s =
  Some {| Race.args := established_state sk e nc (Race.args s);
          Race.freed := Race.args_freed
                          (established_calls sk remote_address loop e copy nc (Race.args s));
          Race.resolving := Race.resolving s;
          Race.scheduled := Race.scheduled s;
          Race.connecting := rest;
          Race.chan := match Race.channel_created
                               (established_calls sk remote_address loop e copy nc (Race.args s))
                       with
                       | Some c => Race.SetupPending c
                       | None => Race.chan s
                       end;
          Race.log := Race.log s ++
                      established_calls sk remote_address loop e copy nc (Race.args s) |}.
Proof.
  intros Hf Hs. unfold Race.step. rewrite Hf, Hs, established_run. reflexivity.
Qed.

Lemma step_resolved s addrs loop alloc last_error new :
  Race.freed s = false ->
  Race.resolving s = true ->
  addrs <> [] ->
  allocated alloc (outgoing_port (Race.args s)) (outgoing_options (Race.args s)) loop 0
    addrs [] = inr new ->
  Race.step AWS_ERROR_UNKNOWN (Race.HostResolved 0 addrs loop alloc last_error) s =
  Some {| Race.args := acquired_n (List.length new) (counted_addresses addrs (Race.args s));
          Race.freed := false;
          Race.resolving := false;
          Race.scheduled := Race.scheduled s ++ new;
          Race.connecting := Race.connecting s;
          Race.chan := Race.chan s;
          Race.log := Race.log s ++ allocate_calls alloc 0 addrs ++
                      schedule_calls loop new (counted_addresses addrs (Race.args s)) |}.
Proof.
  intros Hf Hr Hne Hnew. unfold Race.step. rewrite Hf, Hr.
  assert (Hlen : Nat.eqb (List.length addrs) 0 = false).
  { destruct addrs; [congruence|reflexivity]. }
  rewrite Hlen. cbn [nonzero Z.eqb negb orb andb].
  rewrite (host_resolved_run 0 addrs loop alloc last_error (Race.args s) nonzero_0 Hne).
  cbv zeta. rewrite Hnew.
  assert (Hfree : Race.args_freed
            (allocate_calls alloc 0 addrs ++
             schedule_calls loop new (counted_addresses addrs (Race.args s))) = false).
  { apply existsb_filter.
    rewrite filter_app, filter_allocate_calls, filter_schedule_calls by reflexivity.
    reflexivity. }
  rewrite Hfree. reflexivity.
Qed.

(** The state a successful call for a host name starts the race from. *)
Lemma started_resolving pn host port o co r s0 :
  Race.started pn host port o co r = Some s0 ->
  is_local (opt_domain o) = false ->
  Race.freed s0 = false /\ Race.resolving s0 = true /\
  Race.scheduled s0 = [] /\ Race.connecting s0 = [] /\ Race.chan s0 = Race.NoChannel /\
  failed_count (Race.args s0) = 0 /\ addresses_count (Race.args s0) = 0 /\
  setup_called (Race.args s0) = false /\ connection_chosen (Race.args s0) = false /\
  ref_count (Race.args s0) = 1 /\
  outgoing_options (Race.args s0) = o /\
  filter is_setup_callback (Race.log s0) = [].
Proof.
  intros Hs Hl. unfold Race.started, s_new_client_channel, new_client_channel_body in Hs.
  rewrite Hl in Hs.
  destruct (args_alloc r); cbn [negb] in Hs; [|discriminate].
  destruct co as [co|]; destruct (tls_options_copy r), (host_name_alloc r), (resolve_host r);
    cbn in Hs; try discriminate; injection Hs as <-; cbn; repeat split.
Qed.

End RaceSteps.

(** ** The 8-bit [addresses_count] *)

Ltac modlia :=
  change (2 ^ 32) with 4294967296 in *; Z.to_euclidean_division_equations; lia.

Section Wrap.

Import Client ClientForms ClientRuns.

Variable AWS_ERROR_UNKNOWN : Z.

Lemma step_cancel s td rest :
  Race.freed s = false ->
  Race.scheduled s = td :: rest ->
  Race.step AWS_ERROR_UNKNOWN Scripts.cancel s =
  Some {| Race.args := failed_state 0 (Race.args s);
          Race.freed := Race.args_freed (failed_calls td 0 (Race.args s));
          Race.resolving := Race.resolving s;
          Race.scheduled := rest;
          Race.connecting := Race.connecting s ++ [];
          Race.chan := Race.chan s;
          Race.log := Race.log s ++ failed_calls td 0 (Race.args s) |}.
Proof.
  intros Hf Hs. unfold Scripts.cancel.
  rewrite (step_attempt AWS_ERROR_UNKNOWN s td rest _ _ _ _ _ Hf Hs). reflexivity.
Qed.

Lemma gate_closed e a : gate_open a = false -> gate e a = a /\ gate_calls e a = [].
Proof. intros H. unfold gate, gate_calls. rewrite H. auto. Qed.

Lemma args_freed_release a :
  Race.args_freed (release_calls a) = (uint32_t (ref_count a - 1) =? 0).
Proof.
  unfold release_calls. destruct (uint32_t (ref_count a - 1) =? 0); [|reflexivity].
  destruct (is_some _), (use_tls _); reflexivity.
Qed.

(** Cancelled tasks that are not the last attempt by the count: each adds
    one to [failed_count], gives one reference back, and delivers nothing. *)
Lemma quiet_cancels (m : nat) :
  forall s,
    Race.freed s = false ->
    setup_called (Race.args s) = false ->
    0 <= failed_count (Race.args s) ->
    failed_count (Race.args s) + Z.of_nat m < addresses_count (Race.args s) <= 255 ->
    ref_count (Race.args s) mod 256 =
      (addresses_count (Race.args s) + 1 - failed_count (Race.args s)) mod 256 ->
    (m <= List.length (Race.scheduled s))%nat ->
    exists s',
      Race.run AWS_ERROR_UNKNOWN (repeat Scripts.cancel m) s = Some s' /\
      Race.freed s' = false /\
      setup_called (Race.args s') = false /\
      failed_count (Race.args s') = failed_count (Race.args s) + Z.of_nat m /\
      addresses_count (Race.args s') = addresses_count (Race.args s) /\
      ref_count (Race.args s') mod 256 =
        (addresses_count (Race.args s') + 1 - failed_count (Race.args s')) mod 256 /\
      Race.scheduled s' = skipn m (Race.scheduled s) /\
      Race.connecting s' = Race.connecting s /\
      filter is_setup_callback (Race.log s') = filter is_setup_callback (Race.log s).
Proof.
  induction m as [|m IH]; intros s Hf Hsc HF HA HR Hlen.
  - exists s. cbn [repeat Race.run skipn]. rewrite Z.add_0_r. repeat split; auto.
  - destruct (Race.scheduled s) as [|td rest] eqn:Hs; [cbn in Hlen; lia|].
    cbn [repeat Race.run]. rewrite (step_cancel s td rest Hf Hs).
    set (a := Race.args s) in *.
    assert (Hinc : failed_count (incr a) = failed_count a + 1).
    { cbn [incr failed_count set_failed_count]. unfold uint8_t. apply Z.mod_small. lia. }
    assert (Hclosed : gate_open (incr a) = false).
    { unfold gate_open. rewrite Hinc. cbn [incr addresses_count set_failed_count].
      apply Z.eqb_neq. lia. }
    destruct (gate_closed 0 (incr a) Hclosed) as [Hg Hgc].
    unfold failed_state, failed_calls. rewrite Hg, Hgc. cbn [app].
    assert (Hnz : (uint32_t (ref_count a - 1) =? 0) = false).
    { apply Z.eqb_neq. unfold uint32_t. modlia. }
    match goal with |- exists s', Race.run _ _ ?x = _ /\ _ => set (s1 := x) end.
    destruct (IH s1) as (s' & Hrun & Hf' & Hsc' & HF' & HA' & HR' & Hsched & Hconn & Hlog).
    + subst s1. cbn [Race.freed]. unfold Race.args_freed. rewrite existsb_app.
      fold (Race.args_freed (release_calls (incr a))). rewrite args_freed_release.
      cbn [incr ref_count set_failed_count]. rewrite Hnz. reflexivity.
    + exact Hsc.
    + subst s1. cbn [Race.args released failed_count set_ref_count]. rewrite Hinc. lia.
    + subst s1. cbn [Race.args released failed_count addresses_count set_ref_count].
      rewrite Hinc. cbn [incr addresses_count set_failed_count]. lia.
    + subst s1. cbn [Race.args released failed_count addresses_count ref_count set_ref_count].
      rewrite Hinc. cbn [incr addresses_count ref_count set_failed_count].
      unfold uint32_t. modlia.
    + subst s1. cbn [Race.scheduled]. cbn [List.length] in Hlen. lia.
    + exists s'. split; [exact Hrun|].
      subst s1. cbn [Race.args Race.scheduled Race.connecting Race.log] in *.
      cbn [released failed_count addresses_count set_ref_count] in *.
      rewrite Hinc in *. cbn [incr addresses_count set_failed_count] in *.
      repeat split; auto.
      * lia.
      * rewrite Hconn. apply app_nil_r.
      * rewrite Hlog, filter_app, filter_app. quiet.
        cbn. apply app_nil_r.
Qed.

(** The cancelled task that makes [failed_count] equal to
    [addresses_count] delivers the setup callback with error code 0. *)
Lemma last_cancel s td rest :
  Race.freed s = false ->
  Race.scheduled s = td :: rest ->
  setup_called (Race.args s) = false ->
  uint8_t (failed_count (Race.args s) + 1) = addresses_count (Race.args s) ->
  exists s',
    Race.step AWS_ERROR_UNKNOWN Scripts.cancel s = Some s' /\
    failed_count (Race.args s') = addresses_count (Race.args s') /\
    Race.scheduled s' = rest /\
    filter is_setup_callback (Race.log s') =
      filter is_setup_callback (Race.log s) ++ [SetupCallback 0 None].
Proof.
  intros Hf Hs Hsc Hgate. rewrite (step_cancel s td rest Hf Hs).
  eexists. split; [reflexivity|]. cbn [Race.args Race.scheduled Race.log].
  unfold failed_state, failed_calls.
  rewrite failed_count_released, failed_count_gate.
  assert (Hopen : gate_open (incr (Race.args s)) = true).
  { unfold gate_open. cbn [incr failed_count addresses_count set_failed_count].
    rewrite Hgate. apply Z.eqb_refl. }
  repeat split.
  - unfold gate. rewrite Hopen. unfold setup_state.
    cbn [incr setup_called set_failed_count]. rewrite Hsc.
    cbn [released addresses_count set_ref_count]. unfold marked.
    destruct (nonzero 0); cbn; exact Hgate.
  - rewrite !filter_app, filter_setup_gate_calls, Hopen.
    cbn [incr setup_called set_failed_count]. rewrite Hsc. quiet.
    cbn. reflexivity.
Qed.

Lemma addresses_count_gate e a : addresses_count (gate e a) = addresses_count a.
Proof.
  unfold gate, setup_state. destruct (gate_open a); [|reflexivity].
  destruct (setup_called a); [reflexivity|].
  unfold marked. destruct (nonzero e); reflexivity.
Qed.

(** A connection that completes without error after another one was
    chosen runs the test [failed_count == addresses_count] without having
    counted anything. *)
Lemma late_success_gate s t1 t2 rest :
  Race.freed s = false ->
  Race.scheduled s = t1 :: t2 :: rest ->
  Race.connecting s = [] ->
  setup_called (Race.args s) = false ->
  connection_chosen (Race.args s) = false ->
  failed_count (Race.args s) = addresses_count (Race.args s) ->
  exists s',
    Race.run AWS_ERROR_UNKNOWN Scripts.late_success s = Some s' /\
    failed_count (Race.args s') = addresses_count (Race.args s') /\
    Race.scheduled s' = rest /\
    filter is_setup_callback (Race.log s') =
      filter is_setup_callback (Race.log s) ++ [SetupCallback 0 None].
Proof.
  intros Hf Hs Hc Hsc Hcc Hgate.
  unfold Scripts.late_success. cbn [Race.run].
  rewrite (step_attempt AWS_ERROR_UNKNOWN s t1 (t2 :: rest) _ _ _ _ _ Hf Hs). rewrite Hc.
  erewrite step_attempt; [| reflexivity | reflexivity].
  erewrite step_established; [| reflexivity | reflexivity].
  erewrite step_established; [| | reflexivity].
  2: { cbn [Race.freed Race.args attempt_state attempt_connects is_run_ready is_some andb].
       unfold established_calls, gives_up. rewrite Hcc. reflexivity. }
  eexists. split; [reflexivity|].
  cbn [Race.args Race.scheduled Race.log attempt_state attempt_connects is_run_ready
         is_some andb].
  set (a := Race.args s) in *.
  assert (Hwon : established_state 1%nat 0 (Some 0%nat) a = chosen 1%nat (Some 0%nat) a).
  { unfold established_state, gives_up. rewrite Hcc. reflexivity. }
  assert (Hwon_calls : forall addr, established_calls 1%nat addr 0%nat 0 true (Some 0%nat) a =
                                    [ChannelNew 0%nat 0%nat]).
  { intros addr. unfold established_calls, gives_up. rewrite Hcc. reflexivity. }
  rewrite Hwon, Hwon_calls.
  set (a' := chosen 1%nat (Some 0%nat) a).
  assert (Hlost : established_state 2%nat 0 None a' = lost_state 0 a') by reflexivity.
  assert (Hopen : gate_open (counted 0 a') && negb (setup_called (counted 0 a')) = true).
  { unfold gate_open. subst a'. cbn. rewrite Hgate, Hsc, Z.eqb_refl. reflexivity. }
  rewrite Hlost. unfold lost_state.
  rewrite failed_count_released, failed_count_gate.
  repeat split.
  - cbn [released addresses_count set_ref_count]. rewrite addresses_count_gate.
    subst a'. cbn. exact Hgate.
  - rewrite !filter_app.
    assert (Hcalls : forall addr,
               filter is_setup_callback (established_calls 2%nat addr 0%nat 0 true None a') =
               [SetupCallback 0 None]).
    { intros addr. change (established_calls 2%nat addr 0%nat 0 true None a')
        with (lost_calls 2%nat addr 0 true a').
      unfold lost_calls. rewrite !filter_app, filter_setup_gate_calls, Hopen. quiet.
      reflexivity. }
    rewrite Hcalls. cbn. rewrite !app_nil_r. reflexivity.
Qed.

Lemma run_app l1 :
  forall l2 s,
    Race.run AWS_ERROR_UNKNOWN (l1 ++ l2) s =
    match Race.run AWS_ERROR_UNKNOWN l1 s with
    | Some s' => Race.run AWS_ERROR_UNKNOWN l2 s'
    | None => None
    end.
Proof.
  induction l1 as [|ev l1 IH]; intros l2 s; [reflexivity|].
  cbn [app Race.run]. destruct (Race.step AWS_ERROR_UNKNOWN ev s); [apply IH|reflexivity].
Qed.

(** C10: a successful resolution stores the length of the address list
    in [addresses_count] reduced modulo 256, whatever the allocations do.
    When the allocations succeed, one task per address is scheduled, so
    that as many attempts are outstanding as there are addresses.  For a
    list of at most 255 addresses the count is the number of attempts; for
    a longer list it is not, and there is an execution in which the test
    [failed_count == addresses_count] passes, and delivers the setup
    callback, while attempts are still outstanding. *)
Theorem C10_addresses_count_is_reduced_modulo_256
    (pn : bool) (host : string) (port : Z) (o : aws_socket_options)
    (co : option tls_connection_options) (r : new_channel_results) (s0 : Race.system)
    (host_addresses : list aws_host_address) (connect_loop : event_loop_ptr)
    (alloc : nat -> task_alloc) (last_error : Z) :
  Race.started pn host port o co r = Some s0 ->
  is_local (opt_domain o) = false ->
  host_addresses <> [] ->
  let n := List.length host_addresses in
  addresses_count
    (state (s_on_host_resolved 0 host_addresses connect_loop alloc last_error (Race.args s0))) =
    Z.of_nat n mod 256 /\
  (all_allocated alloc 0 n = true ->
   exists s1,
     Race.step AWS_ERROR_UNKNOWN
       (Race.HostResolved 0 host_addresses connect_loop alloc last_error) s0 = Some s1 /\
     addresses_count (Race.args s1) = Z.of_nat n mod 256 /\
     map host_address (Race.scheduled s1) = host_addresses /\
     Race.outstanding s1 = n /\
     (Z.of_nat n <= 255 -> addresses_count (Race.args s1) = Z.of_nat n) /\
     (255 < Z.of_nat n ->
      addresses_count (Race.args s1) <> Z.of_nat n /\
      exists s,
        Race.run AWS_ERROR_UNKNOWN (Scripts.early_gate n) s1 = Some s /\
        failed_count (Race.args s) = addresses_count (Race.args s) /\
        filter is_setup_callback (Race.log s) = [SetupCallback 0 None] /\
        (0 < Race.outstanding s)%nat)).
Proof.
  intros Hstart Hlocal Hne n.
  destruct (started_resolving pn host port o co r s0 Hstart Hlocal)
    as (Hf & Hr & Hsched & Hconn & Hchan & HF & HA & Hsc & Hcc & Hrc & _ & Hlog).
  split.
  { subst n. apply host_resolved_addresses_count. exact Hne. }
  intros Hall.
  destruct (allocated_ok alloc (outgoing_port (Race.args s0)) (outgoing_options (Race.args s0))
              connect_loop host_addresses 0 [] Hall) as (new & Hnew & Hmap & Hcalls).
  cbn [app] in Hnew.
  assert (Hlen : List.length new = n).
  { subst n. rewrite <- Hmap. symmetry. apply length_map. }
  rewrite (step_resolved AWS_ERROR_UNKNOWN s0 host_addresses connect_loop alloc last_error new
             Hf Hr Hne Hnew).
  eexists. split; [reflexivity|].
  cbn [Race.args Race.scheduled Race.connecting Race.log Race.outstanding Race.freed].
  rewrite Hsched, Hconn. cbn [app List.length].
  destruct (acquired_n_fields (List.length new) (counted_addresses host_addresses (Race.args s0)))
    as (Hrc1 & Hsc1 & HF1 & HA1 & Hcc1 & _).
  cbn [counted_addresses setup_called failed_count addresses_count connection_chosen ref_count
         set_addresses_count] in Hrc1, Hsc1, HF1, HA1, Hcc1.
  fold n in HA1. rewrite Hlen in *.
  assert (Hn0 : Nat.eqb n 0 = false).
  { apply Nat.eqb_neq. subst n. destruct host_addresses; [congruence|discriminate]. }
  rewrite Hn0, Hrc in Hrc1. rewrite HF in HF1. rewrite Hsc in Hsc1. rewrite Hcc in Hcc1.
  set (a1 := acquired_n n (counted_addresses host_addresses (Race.args s0))) in *.
  split; [exact HA1|]. split; [exact Hmap|]. split; [unfold Race.outstanding; cbn [Race.scheduled Race.connecting List.length]; lia|]. split.
  { intros Hsmall. rewrite HA1. unfold uint8_t. apply Z.mod_small. lia. }
  intros Hbig. split.
  { rewrite HA1. unfold uint8_t. modlia. }
  set (s1 := {| Race.args := a1; Race.freed := false; Race.resolving := false;
                Race.scheduled := new; Race.connecting := [];
                Race.chan := Race.chan s0;
                Race.log := Race.log s0 ++ allocate_calls alloc 0 host_addresses ++
                            schedule_calls connect_loop new
                              (counted_addresses host_addresses (Race.args s0)) |}).
  assert (Hlog1 : filter is_setup_callback (Race.log s1) = []).
  { subst s1. cbn [Race.log]. rewrite !filter_app, Hlog, filter_allocate_calls,
      filter_schedule_calls by reflexivity. reflexivity. }
  unfold Scripts.early_gate. fold n.
  destruct (Z.of_nat n mod 256 =? 0) eqn:Hk.
  - apply Z.eqb_eq in Hk.
    destruct new as [|t1 [|t2 rest]]; cbn [List.length] in Hlen; try lia.
    destruct (late_success_gate s1 t1 t2 rest) as (s & Hrun & Hgate & Hs & Hl);
      try reflexivity; try assumption.
    { subst s1. cbn [Race.args]. rewrite HF1, HA1. unfold uint8_t. lia. }
    exists s. split; [exact Hrun|]. split; [exact Hgate|]. split.
    + rewrite Hl, Hlog1. reflexivity.
    + unfold Race.outstanding. rewrite Hs. lia.
  - apply Z.eqb_neq in Hk.
    assert (Hkpos : 0 < Z.of_nat n mod 256 < 256) by modlia.
    destruct (Z.to_nat (Z.of_nat n mod 256)) as [|m] eqn:Hm; [lia|].
    replace (repeat Scripts.cancel (S m)) with (repeat Scripts.cancel m ++ [Scripts.cancel]).
    2: { symmetry. apply (repeat_cons m Scripts.cancel). }
    rewrite run_app.
    destruct (quiet_cancels m s1) as
      (s' & Hrun & Hf' & Hsc' & HF' & HA' & HR' & Hsched' & Hconn' & Hlog');
      try reflexivity; try assumption.
    { subst s1. cbn [Race.args]. rewrite HF1. lia. }
    { subst s1. cbn [Race.args]. rewrite HF1, HA1. unfold uint8_t. lia. }
    { subst s1. cbn [Race.args]. rewrite HF1, HA1, Hrc1. unfold uint8_t, uint32_t. modlia. }
    { subst s1. cbn [Race.scheduled]. lia. }
    rewrite Hrun. cbn [Race.run].
    subst s1. cbn [Race.args Race.scheduled Race.connecting Race.log] in *.
    rewrite HF1 in HF'. rewrite HA1 in HA'.
    assert (Hskip : (m < List.length new)%nat) by lia.
    destruct (skipn m new) as [|td rest] eqn:Hsk.
    { pose proof (length_skipn m new) as Hl. rewrite Hsk in Hl. cbn in Hl. lia. }
    destruct (last_cancel s' td rest Hf' Hsched' Hsc') as (s & Hstep & Hgate & Hs & Hl).
    { rewrite HF', HA'. unfold uint8_t. modlia. }
    rewrite Hstep. exists s. split; [reflexivity|]. split; [exact Hgate|]. split.
    + rewrite Hl, Hlog', Hlog1. reflexivity.
    + unfold Race.outstanding. rewrite Hs.
      pose proof (length_skipn m new) as Hl'. rewrite Hsk in Hl'. cbn [List.length] in Hl'.
      lia.
Qed.

End Wrap.



Lemma many_addresses_not_empty : Examples.many_addresses <> [].
Proof. discriminate. Defined.

(** C10 at a concrete input: the resolver gives 256 addresses, every
    allocation succeeds; [addresses_count] is 0, and after a late success
    the setup callback is delivered with error code 0 while attempts are
    outstanding. *)
Lemma C10_addresses_count_is_reduced_modulo_256_witness :
  Client.addresses_count
    (state (Client.s_on_host_resolved 0 Examples.many_addresses 7%nat
              Examples.every_allocation_succeeds 0 (Race.args Examples.race_start))) = 0 /\
  exists s1 s,
    Race.step 2 (Race.HostResolved 0 Examples.many_addresses 7%nat
                   Examples.every_allocation_succeeds 0) Examples.race_start = Some s1 /\
    Race.run 2 (Scripts.early_gate 256) s1 = Some s /\
    filter is_setup_callback (Race.log s) = [SetupCallback 0 None] /\
    (0 < Race.outstanding s)%nat.
Proof.
  destruct (C10_addresses_count_is_reduced_modulo_256 2 false "example.com" 443
              Examples.stream_ipv4 None Examples.all_succeed Examples.race_start
              Examples.many_addresses 7%nat Examples.every_allocation_succeeds 0
              eq_refl eq_refl many_addresses_not_empty) as [H1 H2].
  split; [exact H1|].
  destruct (H2 eq_refl) as (s1 & Hstep & _ & _ & _ & _ & Hbig).
  destruct (Hbig eq_refl) as (_ & s & Hrun & _ & Hlog & Hout).
  exists s1, s. repeat split; assumption.
Defined.

(** ** Every state of a listener *)

Section ListenerProofs.

Import Server ServerForms ServerRuns ListenerInv.

Variable AWS_ERROR_UNKNOWN : Z.
Variable offsetof_listener : Z.

Lemma calls_of_app id l1 l2 :
  Listener.calls_of id (l1 ++ l2) = Listener.calls_of id l1 ++ Listener.calls_of id l2.
Proof. unfold Listener.calls_of. rewrite filter_app, map_app. reflexivity. Qed.

Lemma calls_of_tag id j tr :
  Listener.calls_of id (Listener.tag (Some j) tr) = if Nat.eqb j id then tr else [].
Proof.
  unfold Listener.calls_of, Listener.tag.
  induction tr as [|x tr IH]; cbn [map filter fst].
  - destruct (Nat.eqb j id); reflexivity.
  - destruct (Nat.eqb j id); cbn [map snd]; rewrite IH; reflexivity.
Qed.

Lemma calls_of_tag_none id tr : Listener.calls_of id (Listener.tag None tr) = [].
Proof.
  unfold Listener.calls_of, Listener.tag.
  induction tr as [|x tr IH]; [reflexivity|exact IH].
Qed.

Lemma all_calls_app l1 l2 :
  Listener.all_calls (l1 ++ l2) = Listener.all_calls l1 ++ Listener.all_calls l2.
Proof. apply map_app. Qed.

Lemma all_calls_tag id tr : Listener.all_calls (Listener.tag id tr) = tr.
Proof.
  unfold Listener.all_calls, Listener.tag. rewrite map_map. cbn [snd]. apply map_id.
Qed.

Lemma listener_shutdown_requested_app l1 l2 :
  filter is_channel_shutdown l1 = [] ->
  Listener.shutdown_requested (l1 ++ l2) = Listener.shutdown_requested l2.
Proof.
  induction l1 as [|x l1 IH]; [reflexivity|].
  destruct x; cbn; try exact IH. discriminate.
Qed.

Ltac slot_cases :=
  let e := fresh "e" in
  intros e; destruct e; try reflexivity; try discriminate;
  match goal with o : object |- _ => destruct o; try reflexivity; discriminate end.

Lemma slots_no_incoming slots :
  forallb is_slot_call slots = true -> filter is_incoming_callback slots = [].
Proof. apply filter_slots. slot_cases. Qed.

Lemma slots_no_shutdown slots :
  forallb is_slot_call slots = true -> filter is_channel_shutdown slots = [].
Proof. apply filter_slots. slot_cases. Qed.

Lemma slots_no_data_free slots :
  forallb is_slot_call slots = true -> filter is_channel_data_free slots = [].
Proof. apply filter_slots. slot_cases. Qed.

Lemma slots_no_args_free slots :
  forallb is_slot_call slots = true -> filter is_server_args_free slots = [].
Proof. apply filter_slots. slot_cases. Qed.

Lemma slots_no_destroy slots :
  forallb is_slot_call slots = true -> filter is_destroy_callback slots = [].
Proof. apply filter_slots. slot_cases. Qed.

Lemma existsb_as_filter (p : effect -> bool) tr :
  existsb p tr = match filter p tr with [] => false | _ :: _ => true end.
Proof.
  induction tr as [|x tr IH]; [reflexivity|].
  cbn. destruct (p x); [reflexivity|exact IH].
Qed.

Lemma release_calls_destroy a :
  filter is_destroy_callback (release_calls a) =
  if (ref_count a =? 1) && destroy_callback a then [DestroyCallback] else [].
Proof.
  unfold release_calls. destruct (ref_count a =? 1); [|reflexivity].
  destruct (destroy_callback a), (use_tls a); reflexivity.
Qed.

Lemma release_calls_free a :
  filter is_server_args_free (release_calls a) =
  if ref_count a =? 1 then [MemRelease ObjServerArgs] else [].
Proof.
  unfold release_calls. destruct (ref_count a =? 1); [|reflexivity].
  destruct (destroy_callback a), (use_tls a); reflexivity.
Qed.

Lemma acquire_calls_quiet p a :
  p BootstrapAcquire = false -> filter p (acquire_calls a) = [].
Proof.
  intros H. unfold acquire_calls. destruct (ref_count a =? 0); cbn; rewrite ?H; reflexivity.
Qed.

(** One callback of a connection and the connection's own record. *)
Lemma conn_inv_after s id0 ph x a d tr :
  conn_ok (Some {| Listener.phase := ph; Listener.data := d |})
    (incoming_of id0 s ++ filter is_incoming_callback tr) ->
  (forall id, conn_inv id s) ->
  forall id, conn_inv id (Listener.after_callback s id0 ph (x, (a, d), tr)).
Proof.
  intros Hnew Hinv id. unfold conn_inv, incoming_of, Listener.after_callback.
  cbn [Listener.conns Listener.log]. unfold Listener.update.
  rewrite calls_of_app, calls_of_tag, filter_app.
  destruct (Nat.eqb id id0) eqn:E.
  - apply Nat.eqb_eq in E. subst id0. rewrite Nat.eqb_refl. exact Hnew.
  - rewrite Nat.eqb_sym, E. cbn [filter]. rewrite app_nil_r. apply Hinv.
Qed.

(** One callback and the listener's state. *)
Lemma lifetime_after destroy loop s x a' tr s' :
  Listener.freed s = false ->
  ref_step (Listener.args s) a' tr ->
  Listener.args s' = a' ->
  Listener.freed s' = Listener.args_freed tr ->
  Listener.base s' = Listener.base s ->
  (forall q, In q (Listener.destroy_tasks s') ->
             In q (Listener.destroy_tasks s) \/ q = Listener.base s) ->
  Listener.log s' = Listener.log s ++ Listener.tag x tr ->
  lifetime_inv destroy loop s -> lifetime_inv destroy loop s'.
Proof.
  intros Hf Hstep Hargs Hfreed Hbase Htasks Hlog (Hd & Hl & Hcount & _ & Hq).
  rewrite Hf in Hcount. cbn [andb] in Hcount.
  unfold lifetime_inv.
  rewrite Hargs, Hfreed, Hbase, Hlog, all_calls_app, all_calls_tag, filter_app, Hcount.
  cbn [app]. unfold Listener.args_freed. rewrite existsb_as_filter.
  assert (Hq' : forall q, In q (Listener.destroy_tasks s') -> q = Listener.base s).
  { intros q Hin. destruct (Htasks q Hin) as [H | H]; [apply Hq; exact H | exact H]. }
  destruct Hstep as [-> Hq1 Hq2 | -> Hq1 Hq2 | before Hb -> Hq1 Hq2].
  - rewrite Hq1, Hq2. repeat split; auto. discriminate.
  - rewrite Hq1, Hq2. repeat split; auto. discriminate.
  - rewrite Hq1, Hq2, release_calls_destroy, release_calls_free.
    assert (Hdb : destroy_callback before = destroy).
    { destruct Hb as [-> | ->]; exact Hd. }
    assert (Hlb : listener_event_loop before = Some loop).
    { destruct Hb as [-> | ->]; exact Hl. }
    rewrite Hdb.
    destruct (ref_count before =? 1) eqn:Hr; cbn [andb]; repeat split; auto.
    + intros _. apply Z.eqb_eq in Hr. cbn [released ref_count set_ref_count]. rewrite Hr.
      reflexivity.
    + discriminate.
Qed.

Lemma setup_completed_outcome c e r last_error a d :
  incoming_called d = false ->
  exists a' d' tr,
    s_on_server_channel_on_setup_completed c e r last_error (a, d) = (tt, (a', d'), tr) /\
    ref_step a a' tr /\
    conn_ok (Some {| Listener.phase := Listener.phase_after c d' tr; Listener.data := d' |})
      (filter is_incoming_callback tr).
Proof.
  intros Hd. destruct (nonzero e) eqn:He.
  - rewrite (setup_failed_run c e r last_error a d He).
    unfold setup_failed_state, setup_failed_calls, socket_calls.
    eexists _, _, _. split; [reflexivity|]. split.
    + apply (RefReleased _ _ _ a); [left; reflexivity | reflexivity | reflexivity | reflexivity].
    + cbn. rewrite Quiet.server_release by reflexivity.
      exists e, None. auto.
  - destruct (setup_ok_run c e r last_error a d He) as (slots & Hs & Hrun).
    rewrite Hrun.
    pose proof (slots_no_incoming slots Hs) as H1.
    pose proof (slots_no_shutdown slots Hs) as H2.
    pose proof (slots_no_data_free slots Hs) as H3.
    pose proof (slots_no_args_free slots Hs) as H4.
    pose proof (slots_no_destroy slots Hs) as H5.
    destruct (server_setup_outcome r a); eexists _, _, _; (split; [reflexivity|]); split.
    + apply RefKept; [reflexivity| |]; rewrite filter_app; [rewrite H5 | rewrite H4]; reflexivity.
    + unfold Listener.phase_after, Listener.data_freed.
      rewrite existsb_as_filter, !filter_app, H3, H1, listener_shutdown_requested_app by exact H2.
      cbn. auto.
    + apply RefKept; [reflexivity|exact H5|exact H4].
    + unfold Listener.phase_after, Listener.data_freed.
      rewrite existsb_as_filter, H3, H1, (Quiet.listener_shutdown_requested slots H2), Hd.
      cbn. auto.
    + apply RefKept; [reflexivity| |]; rewrite filter_app; [rewrite H5 | rewrite H4]; reflexivity.
    + unfold Listener.phase_after, Listener.data_freed.
      rewrite existsb_as_filter, !filter_app, H3, H1, listener_shutdown_requested_app by exact H2.
      cbn. auto.
Qed.

Lemma negotiation_outcome c e a d :
  incoming_called d = false ->
  exists a' d' tr,
    s_tls_server_on_negotiation_result c e (a, d) = (tt, (a', d'), tr) /\
    ref_step a a' tr /\
    conn_ok (Some {| Listener.phase := Listener.phase_after c d' tr; Listener.data := d' |})
      (filter is_incoming_callback tr).
Proof.
  intros Hd. rewrite server_negotiation_result_run.
  unfold negotiation_state, negotiation_calls.
  eexists _, _, _. split; [reflexivity|].
  destruct (nonzero e) eqn:He; destruct (user_on_negotiation_result a); split;
    try (apply RefKept; reflexivity);
    unfold Listener.phase_after; cbn; rewrite ?Hd; auto.
  - unfold nonzero in He. destruct (e =? 0) eqn:E; [|discriminate].
    apply Z.eqb_eq in E. subst e. auto.
  - unfold nonzero in He. destruct (e =? 0) eqn:E; [|discriminate].
    apply Z.eqb_eq in E. subst e. auto.
Qed.

Lemma shutdown_outcome c e a d delivered :
  (incoming_called d = false /\ delivered = []) \/
  (incoming_called d = true /\ exists c0, delivered = [IncomingCallback 0 (Some c0)]) ->
  exists a' d' tr,
    s_on_server_channel_on_shutdown AWS_ERROR_UNKNOWN c e (a, d) = (tt, (a', d'), tr) /\
    ref_step a a' tr /\
    conn_ok (Some {| Listener.phase := Listener.Closed; Listener.data := d' |})
      (delivered ++ filter is_incoming_callback tr).
Proof.
  intros Hold. rewrite server_on_shutdown_run.
  unfold on_shutdown_state, on_shutdown_calls, socket_calls.
  eexists _, _, _. split; [reflexivity|]. split.
  - apply (RefReleased _ _ _ a); [left; reflexivity | reflexivity | |];
      destruct (incoming_called d); cbn; rewrite !filter_app; cbn; rewrite app_nil_r;
      reflexivity.
  - destruct Hold as [[Hd ->] | [Hd (c0 & ->)]]; rewrite Hd; cbn;
      rewrite filter_app, Quiet.server_release by reflexivity; cbn.
    + exists (or_unknown AWS_ERROR_UNKNOWN e), None. auto.
    + exists 0, (Some c0). auto.
Qed.

Lemma connection_result_outcome e new_socket r last_error a :
  exists cd a' tr,
    s_on_server_connection_result e new_socket r last_error a = (cd, a', tr) /\
    ref_step a a' tr /\
    match cd, new_channel r with
    | Some d, Some c =>
        incoming_called d = false /\ filter is_incoming_callback tr = []
    | _, _ =>
        filter is_incoming_callback tr = [IncomingCallback (accept_error e last_error) None]
    end.
Proof.
  destruct (connection_result_run e new_socket r last_error a)
    as (pre & post & Hpre & Hpost & Hrun).
  rewrite Hrun.
  assert (P1 : forall x, is_accept_call x = true -> is_incoming_callback x = false)
    by (intros x; destruct x; try reflexivity; discriminate).
  assert (P2 : forall x, is_accept_call x = true -> is_destroy_callback x = false)
    by (intros x; destruct x; try reflexivity; discriminate).
  assert (P3 : forall x, is_accept_call x = true -> is_server_args_free x = false).
  { intros x; destruct x; try reflexivity; try discriminate.
    destruct o; try reflexivity; discriminate. }
  pose proof (filter_accept_calls _ pre P1 Hpre) as I1.
  pose proof (filter_accept_calls _ pre P2 Hpre) as I2.
  pose proof (filter_accept_calls _ pre P3 Hpre) as I3.
  pose proof (filter_accept_calls _ post P1 Hpost) as J1.
  pose proof (filter_accept_calls _ post P2 Hpost) as J2.
  pose proof (filter_accept_calls _ post P3 Hpost) as J3.
  destruct (accept_ok e r) eqn:Hok.
  - eexists _, _, _. split; [reflexivity|]. split.
    + apply RefAcquired; [reflexivity| |];
        rewrite filter_app, acquire_calls_quiet by reflexivity; assumption.
    + unfold accept_ok in Hok. destruct (new_channel r).
      * split; [reflexivity|].
        rewrite filter_app, acquire_calls_quiet by reflexivity. assumption.
      * rewrite andb_false_r in Hok. discriminate.
  - eexists _, _, _. split; [reflexivity|]. split.
    + apply (RefReleased _ _ _ (acquired a)); [right; reflexivity | reflexivity | |];
        rewrite !filter_app, acquire_calls_quiet by reflexivity;
        rewrite ?I2, ?I3, ?J2, ?J3; reflexivity.
    + rewrite !filter_app, acquire_calls_quiet, I1, J1 by reflexivity.
      rewrite Quiet.server_release by reflexivity. reflexivity.
Qed.

(** Every step keeps what holds of the listener's state and of each
    connection. *)
Lemma step_preserves destroy loop ev s s' :
  lifetime_inv destroy loop s ->
  (forall id, conn_inv id s) ->
  Listener.step AWS_ERROR_UNKNOWN offsetof_listener ev s = Some s' ->
  lifetime_inv destroy loop s' /\ (forall id, conn_inv id s').
Proof.
  intros Hlife Hconn Hstep. unfold Listener.step in Hstep.
  destruct (Listener.freed s) eqn:Hf; [discriminate|].
  destruct ev as [id0 e new_socket r last_error | id0 e r last_error | id0 e | id0 e
                 | listener | ].
  - (* s_on_server_connection_result *)
    destruct (Listener.conns s id0) eqn:Hc; [discriminate|].
    destruct (Listener.accepting s); [|discriminate].
    destruct (connection_result_outcome e new_socket r last_error (Listener.args s))
      as (cd & a' & tr & Hrun & Href & Hin).
    rewrite Hrun in Hstep. injection Hstep as <-. split.
    + eapply lifetime_after with (x := Some id0) (tr := tr); try eassumption;
        try reflexivity. cbn. auto.
    + pose proof (Hconn id0) as H0. unfold conn_inv in H0. rewrite Hc in H0. cbn in H0.
      intros id. unfold conn_inv, incoming_of. cbn [Listener.conns Listener.log].
      unfold Listener.update. rewrite calls_of_app, calls_of_tag, filter_app.
      destruct (Nat.eqb id id0) eqn:E.
      * apply Nat.eqb_eq in E. subst id0. rewrite Nat.eqb_refl.
        fold (incoming_of id s). rewrite H0. cbn [app].
        destruct cd as [d|]; destruct (new_channel r) as [c|]; cbn.
        -- exact Hin.
        -- exists (accept_error e last_error), None. auto.
        -- exists (accept_error e last_error), None. auto.
        -- exists (accept_error e last_error), None. auto.
      * rewrite Nat.eqb_sym, E. cbn [filter]. rewrite app_nil_r. apply Hconn.
  - (* s_on_server_channel_on_setup_completed *)
    pose proof (Hconn id0) as H0. unfold conn_inv in H0.
    destruct (Listener.conns s id0) as [[ph d]|]; [|discriminate].
    destruct ph; try discriminate. cbn in H0. destruct H0 as [Hd Hdel].
    destruct (setup_completed_outcome c e r last_error (Listener.args s) d Hd)
      as (a' & d' & tr & Hrun & Href & Hok).
    rewrite Hrun in Hstep. cbn [state trace fst snd] in Hstep. injection Hstep as <-. split.
    + eapply lifetime_after with (x := Some id0) (tr := tr); try eassumption;
        try reflexivity. cbn. auto.
    + apply (conn_inv_after s id0 _ tt a' d' tr); [|exact Hconn]. rewrite Hdel. exact Hok.
  - (* s_tls_server_on_negotiation_result *)
    pose proof (Hconn id0) as H0. unfold conn_inv in H0.
    destruct (Listener.conns s id0) as [[ph d]|]; [|discriminate].
    destruct ph; try discriminate. cbn in H0. destruct H0 as [Hd Hdel].
    destruct (negotiation_outcome c e (Listener.args s) d Hd)
      as (a' & d' & tr & Hrun & Href & Hok).
    rewrite Hrun in Hstep. cbn [state trace fst snd] in Hstep. injection Hstep as <-. split.
    + eapply lifetime_after with (x := Some id0) (tr := tr); try eassumption;
        try reflexivity. cbn. auto.
    + apply (conn_inv_after s id0 _ tt a' d' tr); [|exact Hconn]. rewrite Hdel. exact Hok.
  - (* s_on_server_channel_on_shutdown *)
    pose proof (Hconn id0) as H0. unfold conn_inv in H0.
    destruct (Listener.conns s id0) as [[ph d]|]; [|discriminate].
    assert (Hold : exists c,
               (match ph with
                | Listener.Negotiating c0 | Listener.Live c0 => Some c0
                | Listener.ShuttingDown c0 err => if e =? err then Some c0 else None
                | _ => None
                end = Some c) /\
               ((incoming_called d = false /\ incoming_of id0 s = []) \/
                (incoming_called d = true /\
                 exists c0, incoming_of id0 s = [IncomingCallback 0 (Some c0)]))).
    { destruct ph as [c|c|c|c err|]; cbn in H0; try discriminate.
      - exists c. split; [reflexivity|]. left. exact H0.
      - exists c. split; [reflexivity|]. right. destruct H0 as [H1 H2]. eauto.
      - destruct (e =? err); [|discriminate]. exists c. split; [reflexivity|]. left. exact H0. }
    destruct Hold as (c & Hen & Hold). rewrite Hen in Hstep.
    destruct (shutdown_outcome c e (Listener.args s) d (incoming_of id0 s) Hold)
      as (a' & d' & tr & Hrun & Href & Hok).
    rewrite Hrun in Hstep. injection Hstep as <-. split.
    + eapply lifetime_after with (x := Some id0) (tr := tr); try eassumption;
        try reflexivity. cbn. auto.
    + apply (conn_inv_after s id0 _ tt a' d' tr); [exact Hok|exact Hconn].
  - (* aws_server_bootstrap_destroy_socket_listener *)
    destruct (Listener.destroy_called s); [discriminate|].
    unfold aws_server_bootstrap_destroy_socket_listener, Listener.heap in Hstep.
    rewrite Hf in Hstep. cbn [negb] in Hstep. rewrite andb_true_r in Hstep.
    destruct (AWS_CONTAINER_OF listener offsetof_listener =? Listener.base s) eqn:Hb;
      [|discriminate].
    apply Z.eqb_eq in Hb.
    destruct Hlife as (Hd & Hl & Hrest). rewrite Hl in Hstep.
    injection Hstep as <-. split.
    + eapply lifetime_after with (x := @None nat)
        (tr := [ScheduleListenerDestroyTask loop (AWS_CONTAINER_OF listener offsetof_listener)]);
        [ exact Hf | apply RefKept; reflexivity | reflexivity | reflexivity | reflexivity
        | | reflexivity | exact (conj Hd (conj Hl Hrest)) ].
      cbn [Listener.destroy_tasks flat_map app]. intros q Hin.
      apply in_app_or in Hin. destruct Hin as [Hin | [<- | []]]; auto.
    + intros id. unfold conn_inv, incoming_of. cbn [Listener.conns Listener.log].
      rewrite calls_of_app.
      change [(@None nat, ScheduleListenerDestroyTask loop
                            (AWS_CONTAINER_OF listener offsetof_listener))]
        with (Listener.tag None [ScheduleListenerDestroyTask loop
                                   (AWS_CONTAINER_OF listener offsetof_listener)]).
      rewrite calls_of_tag_none, app_nil_r. apply Hconn.
  - (* s_listener_destroy_task *)
    destruct (Listener.destroy_tasks s) as [|arg rest] eqn:Ht; [discriminate|].
    unfold Listener.heap in Hstep. rewrite Hf in Hstep.
    destruct (arg =? Listener.base s); cbn [andb negb] in Hstep; [|discriminate].
    rewrite listener_destroy_task_run in Hstep. injection Hstep as <-. split.
    + eapply lifetime_after with (x := @None nat)
        (tr := [ListenerStopAccept; ListenerCleanUp] ++ release_calls (Listener.args s));
        [ exact Hf
        | apply (RefReleased _ _ _ (Listener.args s));
            [left; reflexivity | reflexivity | reflexivity | reflexivity]
        | reflexivity | reflexivity | reflexivity | | reflexivity | exact Hlife ].
      cbn [Listener.destroy_tasks]. intros q Hin. left. rewrite Ht. right. exact Hin.
    + intros id. unfold conn_inv, incoming_of. cbn [Listener.conns Listener.log].
      match goal with
      | |- context [Listener.calls_of id (Listener.log s ++ ?l)] =>
          change l with (Listener.tag None ([ListenerStopAccept; ListenerCleanUp] ++
                                            release_calls (Listener.args s)))
      end.
      rewrite calls_of_app, calls_of_tag_none, app_nil_r. apply Hconn.
Qed.

Lemma run_preserves destroy loop evs :
  forall s s',
    lifetime_inv destroy loop s ->
    (forall id, conn_inv id s) ->
    Listener.run AWS_ERROR_UNKNOWN offsetof_listener evs s = Some s' ->
    lifetime_inv destroy loop s' /\ (forall id, conn_inv id s').
Proof.
  induction evs as [|ev evs IH]; intros s s' Hl Hc Hrun.
  - injection Hrun as <-. auto.
  - cbn [Listener.run] in Hrun.
    destruct (Listener.step AWS_ERROR_UNKNOWN offsetof_listener ev s) as [s1|] eqn:Hstep;
      [|discriminate].
    destruct (step_preserves destroy loop ev s s1 Hl Hc Hstep) as [Hl1 Hc1].
    exact (IH s1 s' Hl1 Hc1 Hrun).
Qed.

Lemma step_keeps_base ev s s' :
  Listener.step AWS_ERROR_UNKNOWN offsetof_listener ev s = Some s' ->
  Listener.base s' = Listener.base s.
Proof.
  unfold Listener.step. destruct (Listener.freed s); [discriminate|].
  destruct ev as [id0 e new_socket r last_error | id0 e r last_error | id0 e | id0 e
                 | listener | ].
  - destruct (Listener.conns s id0); [discriminate|].
    destruct (Listener.accepting s); [|discriminate].
    destruct (s_on_server_connection_result e new_socket r last_error (Listener.args s))
      as [[cd a] tr].
    intros H. injection H as <-. reflexivity.
  - destruct (Listener.conns s id0) as [[ph d]|]; [|discriminate].
    destruct ph; try discriminate.
    destruct (s_on_server_channel_on_setup_completed c e r last_error (Listener.args s, d))
      as [[x [a d']] tr].
    intros H. injection H as <-. reflexivity.
  - destruct (Listener.conns s id0) as [[ph d]|]; [|discriminate].
    destruct ph; try discriminate.
    destruct (s_tls_server_on_negotiation_result c e (Listener.args s, d)) as [[x [a d']] tr].
    intros H. injection H as <-. reflexivity.
  - destruct (Listener.conns s id0) as [[ph d]|]; [|discriminate].
    destruct (match ph with
              | Listener.Negotiating c | Listener.Live c => Some c
              | Listener.ShuttingDown c err => if e =? err then Some c else None
              | _ => None
              end) as [c|]; [|discriminate].
    destruct (s_on_server_channel_on_shutdown AWS_ERROR_UNKNOWN c e (Listener.args s, d))
      as [[x [a d']] tr].
    intros H. injection H as <-. reflexivity.
  - destruct (Listener.destroy_called s); [discriminate|].
    destruct (aws_server_bootstrap_destroy_socket_listener offsetof_listener (Listener.heap s)
                listener) as [[rc tr]|]; [|discriminate].
    intros H. injection H as <-. reflexivity.
  - destruct (Listener.destroy_tasks s) as [|arg rest]; [discriminate|].
    destruct (Listener.heap s arg) as [a0|]; [|discriminate].
    destruct (s_listener_destroy_task a0) as [[x a] tr].
    intros H. injection H as <-. reflexivity.
Qed.

Lemma run_keeps_base evs :
  forall s s',
    Listener.run AWS_ERROR_UNKNOWN offsetof_listener evs s = Some s' ->
    Listener.base s' = Listener.base s.
Proof.
  induction evs as [|ev evs IH]; intros s s' Hrun.
  - injection Hrun as <-. reflexivity.
  - cbn [Listener.run] in Hrun.
    destruct (Listener.step AWS_ERROR_UNKNOWN offsetof_listener ev s) as [s1|] eqn:Hstep;
      [|discriminate].
    rewrite (IH s1 s' Hrun). exact (step_keeps_base ev s s1 Hstep).
Qed.

(** The state a listener starts from. *)
Lemma started_listening pn co destroy r listener s0 :
  Listener.started offsetof_listener pn co destroy r = Some (listener, s0) ->
  AWS_CONTAINER_OF listener offsetof_listener = Listener.base s0 /\
  lifetime_inv destroy (connection_loop r) s0 /\
  (forall id, conn_inv id s0) /\
  Listener.freed s0 = false /\
  ref_count (Listener.args s0) = 1.
Proof.
  unfold Listener.started, s_server_new_socket_listener, new_socket_listener_body.
  destruct (args_alloc r) as [p|]; [|discriminate].
  destruct co as [co|]; destruct (tls_options_copy r), (listener_init r), (listener_bind r),
    (listener_listen r), (listener_start_accept r), destroy; cbn; try discriminate;
    intros H; injection H as <- <-; cbn;
    (split; [unfold AWS_CONTAINER_OF; lia|]);
    (split; [unfold lifetime_inv; cbn; repeat split; try discriminate; intros q []|]);
    (split; [intros id; reflexivity|]); split; reflexivity.
Qed.

Lemma ref_count_after_release a :
  ref_count (state (s_server_connection_args_release a)) = size_t (ref_count a - 1) /\
  filter is_destroy_callback (trace (s_server_connection_args_release a)) =
    (if (ref_count a =? 1) && destroy_callback a then [DestroyCallback] else []).
Proof. rewrite server_release_run. split; [reflexivity|apply release_calls_destroy]. Qed.

(** C7: for a listener returned by [s_server_new_socket_listener], the
    address of the owning state is the listener pointer minus the offset of
    the [listener] field.  In every state the listener reaches while the
    state is allocated, every call of
    [aws_server_bootstrap_destroy_socket_listener] with that pointer
    schedules, on the event loop the listener accepts on, one task whose
    argument is that address; the first such call is a step of the system
    that queues the task and changes nothing else; a scheduled task,
    when it runs, stops accepting, cleans up the listener socket and gives
    back one reference.  A release invokes the destroy callback exactly
    when it takes the reference count from 1 to 0 and a callback was
    supplied.  Over the whole life of the listener the destroy callback
    is invoked once if the state was released and a callback was supplied,
    and never otherwise; a released state has reference count 0 and takes
    no further step. *)
Theorem C7_listener_destruction
    (pn : bool) (co : option tls_connection_options) (destroy : bool) (r : listener_results)
    (listener : Z) (s0 : Listener.system) (evs : list Listener.event) (s : Listener.system) :
  Listener.started offsetof_listener pn co destroy r = Some (listener, s0) ->
  Listener.run AWS_ERROR_UNKNOWN offsetof_listener evs s0 = Some s ->
  AWS_CONTAINER_OF listener offsetof_listener = Listener.base s /\
  (Listener.freed s = false ->
   aws_server_bootstrap_destroy_socket_listener offsetof_listener (Listener.heap s) listener =
     Some (AWS_OP_SUCCESS,
           [ScheduleListenerDestroyTask (connection_loop r) (Listener.base s)])) /\
  (Listener.freed s = false -> Listener.destroy_called s = false ->
   exists s1,
     Listener.step AWS_ERROR_UNKNOWN offsetof_listener (Listener.DestroySocketListener listener) s
       = Some s1 /\
     Listener.destroy_tasks s1 = Listener.destroy_tasks s ++ [Listener.base s] /\
     Listener.log s1 =
       Listener.log s ++
       [(None, ScheduleListenerDestroyTask (connection_loop r) (Listener.base s))] /\
     Listener.args s1 = Listener.args s /\ Listener.freed s1 = false) /\
  (Listener.freed s = false -> Listener.destroy_tasks s <> [] ->
   exists s2,
     Listener.step AWS_ERROR_UNKNOWN offsetof_listener Listener.ListenerDestroyTask s = Some s2 /\
     Listener.log s2 =
       Listener.log s ++
       Listener.tag None ([ListenerStopAccept; ListenerCleanUp] ++
                          trace (s_server_connection_args_release (Listener.args s))) /\
     Listener.accepting s2 = false /\
     ref_count (Listener.args s2) = size_t (ref_count (Listener.args s) - 1) /\
     Listener.freed s2 = (ref_count (Listener.args s) =? 1)) /\
  (forall a,
     ref_count (state (s_server_connection_args_release a)) = size_t (ref_count a - 1) /\
     filter is_destroy_callback (trace (s_server_connection_args_release a)) =
       (if (ref_count a =? 1) && destroy_callback a then [DestroyCallback] else [])) /\
  filter is_destroy_callback (Listener.all_calls (Listener.log s)) =
    (if Listener.freed s && destroy then [DestroyCallback] else []) /\
  (Listener.freed s = true ->
   ref_count (Listener.args s) = 0 /\
   forall ev, Listener.step AWS_ERROR_UNKNOWN offsetof_listener ev s = None).
Proof.
  intros Hstart Hrun.
  destruct (started_listening pn co destroy r listener s0 Hstart) as (Hb & Hl & Hc & _).
  destruct (run_preserves destroy (connection_loop r) evs s0 s Hl Hc Hrun)
    as [(Hd & Hloop & Hcount & Hzero & Htasks) _].
  pose proof (run_keeps_base evs s0 s Hrun) as Hbase.
  rewrite <- Hbase in Hb.
  split; [exact Hb|]. split; [|split; [|split; [|split; [|split]]]].
  - intros Hf. unfold aws_server_bootstrap_destroy_socket_listener, Listener.heap.
    rewrite Hb, Z.eqb_refl, Hf. cbn [andb negb]. rewrite Hloop. reflexivity.
  - intros Hf Hdc. unfold Listener.step. rewrite Hf, Hdc.
    unfold aws_server_bootstrap_destroy_socket_listener, Listener.heap.
    rewrite Hb, Z.eqb_refl, Hf. cbn [andb negb]. rewrite Hloop.
    eexists. split; [reflexivity|]. cbn. auto.
  - intros Hf Hne. unfold Listener.step. rewrite Hf.
    destruct (Listener.destroy_tasks s) as [|arg rest] eqn:Ht; [congruence|].
    assert (Harg : arg = Listener.base s) by (apply Htasks; left; reflexivity).
    unfold Listener.heap. rewrite Harg, Z.eqb_refl, Hf. cbn [andb negb].
    rewrite listener_destroy_task_run, server_release_run.
    eexists. split; [reflexivity|].
    cbn [Listener.log Listener.accepting Listener.args Listener.freed trace snd].
    split; [reflexivity|]. split.
    { cbn. apply andb_false_r. }
    split; [reflexivity|].
    unfold Listener.args_freed. rewrite existsb_as_filter. cbn [app filter is_server_args_free].
    rewrite release_calls_free. destruct (ref_count (Listener.args s) =? 1); reflexivity.
  - exact ref_count_after_release.
  - exact Hcount.
  - intros Hf. split; [exact (Hzero Hf)|].
    intros ev. unfold Listener.step. rewrite Hf. reflexivity.
Qed.

End ListenerProofs.

(** C7 at a concrete input: the listener is destroyed while a connection
    is open; the destroy callback fires when the connection closes. *)
Lemma C7_listener_destruction_witness :
  match Listener.run 2 64 Examples.destroy_then_close Examples.listener_start with
  | Some s =>
      Server.AWS_CONTAINER_OF 4160 64 = Listener.base s /\
      Listener.freed s = true /\
      filter is_destroy_callback (Listener.all_calls (Listener.log s)) = [DestroyCallback]
  | None => False
  end.
Proof.
  eassert (Hrun : Listener.run 2 64 Examples.destroy_then_close Examples.listener_start =
                  Some _)
    by (vm_compute; reflexivity).
  rewrite Hrun.
  pose proof (C7_listener_destruction 2 64 false None true Examples.listener_succeeds 4160
                Examples.listener_start Examples.destroy_then_close _ eq_refl Hrun) as H.
  exact (conj (proj1 H) (conj eq_refl (proj1 (proj2 (proj2 (proj2 (proj2 (proj2 H)))))))).
Defined.


(** * Further properties of the bootstrap *)

(** ** Entry points *)

Section EntryPoints.

Import MoreForms.

(** [sizeof(endpoint.address)], from aws-c-io's socket.h. *)
Variable address_size : nat.

(** X1: [s_new_client_channel], called for an IP domain, or for the local
    domain with a socket name that fits [endpoint.address], never invokes
    the user's callbacks itself.  When it returns an error, either no
    state was allocated and no call was made, or the state was released
    again (its reference count is 0 and the last call frees it).  When it
    returns success the state is alive and not yet set up, with one
    reference and a resolution requested for the host name (IP domains),
    or with two references and one connect in flight to the socket that
    was allocated (local domain), the number of addresses being 1. *)
Theorem new_client_channel_outcome
    (pn : bool) (host : string) (port : Z) (o : aws_socket_options)
    (co : option tls_connection_options) (r : Client.new_channel_results) :
  (is_local (opt_domain o) = true -> Client.fits_endpoint address_size host) ->
  let out := Client.s_new_client_channel pn host port o co r in
  let rc := fst (fst out) in
  let tr := snd out in
  user_callbacks tr = [] /\
  match snd (fst out) with
  | None => rc = AWS_OP_ERR /\ tr = []
  | Some a =>
      (rc = AWS_OP_ERR /\ Client.ref_count a = 0 /\
       filter is_client_args_free tr = [MemRelease ObjClientArgs] /\
       last_call tr = Some (MemRelease ObjClientArgs))
      \/
      (rc = AWS_OP_SUCCESS /\ filter is_client_args_free tr = [] /\
       Client.setup_called a = false /\ Client.shutdown_callback a = true /\
       Client.outgoing_port a = port /\ Client.outgoing_options a = o /\
       Client.use_tls (Client.channel_data a) = Client.is_some co /\
       if is_local (opt_domain o) then
         Client.ref_count a = 2 /\ Client.addresses_count a = 1 /\
         exists s, Client.socket_alloc r = Some s /\
                   last_call tr = Some (SocketConnect s host 0 (Client.local_connect_loop r))
       else
         Client.ref_count a = 1 /\ Client.host_name a = Some host /\
         last_call tr = Some (ResolveHost host))
  end.
Proof.
  intros _.
  destruct r as [aa tc hna rh sa lsi lsc lcl].
  destruct o as [t d].
  unfold Client.s_new_client_channel; cbn [Client.args_alloc].
  destruct aa; cbn [negb]; [|cbn; auto].
  destruct co as [co|], d, tc, hna, rh, sa as [s|], lsi, lsc;
    vm_compute; (split; [reflexivity|]);
    first [ left; repeat split; reflexivity
          | right; repeat split; try reflexivity; eexists; split; reflexivity ].
Qed.

(** X2: [s_server_new_socket_listener] never invokes the incoming or the
    shutdown callback.  When it returns NULL, either no state was
    allocated and no call was made, or the state was released again: the
    user's destroy callback, if one was supplied, is invoked once although
    no listener was ever returned, the listener socket is cleaned up
    exactly when it had been initialised, the copied TLS options exactly
    when the copy had succeeded, and the last call frees the state.  When
    it returns a listener, the listener lies at the offset of the
    [listener] field inside the state, the state holds one reference and
    the values passed in, nothing was released and the last call started
    to accept on the chosen event loop. *)
Theorem new_socket_listener_outcome
    (offsetof_listener : Z) (pn : bool) (co : option tls_connection_options)
    (destroy : bool) (r : Server.listener_results) :
  let out := Server.s_server_new_socket_listener offsetof_listener pn co destroy r in
  let tr := snd out in
  filter is_incoming_callback tr = [] /\
  filter is_server_shutdown_callback tr = [] /\
  match fst (fst out), snd (fst out) with
  | None, None => Server.args_alloc r = None /\ tr = []
  | None, Some (p, a) =>
      Server.args_alloc r = Some p /\ Server.ref_count a = 0 /\
      filter is_destroy_callback tr = (if destroy then [DestroyCallback] else []) /\
      filter is_listener_clean_up tr =
        (if (negb (Client.is_some co) || Server.tls_options_copy r) && Server.listener_init r
         then [ListenerCleanUp] else []) /\
      filter is_tls_options_clean_up tr =
        (if Client.is_some co && Server.tls_options_copy r then [TlsOptionsCleanUp] else []) /\
      filter is_bootstrap_reference tr = [BootstrapAcquire; BootstrapRelease] /\
      filter is_server_args_free tr = [MemRelease ObjServerArgs] /\
      last_call tr = Some (MemRelease ObjServerArgs)
  | Some l, Some (p, a) =>
      Server.args_alloc r = Some p /\ l = p + offsetof_listener /\
      Server.ref_count a = 1 /\
      Server.destroy_callback a = destroy /\
      Server.on_protocol_negotiated a = pn /\
      Server.use_tls a = Client.is_some co /\
      Server.listener_event_loop a = Some (Server.connection_loop r) /\
      filter is_destroy_callback tr = [] /\
      filter is_listener_clean_up tr = [] /\
      filter is_bootstrap_reference tr = [BootstrapAcquire] /\
      filter is_server_args_free tr = [] /\
      last_call tr = Some (ListenerStartAccept (Server.connection_loop r))
  | Some _, None => False
  end.
Proof.
  destruct r as [aa tc loop li lb ll lsa].
  unfold Server.s_server_new_socket_listener; cbn [Server.args_alloc].
  destruct aa as [p|]; [|cbn; auto].
  destruct co as [co|], destroy, tc, li, lb, ll, lsa;
    vm_compute; repeat split; reflexivity.
Qed.

End EntryPoints.

(** X1 at a concrete input: a local socket, the size of
    [endpoint.address] being 108; the connect is started. *)
Lemma new_client_channel_outcome_witness :
  Client.fits_endpoint 108 "/tmp/bootstrap.sock" /\
  fst (fst (Client.s_new_client_channel false "/tmp/bootstrap.sock" 0 Examples.stream_local
              None Examples.all_succeed)) = AWS_OP_SUCCESS /\
  MoreForms.user_callbacks
    (snd (Client.s_new_client_channel false "/tmp/bootstrap.sock" 0 Examples.stream_local
            None Examples.all_succeed)) = [].
Proof.
  assert (Hfits : Client.fits_endpoint 108 "/tmp/bootstrap.sock")
    by (unfold Client.fits_endpoint; cbn; lia).
  split; [exact Hfits|]. split; [reflexivity|].
  exact (proj1 (new_client_channel_outcome 108 false "/tmp/bootstrap.sock" 0
                  Examples.stream_local None Examples.all_succeed (fun _ => Hfits))).
Defined.

(** ** Client callbacks *)

Section ClientHandlers.

Import Client ClientForms ClientRuns MoreForms.

Variable AWS_ERROR_UNKNOWN : Z.

Lemma setup_called_setup_state e a : setup_called (setup_state e a) = true.
Proof.
  unfold setup_state, marked, released.
  destruct (setup_called a) eqn:H; [exact H|].
  destruct (nonzero e); reflexivity.
Qed.

Lemma shutdown_callback_setup_state e a :
  shutdown_callback (setup_state e a) =
  if setup_called a then shutdown_callback a else negb (nonzero e) && shutdown_callback a.
Proof.
  unfold setup_state, marked, released.
  destruct (setup_called a); [reflexivity|].
  destruct (nonzero e); reflexivity.
Qed.

Lemma user_callbacks_app l1 l2 :
  user_callbacks (l1 ++ l2) = user_callbacks l1 ++ user_callbacks l2.
Proof. apply filter_app. Qed.

Lemma user_callbacks_release a : user_callbacks (release_calls a) = [].
Proof. apply Quiet.client_release; reflexivity. Qed.

Lemma user_callbacks_setup_calls e ch a :
  user_callbacks (setup_calls e ch a) = if setup_called a then [] else [SetupCallback e ch].
Proof.
  unfold setup_calls. destruct (setup_called a); [reflexivity|].
  unfold user_callbacks. cbn [filter is_user_callback is_setup_callback orb].
  fold (user_callbacks (release_calls (marked e a))).
  rewrite user_callbacks_release. reflexivity.
Qed.

(** X3: the setup callback is delivered at most once:
    [s_connection_args_setup_callback] run a second time, with whatever
    arguments, changes nothing and calls nothing.  A shutdown notification
    that follows a delivery reaches the user's shutdown callback, with its
    error code unchanged, exactly when the setup callback had reported
    error code 0 (a delivery with an error clears the shutdown callback);
    on a state whose setup callback was delivered earlier, the second
    function alone decides. *)
Theorem setup_callback_is_delivered_once e1 c1 e2 c2 e3 c3 a :
  (s_connection_args_setup_callback e1 c1 ;; s_connection_args_setup_callback e2 c2) a =
    s_connection_args_setup_callback e1 c1 a /\
  user_callbacks
    (trace ((s_connection_args_setup_callback e1 c1 ;;
             s_connection_args_shutdown_callback AWS_ERROR_UNKNOWN e3 c3) a)) =
    (if setup_called a then [] else [SetupCallback e1 c1]) ++
    (if shutdown_callback a && (setup_called a || (e1 =? 0))
     then [ShutdownCallback e3 c3] else []).
Proof.
  split.
  - erewrite bind_run by apply setup_callback_run.
    rewrite !setup_callback_run. unfold emit. cbn [result state trace fst snd].
    assert (H1 : setup_state e2 (setup_state e1 a) = setup_state e1 a).
    { unfold setup_state at 1. rewrite setup_called_setup_state. reflexivity. }
    assert (H2 : setup_calls e2 c2 (setup_state e1 a) = []).
    { unfold setup_calls at 1. rewrite setup_called_setup_state. reflexivity. }
    rewrite H1, H2, app_nil_r. reflexivity.
  - erewrite bind_run by apply setup_callback_run.
    rewrite shutdown_callback_run. unfold emit. cbn [result state trace fst snd].
    rewrite user_callbacks_app, user_callbacks_setup_calls. f_equal.
    unfold shutdown_calls. rewrite setup_called_setup_state, shutdown_callback_setup_state.
    unfold nonzero.
    destruct (setup_called a), (shutdown_callback a), (e1 =? 0); reflexivity.
Qed.

Lemma filter_slot_calls p slots :
  (forall e, ServerForms.is_slot_call e = true -> p e = false) ->
  forallb ServerForms.is_slot_call slots = true -> filter p slots = [].
Proof. apply ServerRuns.filter_slots. Qed.

Lemma setup_client_tls_run r a :
  exists slots,
    forallb ServerForms.is_slot_call slots = true /\
    s_setup_client_tls r a =
    ((if ServerForms.tls_slot_ok r
         && (negb (on_protocol_negotiated (channel_data a)) || ServerForms.alpn_slot_ok r)
         && tls_start_negotiation r
      then AWS_OP_SUCCESS else AWS_OP_ERR), a, slots) /\
    (ServerForms.tls_slot_ok r
     && (negb (on_protocol_negotiated (channel_data a)) || ServerForms.alpn_slot_ok r) = true ->
     last_call slots = Some TlsStartNegotiation).
Proof.
  unfold s_setup_client_tls, ServerForms.tls_slot_ok, ServerForms.alpn_slot_ok.
  destruct (tls_slot_new r); cbn [negb andb orb].
  2: { eexists; split; [|split; [mrun; reflexivity|discriminate]]; reflexivity. }
  destruct (tls_handler_new r); cbn [negb andb orb].
  2: { eexists; split; [|split; [mrun; reflexivity|discriminate]]; reflexivity. }
  destruct (tls_set_handler r); cbn [negb andb orb].
  2: { eexists; split; [|split; [mrun; reflexivity|discriminate]]; reflexivity. }
  destruct (on_protocol_negotiated (channel_data a)) eqn:Hpn; cbn [negb andb orb].
  - destruct (alpn_slot_new r); cbn [negb andb orb].
    2: { eexists; split; [|split; [mrun; rewrite Hpn; mrun; reflexivity|discriminate]];
         reflexivity. }
    destruct (alpn_handler_new r); cbn [negb andb orb].
    2: { eexists; split; [|split; [mrun; rewrite Hpn; mrun; reflexivity|discriminate]];
         reflexivity. }
    destruct (alpn_set_handler r); cbn [negb andb orb].
    2: { eexists; split; [|split; [mrun; rewrite Hpn; mrun; reflexivity|discriminate]];
         reflexivity. }
    destruct (tls_start_negotiation r);
      (eexists; split; [|split; [mrun; rewrite Hpn; mrun; reflexivity|]]; reflexivity).
  - destruct (tls_start_negotiation r);
      (eexists; split; [|split; [mrun; rewrite Hpn; mrun; reflexivity|]]; reflexivity).
Qed.

Lemma client_setup_completed_run c r last_error a :
  exists slots,
    forallb ServerForms.is_slot_call slots = true /\
    s_on_client_channel_on_setup_completed c 0 r last_error a =
    match client_setup_outcome r a with
    | ServerForms.Delivered =>
        (tt, setup_state AWS_OP_SUCCESS a, slots ++ setup_calls AWS_OP_SUCCESS (Some c) a)
    | ServerForms.Deferred => (tt, a, slots)
    | ServerForms.Failed => (tt, a, slots ++ [ChannelShutdown c last_error])
    end /\
    (client_setup_outcome r a = ServerForms.Deferred ->
     last_call slots = Some TlsStartNegotiation).
Proof.
  unfold s_on_client_channel_on_setup_completed, client_setup_outcome,
    ServerForms.socket_slot_ok, setup_completed_error.
  change (nonzero 0) with false. cbn [negb].
  destruct (socket_slot_new r); cbn [negb andb].
  2: { exists [SlotNew "socket"]. split; [reflexivity|]. split; [|discriminate].
       mrun. reflexivity. }
  destruct (socket_handler_new r); cbn [negb andb].
  2: { exists [SlotNew "socket"; SlotRemove "socket"]. split; [reflexivity|].
       split; [|discriminate]. mrun. reflexivity. }
  destruct (socket_set_handler r); cbn [negb andb].
  2: { exists [SlotNew "socket"; SlotSetHandler "socket"]. split; [reflexivity|].
       split; [|discriminate]. mrun. reflexivity. }
  destruct (use_tls (channel_data a)) eqn:Htls.
  - destruct (setup_client_tls_run r a) as (slots & Hs & Hrun & Hlast).
    exists ([SlotNew "socket"; SlotSetHandler "socket"] ++ slots). split.
    { rewrite forallb_app, Hs. reflexivity. }
    split.
    + mrun. rewrite Htls.
      destruct (ServerForms.tls_slot_ok r && _ && tls_start_negotiation r);
        cbn; rewrite ?app_nil_r; reflexivity.
    + intros Hd.
      destruct (ServerForms.tls_slot_ok r
                && (negb (on_protocol_negotiated (channel_data a))
                    || ServerForms.alpn_slot_ok r)) eqn:E; [|discriminate].
      specialize (Hlast eq_refl). unfold last_call in *. rewrite rev_app_distr.
      destruct (rev slots); [discriminate|]. exact Hlast.
  - exists [SlotNew "socket"; SlotSetHandler "socket"]. split; [reflexivity|].
    split; [|discriminate].
    mrun. rewrite Htls. rewrite setup_callback_run. reflexivity.
Qed.

Lemma last_call_snoc l e : last_call (l ++ [e]) = Some e.
Proof. unfold last_call. rewrite rev_app_distr. reflexivity. Qed.

(** X4: when a client channel completes its setup,
    [s_on_client_channel_on_setup_completed] ends in exactly one of three
    ways.  With error code 0, no TLS and the socket slot installed, the
    setup callback is delivered with error code 0 and the channel (unless
    it was delivered before), and no shutdown is requested.  With TLS and
    every slot installed, the last call starts the negotiation, nothing
    is delivered and the state is unchanged.  In every other case (a
    nonzero error code, or a slot or handler call that failed) the state
    is unchanged, nothing is delivered, and the last call asks the channel
    to shut down, once, with the error code passed in or with
    [aws_last_error()]. *)
Theorem client_setup_completed_outcome c e r last_error a :
  let out := s_on_client_channel_on_setup_completed c e r last_error a in
  match (if e =? 0 then client_setup_outcome r a else ServerForms.Failed) with
  | ServerForms.Delivered =>
      user_callbacks (trace out) =
        (if setup_called a then [] else [SetupCallback 0 (Some c)]) /\
      setup_called (state out) = true /\
      filter is_channel_shutdown (trace out) = []
  | ServerForms.Deferred =>
      user_callbacks (trace out) = [] /\ state out = a /\
      filter is_channel_shutdown (trace out) = [] /\
      last_call (trace out) = Some TlsStartNegotiation
  | ServerForms.Failed =>
      user_callbacks (trace out) = [] /\ state out = a /\
      filter is_channel_shutdown (trace out) =
        [ChannelShutdown c (if e =? 0 then last_error else e)] /\
      last_call (trace out) = Some (ChannelShutdown c (if e =? 0 then last_error else e))
  end.
Proof.
  cbv zeta. destruct (e =? 0) eqn:He.
  - apply Z.eqb_eq in He. subst e.
    destruct (client_setup_completed_run c r last_error a) as (slots & Hs & Hrun & Hlast).
    rewrite Hrun.
    assert (Hu : user_callbacks slots = []).
    { apply filter_slot_calls; [|exact Hs].
      intros x; destruct x; try reflexivity; discriminate. }
    assert (Hc : filter is_channel_shutdown slots = []).
    { apply filter_slot_calls; [|exact Hs].
      intros x; destruct x; try reflexivity; discriminate. }
    destruct (client_setup_outcome r a); cbn [trace state fst snd].
    + rewrite user_callbacks_app, Hu, user_callbacks_setup_calls, filter_app, Hc.
      split; [reflexivity|]. split; [apply setup_called_setup_state|].
      apply Quiet.client_setup_calls; reflexivity.
    + auto.
    + rewrite user_callbacks_app, Hu, filter_app, Hc, last_call_snoc. auto.
  - unfold s_on_client_channel_on_setup_completed, nonzero, setup_completed_error.
    rewrite He. cbn. auto.
Qed.

Lemma user_callbacks_gate_calls e a :
  user_callbacks (gate_calls e a) =
  if gate_open a && negb (setup_called a) then [SetupCallback e None] else [].
Proof.
  unfold gate_calls. destruct (gate_open a); [|reflexivity].
  rewrite user_callbacks_setup_calls. destruct (setup_called a); reflexivity.
Qed.

Lemma filter_failed_calls p td e a :
  p BootstrapRelease = false -> p HostNameDestroy = false ->
  p TlsOptionsCleanUp = false -> p (MemRelease ObjClientArgs) = false ->
  p (SetupCallback e None) = false ->
  filter p (failed_calls td e a) = filter p (cleanup_calls td).
Proof.
  intros H1 H2 H3 H4 H5. unfold failed_calls.
  rewrite !filter_app, Quiet.client_gate, Quiet.client_release by assumption.
  reflexivity.
Qed.

Lemma user_callbacks_failed_calls td e a :
  user_callbacks (failed_calls td e a) =
  if gate_open (incr a) && negb (setup_called a) then [SetupCallback e None] else [].
Proof.
  unfold failed_calls.
  rewrite !user_callbacks_app, user_callbacks_gate_calls, user_callbacks_release.
  cbn [cleanup_calls user_callbacks filter is_user_callback is_setup_callback
       is_shutdown_callback orb].
  rewrite app_nil_r. reflexivity.
Qed.

Lemma last_call_app_cons l1 l2 e : last_call (l1 ++ l2 ++ [e]) = Some e.
Proof. rewrite app_assoc. apply last_call_snoc. Qed.

(** X5: [s_attempt_connection] frees its task structure exactly once, as
    its last call, on every path.  Socket memory is acquired only by a
    task that runs, and it is released again unless both the
    initialisation and the connect succeeded; the socket is cleaned up and
    the failure reported to the resolver only when the connect call
    failed.  A task that left a connect in flight changes nothing in the
    connection state and delivers nothing; every other task counts one
    failure (modulo 256) and delivers the setup callback, with no channel
    and with [aws_last_error()] (0 for a cancelled task), exactly when
    that makes [failed_count] equal to [addresses_count] and the callback
    was not delivered before. *)
Theorem attempt_connection_outcome td status sock init conn last_error a :
  let out := s_attempt_connection td status sock init conn last_error a in
  filter is_task_free (trace out) = [MemRelease (ObjTaskData (task td))] /\
  last_call (trace out) = Some (MemRelease (ObjTaskData (task td))) /\
  filter is_socket_memory (trace out) =
    (if is_run_ready status then
       match sock with
       | Some s =>
           MemAcquire (ObjSocket s) ::
           (if init && conn then [] else [MemRelease (ObjSocket s)])
       | None => []
       end
     else []) /\
  filter is_socket_clean_up (trace out) =
    (match sock with
     | Some s => if is_run_ready status && init && negb conn then [SocketCleanUp s] else []
     | None => []
     end) /\
  filter is_record_failure (trace out) =
    (if is_run_ready status && is_some sock && init && negb conn
     then [RecordConnectionFailure (address (host_address td))
             (record_type (host_address td))]
     else []) /\
  if is_run_ready status && is_some sock && init && conn then
    state out = a /\ user_callbacks (trace out) = []
  else
    failed_count (state out) = uint8_t (failed_count a + 1) /\
    user_callbacks (trace out) =
      (if (uint8_t (failed_count a + 1) =? addresses_count a) && negb (setup_called a)
       then [SetupCallback (if is_run_ready status then last_error else 0) None]
       else []).
Proof.
  cbv zeta. rewrite attempt_connection_run. cbn [trace state fst snd].
  unfold attempt_calls, attempt_state, attempt_connects, attempt_socket_calls,
    attempt_error, failed_state.
  assert (Hfc : forall e, failed_count (released (gate e (incr a))) =
                          uint8_t (failed_count a + 1)).
  { intros e. rewrite failed_count_released, failed_count_gate. reflexivity. }
  assert (Hlast : forall l e, last_call (l ++ failed_calls td e a) =
                              Some (MemRelease (ObjTaskData (task td)))).
  { intros l e. unfold failed_calls, cleanup_calls.
    change [HostAddressCleanUp (task td); MemRelease (ObjTaskData (task td))]
      with ([HostAddressCleanUp (task td)] ++ [MemRelease (ObjTaskData (task td))]).
    rewrite !app_assoc. apply last_call_snoc. }
  assert (Hgo : gate_open (incr a) = (uint8_t (failed_count a + 1) =? addresses_count a))
    by reflexivity.
  destruct status, sock as [s|], init, conn; cbn [is_run_ready is_some andb negb];
    rewrite ?filter_app, ?user_callbacks_app, ?user_callbacks_failed_calls, ?Hfc, ?Hgo,
      ?Hlast;
    rewrite ?filter_failed_calls by reflexivity;
    repeat split; try reflexivity;
    try (rewrite <- (app_nil_l (failed_calls _ _ _)); apply Hlast).
Qed.

End ClientHandlers.

(** ** Reference counts *)

Section References.

Import MoreForms.

Lemma repeat_call_succ {S : Type} n (m : M S unit) a :
  repeat_call (Datatypes.S n) m a = (m ;; repeat_call n m) a.
Proof. reflexivity. Qed.

Lemma run_eq {S A : Type} (x : A) (s s' : S) (w w' : list effect) :
  s = s' -> w = w' -> (x, s, w) = (x, s', w').
Proof. intros -> ->. reflexivity. Qed.

Lemma client_set_ref_count_same a : Client.set_ref_count (Client.ref_count a) a = a.
Proof. destruct a; reflexivity. Qed.

Lemma client_acquire_n n :
  forall a,
    0 <= Client.ref_count a -> Client.ref_count a + Z.of_nat n < 2 ^ 32 ->
    repeat_call n Client.s_client_connection_args_acquire a =
    (tt, Client.set_ref_count (Client.ref_count a + Z.of_nat n) a,
     if (Client.ref_count a =? 0) && negb (Nat.eqb n 0) then [BootstrapAcquire] else []).
Proof.
  induction n as [|n IH]; intros a H0 Hn.
  - cbn [repeat_call Z.of_nat]. rewrite Z.add_0_r, client_set_ref_count_same, andb_false_r.
    reflexivity.
  - rewrite repeat_call_succ.
    erewrite bind_run by apply ClientRuns.acquire_run.
    assert (Hrc : Client.ref_count (ClientForms.acquired a) = Client.ref_count a + 1).
    { cbn. unfold uint32_t. apply Z.mod_small. lia. }
    rewrite IH by (rewrite Hrc; lia).
    rewrite Hrc. unfold emit, ClientForms.acquire_calls. cbn [result state trace fst snd].
    replace (Client.ref_count a + 1 =? 0) with false by (symmetry; apply Z.eqb_neq; lia).
    cbn [andb negb Nat.eqb]. rewrite andb_true_r, app_nil_r.
    replace (Client.ref_count a + 1 + Z.of_nat n)
      with (Client.ref_count a + Z.of_nat (Datatypes.S n)) by lia.
    destruct a; reflexivity.
Qed.

Lemma client_release_n n :
  forall a,
    0 <= Client.ref_count a - Z.of_nat n -> Client.ref_count a < 2 ^ 32 ->
    repeat_call n Client.s_client_connection_args_release a =
    (tt, Client.set_ref_count (Client.ref_count a - Z.of_nat n) a,
     if (Client.ref_count a - Z.of_nat n =? 0) && negb (Nat.eqb n 0)
     then ClientForms.release_calls (Client.set_ref_count 1 a) else []).
Proof.
  induction n as [|n IH]; intros a H0 Hn.
  - cbn [repeat_call Z.of_nat]. rewrite Z.sub_0_r, client_set_ref_count_same, andb_false_r.
    reflexivity.
  - rewrite repeat_call_succ.
    erewrite bind_run by apply ClientRuns.release_run.
    assert (Hrc : Client.ref_count (ClientForms.released a) = Client.ref_count a - 1).
    { cbn. unfold uint32_t. apply Z.mod_small. lia. }
    rewrite IH by (rewrite Hrc; lia).
    rewrite Hrc. unfold emit. cbn [result state trace fst snd negb Nat.eqb].
    rewrite andb_true_r.
    replace (Client.ref_count a - 1 - Z.of_nat n)
      with (Client.ref_count a - Z.of_nat (Datatypes.S n)) by lia.
    apply run_eq; [destruct a; reflexivity|].
    unfold ClientForms.release_calls at 1.
    replace (uint32_t (Client.ref_count a - 1)) with (Client.ref_count a - 1)
      by (symmetry; apply Z.mod_small; lia).
    destruct n as [|n].
    + cbn [Nat.eqb negb]. rewrite andb_false_r, app_nil_r.
      change (Z.of_nat 1) with 1.
      destruct (Client.ref_count a - 1 =? 0); [|reflexivity].
      destruct a; reflexivity.
    + replace (Client.ref_count a - 1 =? 0) with false by (symmetry; apply Z.eqb_neq; lia).
      cbn [Nat.eqb negb app]. rewrite andb_true_r.
      destruct (_ =? 0); [|reflexivity]. destruct a; reflexivity.
Qed.

(** X6: on the client connection state, [n] calls of
    [s_client_connection_args_acquire] followed by [n] calls of
    [s_client_connection_args_release] give back the state they started
    from, as long as the count stays below 2^32.  Nothing is called when
    the state was referenced before; on a state with no reference the
    first acquire takes a reference on the bootstrap and only the last
    release gives it back, destroys the host name if there is one, cleans
    up the TLS options if TLS is used, and frees the state. *)
Theorem client_references_balance n a :
  0 <= Client.ref_count a -> Client.ref_count a + Z.of_nat n < 2 ^ 32 ->
  (repeat_call n Client.s_client_connection_args_acquire ;;
   repeat_call n Client.s_client_connection_args_release) a =
  (tt, a,
   if (Client.ref_count a =? 0) && negb (Nat.eqb n 0) then
     [BootstrapAcquire; BootstrapRelease] ++
     (if Client.is_some (Client.host_name a) then [HostNameDestroy] else []) ++
     (if Client.use_tls (Client.channel_data a) then [TlsOptionsCleanUp] else []) ++
     [MemRelease ObjClientArgs]
   else []).
Proof.
  intros H0 Hn.
  erewrite bind_run by (apply client_acquire_n; assumption).
  rewrite client_release_n by (cbn; lia).
  unfold emit. cbn [result state trace fst snd Client.ref_count Client.set_ref_count].
  replace (Client.ref_count a + Z.of_nat n - Z.of_nat n) with (Client.ref_count a) by lia.
  apply run_eq; [destruct a; reflexivity|].
  destruct (Client.ref_count a =? 0), (Nat.eqb n 0); cbn [andb negb app]; reflexivity.
Qed.

Lemma server_set_ref_count_same a : Server.set_ref_count (Server.ref_count a) a = a.
Proof. destruct a; reflexivity. Qed.

Lemma server_acquire_n n :
  forall a,
    0 <= Server.ref_count a -> Server.ref_count a + Z.of_nat n < 2 ^ 64 ->
    repeat_call n Server.s_server_connection_args_acquire a =
    (tt, Server.set_ref_count (Server.ref_count a + Z.of_nat n) a,
     if (Server.ref_count a =? 0) && negb (Nat.eqb n 0) then [BootstrapAcquire] else []).
Proof.
  induction n as [|n IH]; intros a H0 Hn.
  - cbn [repeat_call Z.of_nat]. rewrite Z.add_0_r, server_set_ref_count_same, andb_false_r.
    reflexivity.
  - rewrite repeat_call_succ.
    erewrite bind_run by apply ServerRuns.server_acquire_run.
    assert (Hrc : Server.ref_count (ServerForms.acquired a) = Server.ref_count a + 1).
    { cbn. unfold size_t. apply Z.mod_small. lia. }
    rewrite IH by (rewrite Hrc; lia).
    rewrite Hrc. unfold emit, ServerForms.acquire_calls. cbn [result state trace fst snd].
    replace (Server.ref_count a + 1 =? 0) with false by (symmetry; apply Z.eqb_neq; lia).
    cbn [andb negb Nat.eqb]. rewrite andb_true_r, app_nil_r.
    replace (Server.ref_count a + 1 + Z.of_nat n)
      with (Server.ref_count a + Z.of_nat (Datatypes.S n)) by lia.
    destruct a; reflexivity.
Qed.

Lemma server_release_n n :
  forall a,
    0 <= Server.ref_count a - Z.of_nat n -> Server.ref_count a < 2 ^ 64 ->
    repeat_call n Server.s_server_connection_args_release a =
    (tt, Server.set_ref_count (Server.ref_count a - Z.of_nat n) a,
     if (Server.ref_count a - Z.of_nat n =? 0) && negb (Nat.eqb n 0)
     then ServerForms.release_calls (Server.set_ref_count 1 a) else []).
Proof.
  induction n as [|n IH]; intros a H0 Hn.
  - cbn [repeat_call Z.of_nat]. rewrite Z.sub_0_r, server_set_ref_count_same, andb_false_r.
    reflexivity.
  - rewrite repeat_call_succ.
    erewrite bind_run by apply ServerRuns.server_release_run.
    assert (Hrc : Server.ref_count (ServerForms.released a) = Server.ref_count a - 1).
    { cbn. unfold size_t. apply Z.mod_small. lia. }
    rewrite IH by (rewrite Hrc; lia).
    rewrite Hrc. unfold emit. cbn [result state trace fst snd negb Nat.eqb].
    rewrite andb_true_r.
    replace (Server.ref_count a - 1 - Z.of_nat n)
      with (Server.ref_count a - Z.of_nat (Datatypes.S n)) by lia.
    apply run_eq; [destruct a; reflexivity|].
    unfold ServerForms.release_calls at 1.
    destruct n as [|n].
    + cbn [Nat.eqb negb]. rewrite andb_false_r, app_nil_r.
      change (Z.of_nat 1) with 1.
      replace (Server.ref_count a - 1 =? 0) with (Server.ref_count a =? 1)
        by (destruct (Server.ref_count a =? 1) eqn:E;
            [apply Z.eqb_eq in E; symmetry; apply Z.eqb_eq; lia
            |apply Z.eqb_neq in E; symmetry; apply Z.eqb_neq; lia]).
      destruct (Server.ref_count a =? 1); [|reflexivity].
      destruct a; reflexivity.
    + replace (Server.ref_count a =? 1) with false by (symmetry; apply Z.eqb_neq; lia).
      cbn [Nat.eqb negb app]. rewrite andb_true_r.
      destruct (_ =? 0); [|reflexivity]. destruct a; reflexivity.
Qed.

(** X7: on the server listener state, [n] calls of
    [s_server_connection_args_acquire] followed by [n] calls of
    [s_server_connection_args_release] give back the state they started
    from, as long as the count stays below 2^64.  Nothing is called when
    the state was referenced before; on a state with no reference the
    first acquire takes a reference on the bootstrap and only the last
    release invokes the destroy callback, if there is one, gives the
    bootstrap reference back, cleans up the TLS options if TLS is used,
    and frees the state. *)
Theorem server_references_balance n a :
  0 <= Server.ref_count a -> Server.ref_count a + Z.of_nat n < 2 ^ 64 ->
  (repeat_call n Server.s_server_connection_args_acquire ;;
   repeat_call n Server.s_server_connection_args_release) a =
  (tt, a,
   if (Server.ref_count a =? 0) && negb (Nat.eqb n 0) then
     [BootstrapAcquire] ++
     (if Server.destroy_callback a then [DestroyCallback] else []) ++
     [BootstrapRelease] ++
     (if Server.use_tls a then [TlsOptionsCleanUp] else []) ++
     [MemRelease ObjServerArgs]
   else []).
Proof.
  intros H0 Hn.
  erewrite bind_run by (apply server_acquire_n; assumption).
  rewrite server_release_n by (cbn; lia).
  unfold emit. cbn [result state trace fst snd Server.ref_count Server.set_ref_count].
  replace (Server.ref_count a + Z.of_nat n - Z.of_nat n) with (Server.ref_count a) by lia.
  apply run_eq; [destruct a; reflexivity|].
  destruct (Server.ref_count a =? 0), (Nat.eqb n 0); cbn [andb negb app]; reflexivity.
Qed.

End References.

Lemma client_references_balance_witness :
  (MoreForms.repeat_call 3 Client.s_client_connection_args_acquire ;;
   MoreForms.repeat_call 3 Client.s_client_connection_args_release) Client.zeroed_args =
  (tt, Client.zeroed_args, [BootstrapAcquire; BootstrapRelease; MemRelease ObjClientArgs]).
Proof.
  exact (client_references_balance 3 Client.zeroed_args
           ltac:(cbn; lia) ltac:(cbn; lia)).
Defined.

Lemma server_references_balance_witness :
  (MoreForms.repeat_call 2 Server.s_server_connection_args_acquire ;;
   MoreForms.repeat_call 2 Server.s_server_connection_args_release)
    (Listener.args Examples.listener_start) =
  (tt, Listener.args Examples.listener_start, []).
Proof.
  exact (server_references_balance 2 (Listener.args Examples.listener_start)
           ltac:(cbn; lia) ltac:(cbn; lia)).
Defined.

(** ** Server callbacks *)

Section ServerHandlers.

Import Server ServerForms ServerRuns MoreForms.

Variable AWS_ERROR_UNKNOWN : Z.

Lemma server_acquired_released a :
  1 <= ref_count a < 2 ^ 64 - 1 ->
  released (acquired a) = a /\ release_calls (acquired a) = [] /\ acquire_calls a = [] /\
  ref_count (acquired a) = ref_count a + 1.
Proof.
  intros H.
  assert (H1 : size_t (ref_count a + 1) = ref_count a + 1).
  { unfold size_t. apply Z.mod_small. lia. }
  unfold released, acquired, release_calls, acquire_calls.
  cbn [ref_count set_ref_count destroy_callback use_tls]. rewrite H1.
  replace (ref_count a + 1 - 1) with (ref_count a) by lia.
  replace (size_t (ref_count a)) with (ref_count a)
    by (symmetry; unfold size_t; apply Z.mod_small; lia).
  replace (ref_count a + 1 =? 1) with false by (symmetry; apply Z.eqb_neq; lia).
  replace (ref_count a =? 0) with false by (symmetry; apply Z.eqb_neq; lia).
  repeat split. destruct a; reflexivity.
Qed.

(** X8: [s_on_server_connection_result] on a listener state that is
    referenced (count between 1 and 2^64 - 2) never frees that state and
    never invokes the destroy callback.  When the accept succeeded and the
    channel data, the event-loop assignment and the channel were obtained,
    it keeps one more reference, keeps the channel data and the socket,
    delivers nothing, and its last call creates the channel.  In every
    other case it returns the state as it was, frees the channel data if
    it had been allocated, cleans up and frees the accepted socket if the
    accept itself had succeeded (there is no socket otherwise), and
    delivers the incoming callback once, with no channel and with the
    accept error or [aws_last_error()]. *)
Theorem connection_result_outcome_and_resources e sk r last_error a :
  1 <= ref_count a < 2 ^ 64 - 1 ->
  let out := s_on_server_connection_result e sk r last_error a in
  filter is_server_args_free (trace out) = [] /\
  filter is_destroy_callback (trace out) = [] /\
  match (if e =? 0 then channel_data_alloc r && assign_to_event_loop r else false),
        new_channel r with
  | true, Some c =>
      result out = Some {| channel := Some c; socket := sk; incoming_called := false |} /\
      ref_count (state out) = ref_count a + 1 /\
      filter is_channel_data_memory (trace out) = [MemAcquire ObjChannelData] /\
      filter is_socket_memory (trace out) = [] /\
      filter is_socket_clean_up (trace out) = [] /\
      filter is_incoming_callback (trace out) = [] /\
      last_call (trace out) = Some (ChannelNew c (event_loop r))
  | _, _ =>
      result out = None /\ state out = a /\
      filter is_channel_data_memory (trace out) =
        (if (e =? 0) && channel_data_alloc r
         then [MemAcquire ObjChannelData; MemRelease ObjChannelData] else []) /\
      filter is_socket_memory (trace out) =
        (if e =? 0 then [MemRelease (ObjSocket sk)] else []) /\
      filter is_socket_clean_up (trace out) = (if e =? 0 then [SocketCleanUp sk] else []) /\
      filter is_incoming_callback (trace out) =
        [IncomingCallback (if e =? 0 then last_error else e) None]
  end.
Proof.
  intros Hrc. cbv zeta.
  destruct (server_acquired_released a Hrc) as (Hst & Hrel & Hacq & Hcount).
  unfold s_on_server_connection_result, error_cleanup, nonzero.
  destruct (e =? 0); cbn [negb andb].
  - destruct (channel_data_alloc r); cbn [negb andb].
    + destruct (assign_to_event_loop r); cbn [negb].
      * destruct (new_channel r) as [c|]; mrun;
          cbn [result state trace fst snd]; rewrite ?Hst, ?Hrel, ?Hacq, ?Hcount;
          repeat split; reflexivity.
      * mrun. cbn [result state trace fst snd]. rewrite ?Hst, ?Hrel, ?Hacq.
        destruct (new_channel r); repeat split; reflexivity.
    + mrun. cbn [result state trace fst snd]. rewrite ?Hst, ?Hrel, ?Hacq.
      destruct (new_channel r); repeat split; reflexivity.
  - mrun. cbn [result state trace fst snd]. rewrite ?Hst, ?Hrel, ?Hacq.
    destruct (new_channel r); repeat split; reflexivity.
Qed.

End ServerHandlers.

Lemma connection_result_outcome_and_resources_witness :
  let out :=
    Server.s_on_server_connection_result 0 7%nat (Examples.accept_succeeds 5%nat) 0
      (Listener.args Examples.listener_start) in
  result out =
    Some {| Server.channel := Some 5%nat; Server.socket := 7%nat;
            Server.incoming_called := false |} /\
  Server.ref_count (state out) = 2.
Proof.
  pose proof (connection_result_outcome_and_resources 0 7%nat
                (Examples.accept_succeeds 5%nat) 0 (Listener.args Examples.listener_start)
                ltac:(cbn; lia)) as H.
  exact (conj (proj1 (proj2 (proj2 H))) (proj1 (proj2 (proj2 (proj2 H))))).
Defined.

(** ** From resolved addresses to connection attempts *)

Section Attempts.

Import Client ClientForms ClientRuns MoreForms.

(** [sizeof(endpoint.address)], from aws-c-io's socket.h. *)
Variable address_size : nat.

Lemma allocated_tasks alloc port o loop addrs :
  forall i tasks res,
    allocated alloc port o loop i addrs tasks = inr res ->
    exists new,
      res = tasks ++ new /\
      Forall2 (fun h td => td = fill_task_data (task td) port o loop h) addrs new /\
      map (fun td => TaskAllocated (task td)) new = map alloc (seq i (List.length addrs)).
Proof.
  induction addrs as [|h rest IH]; intros i tasks res H; cbn [allocated] in H.
  - injection H as <-. exists []. rewrite app_nil_r. repeat split. constructor.
  - destruct (alloc i) as [|t|t] eqn:Ha; try discriminate.
    destruct (IH _ _ _ H) as (new & -> & Hall & Hmap).
    exists (fill_task_data t port o loop h :: new). rewrite <- app_assoc. split; [reflexivity|].
    split; [constructor; [reflexivity|exact Hall]|].
    cbn [List.length seq map task fill_task_data]. rewrite Ha, Hmap. reflexivity.
Qed.

(** X9: when a resolution succeeds with addresses that fit
    [endpoint.address] and every task structure is allocated,
    [s_on_host_resolved] schedules the structures the allocator
    returned, in the order of the addresses, and the attempt
    [s_attempt_connection] makes for each of them, when its socket is
    allocated, initialised and connected, is the one for its address: the
    socket is initialised with the socket type of the user's options and
    with the domain of the address record (IPv6 for an AAAA record, IPv4
    otherwise, whatever domain the user's options name), and connected to
    the resolved address on the user's port, on the event loop chosen at
    resolution; the task structure is freed afterwards. *)
Theorem resolved_addresses_become_attempts addrs loop alloc last_error a :
  addrs <> [] ->
  Forall (fun h => fits_endpoint address_size (address h)) addrs ->
  all_allocated alloc 0 (List.length addrs) = true ->
  let tasks := result (s_on_host_resolved 0 addrs loop alloc last_error a) in
  map (fun td => TaskAllocated (task td)) tasks = map alloc (seq 0 (List.length addrs)) /\
  Forall2
    (fun h td =>
       host_address td = h /\
       forall s last_error' a',
         trace (s_attempt_connection td AWS_TASK_STATUS_RUN_READY (Some s) true true
                  last_error' a') =
         [MemAcquire (ObjSocket s);
          SocketInit s
            {| opt_type := opt_type (outgoing_options a);
               opt_domain := match record_type h with
                             | AWS_ADDRESS_RECORD_TYPE_AAAA => AWS_SOCKET_IPV6
                             | AWS_ADDRESS_RECORD_TYPE_A => AWS_SOCKET_IPV4
                             end |};
          SocketConnect s (address h) (outgoing_port a) loop;
          HostAddressCleanUp (task td);
          MemRelease (ObjTaskData (task td))])
    addrs tasks.
Proof.
  intros Hne _ Hall. cbv zeta.
  rewrite (host_resolved_run 0 addrs loop alloc last_error a eq_refl Hne). cbv zeta.
  destruct (allocated_ok alloc (outgoing_port a) (outgoing_options a) loop addrs 0 [] Hall)
    as (new0 & Hnew0 & _).
  rewrite Hnew0. cbn [result fst app].
  destruct (allocated_tasks _ _ _ _ _ _ _ _ Hnew0) as (new & Hres & Hall2 & Hmap).
  cbn [app] in Hres. subst new0.
  split; [exact Hmap|].
  clear Hnew0 Hmap Hne Hall. induction Hall2 as [|h td addrs' new' Htd _ IH]; constructor.
  - split; [rewrite Htd; reflexivity|].
    intros s le a'. rewrite attempt_connection_run. cbn [trace snd].
    rewrite Htd. reflexivity.
  - apply IH.
Qed.

End Attempts.

Lemma two_addresses_fit :
  Forall (fun h => Client.fits_endpoint 108 (address h)) Examples.two_addresses.
Proof. repeat constructor; unfold Client.fits_endpoint; cbn; lia. Defined.

Lemma resolved_addresses_become_attempts_witness :
  result (Client.s_on_host_resolved 0 Examples.two_addresses 7%nat
            Examples.every_allocation_succeeds 0 Examples.resolving) =
  [Examples.task_for 0%nat "10.0.0.1"; Examples.task_for 1%nat "10.0.0.2"] /\
  map (fun td => Client.TaskAllocated (Client.task td))
    (result (Client.s_on_host_resolved 0 Examples.two_addresses 7%nat
               Examples.every_allocation_succeeds 0 Examples.resolving)) =
  map Examples.every_allocation_succeeds (seq 0 2).
Proof.
  split; [reflexivity|].
  exact (proj1 (resolved_addresses_become_attempts 108 Examples.two_addresses 7%nat
                  Examples.every_allocation_succeeds 0 Examples.resolving
                  ltac:(discriminate) two_addresses_fit eq_refl)).
Defined.

(** ** Every state of a connection race: the callbacks the user sees *)

Section RaceProtocol.

Import Client ClientForms ClientRuns MoreForms RaceInv.

Variable AWS_ERROR_UNKNOWN : Z.

Lemma flags_setup_state e a :
  flags (setup_state e a) =
  if setup_called a then flags a else (true, negb (nonzero e) && shutdown_callback a).
Proof.
  unfold flags, setup_state, marked, released.
  destruct (setup_called a) eqn:H; [rewrite H; reflexivity|].
  destruct (nonzero e); reflexivity.
Qed.

Lemma choice_setup_state e a : choice (setup_state e a) = choice a.
Proof.
  unfold choice, setup_state, marked, released.
  destruct (setup_called a); [reflexivity|]. destruct (nonzero e); reflexivity.
Qed.

Lemma choice_gate e a : choice (gate e a) = choice a.
Proof. unfold gate. destruct (gate_open a); [apply choice_setup_state|reflexivity]. Qed.

Lemma flags_counted e a : flags (counted e a) = flags a.
Proof. unfold counted. destruct (nonzero e); reflexivity. Qed.

Lemma choice_counted e a : choice (counted e a) = choice a.
Proof. unfold counted. destruct (nonzero e); reflexivity. Qed.

Lemma flags_acquired_n n : forall a, flags (acquired_n n a) = flags a.
Proof. induction n as [|n IH]; intros a; [reflexivity|]. cbn [acquired_n]. rewrite IH. reflexivity. Qed.

Lemma choice_acquired_n n : forall a, choice (acquired_n n a) = choice a.
Proof. induction n as [|n IH]; intros a; [reflexivity|]. cbn [acquired_n]. rewrite IH. reflexivity. Qed.

Lemma delivered_setup e ch a :
  exists d, delivered d a (setup_state e a) (setup_calls e ch a) /\
            (d = None \/ d = Some (e, ch)).
Proof.
  destruct (setup_called a) eqn:H.
  - exists None. split; [|left; reflexivity]. cbn.
    rewrite flags_setup_state, user_callbacks_setup_calls, H. auto.
  - exists (Some (e, ch)). split; [|right; reflexivity]. cbn.
    rewrite flags_setup_state, user_callbacks_setup_calls, H. auto.
Qed.

Lemma delivered_gate e a :
  exists d, delivered d a (gate e a) (gate_calls e a) /\
            (d = None \/ d = Some (e, None)).
Proof.
  unfold gate, gate_calls. destruct (gate_open a); [apply delivered_setup|].
  exists None. split; [|left; reflexivity]. cbn. auto.
Qed.

Lemma delivered_wrap d a0 a1 tr a a' pre post :
  delivered d a0 a1 tr ->
  flags a0 = flags a -> flags a' = flags a1 ->
  user_callbacks pre = [] -> user_callbacks post = [] ->
  delivered d a a' (pre ++ tr ++ post).
Proof.
  intros H H0 H1 Hpre Hpost.
  assert (Hs : setup_called a0 = setup_called a) by (unfold flags in H0; congruence).
  assert (Hc : shutdown_callback a0 = shutdown_callback a) by (unfold flags in H0; congruence).
  destruct d as [[e ch]|]; cbn in *.
  - destruct H as (Hf & Hfl & Hu). rewrite !user_callbacks_app, Hpre, Hpost, Hu, H1, Hfl.
    rewrite <- Hs, <- Hc. auto.
  - destruct H as (Hfl & Hu). rewrite !user_callbacks_app, Hpre, Hpost, Hu, H1, Hfl. auto.
Qed.

Lemma delivered_pre d a0 a1 tr a pre :
  delivered d a0 a1 tr -> flags a0 = flags a -> user_callbacks pre = [] ->
  delivered d a a1 (pre ++ tr).
Proof.
  intros H H0 Hpre. rewrite <- (app_nil_r tr).
  apply (delivered_wrap d a0 a1 tr a a1 pre []); auto.
Qed.

Lemma user_callbacks_record addr e copy a : user_callbacks (record_calls addr e copy a) = [].
Proof. apply Quiet.client_record. reflexivity. Qed.

(** What [s_attempt_connection] tells the user. *)
Lemma attempt_delivers td status sock init conn last_error a :
  exists d,
    delivered d a (attempt_state status sock init conn last_error a)
      (attempt_calls td status sock init conn last_error a) /\
    (d = None \/ exists e, d = Some (e, None)) /\
    choice (attempt_state status sock init conn last_error a) = choice a.
Proof.
  unfold attempt_state, attempt_calls.
  assert (Hpre : user_callbacks (attempt_socket_calls td status sock init conn) = []).
  { unfold attempt_socket_calls.
    destruct (is_run_ready status), sock, init, conn; reflexivity. }
  destruct (attempt_connects status sock init conn).
  - exists None. split; [|split; [left|]; reflexivity].
    cbn. rewrite user_callbacks_app, Hpre. auto.
  - unfold failed_state, failed_calls.
    destruct (delivered_gate (attempt_error status last_error) (incr a)) as (d & Hd & Hcase).
    exists d. split; [|split].
    + apply (delivered_wrap d (incr a) (gate (attempt_error status last_error) (incr a))
               _ a _ _ _ Hd); try reflexivity; [exact Hpre|].
      rewrite user_callbacks_app, user_callbacks_release. reflexivity.
    + destruct Hcase as [->| ->]; [left; reflexivity|right; eexists; reflexivity].
    + change (choice (gate (attempt_error status last_error) (incr a)) = choice a).
      rewrite choice_gate. reflexivity.
Qed.

Lemma filter_lost_calls p sk addr e copy a :
  (forall x y, p (RecordConnectionFailure x y) = false) ->
  (forall x, p (SocketClose x) = false) -> (forall x, p (SocketCleanUp x) = false) ->
  (forall x, p (MemRelease x) = false) ->
  p BootstrapRelease = false -> p HostNameDestroy = false -> p TlsOptionsCleanUp = false ->
  p (SetupCallback e None) = false ->
  filter p (lost_calls sk addr e copy a) = [].
Proof.
  intros H1 H2 H3 H4 H5 H6 H7 H8. unfold lost_calls.
  rewrite !filter_app, Quiet.client_record, Quiet.client_gate, Quiet.client_release
    by auto.
  cbn. rewrite H2, H3, H4. reflexivity.
Qed.

(** What [s_on_client_connection_established] tells the user, and whether
    it creates the channel. *)
Lemma established_delivers sk addr loop e copy nc a :
  let a' := established_state sk e nc a in
  let tr := established_calls sk addr loop e copy nc a in
  if gives_up e a then
    (exists d, delivered d a a' tr /\ (d = None \/ d = Some (e, None))) /\
    choice a' = choice a /\ Race.channel_created tr = None
  else
    connection_chosen a = false /\
    match nc with
    | Some c =>
        flags a' = flags a /\ user_callbacks tr = [] /\ choice a' = (true, Some c) /\
        Race.channel_created tr = Some c
    | None =>
        (exists d, delivered d a a' tr /\ (d = None \/ d = Some (e, None))) /\
        choice a' = (true, None) /\ Race.channel_created tr = None
    end.
Proof.
  cbv zeta. unfold established_state, established_calls.
  destruct (gives_up e a) eqn:Hg.
  - unfold lost_state, lost_calls. split; [|split].
    + destruct (delivered_gate e (counted e a)) as (d & Hd & Hcase).
      exists d. split; [|exact Hcase].
      rewrite app_assoc.
      apply (delivered_wrap d (counted e a) (gate e (counted e a)) _ a _ _ _ Hd).
      * apply flags_counted.
      * reflexivity.
      * rewrite user_callbacks_app, user_callbacks_record. reflexivity.
      * apply user_callbacks_release.
    + change (choice (gate e (counted e a)) = choice a).
      rewrite choice_gate, choice_counted. reflexivity.
    + apply Quiet.channel_created.
      apply (filter_lost_calls is_channel_new); reflexivity.
  - unfold gives_up in Hg. apply orb_false_elim in Hg. destruct Hg as [He Hc].
    split; [exact Hc|].
    unfold won_state, won_calls. destruct nc as [c|].
    + repeat split.
    + split; [|split].
      * destruct (delivered_gate e (incr (chosen sk None a))) as (d & Hd & Hcase).
        exists d. split; [|exact Hcase].
        apply (delivered_pre d _ _ _ a _ Hd); reflexivity.
      * rewrite choice_gate. reflexivity.
      * apply Quiet.channel_created. rewrite filter_app.
        rewrite Quiet.client_gate by reflexivity. reflexivity.
Qed.

(** What [s_on_host_resolved] tells the user. *)
Lemma host_resolved_delivers e addrs loop alloc last_error a :
  nonzero e = true \/ addrs <> [] ->
  let out := s_on_host_resolved e addrs loop alloc last_error a in
  exists d,
    delivered d a (state out) (trace out) /\
    (d = None \/ exists e', d = Some (e', None)) /\
    choice (state out) = choice a.
Proof.
  intros Hok. cbv zeta. destruct (nonzero e) eqn:He.
  - rewrite (host_resolved_failed_run e addrs loop alloc last_error a He).
    cbn [state trace fst snd].
    destruct (delivered_setup e None a) as (d & Hd & Hcase). exists d.
    split; [exact Hd|]. split; [|apply choice_setup_state].
    destruct Hcase as [->| ->]; [left; reflexivity|right; eexists; reflexivity].
  - destruct Hok as [Hok|Hne]; [discriminate|].
    rewrite (host_resolved_run e addrs loop alloc last_error a He Hne). cbv zeta.
    destruct (allocated alloc (outgoing_port a) (outgoing_options a) loop 0 addrs [])
      as [arr|new]; cbn [state trace fst snd].
    + destruct (delivered_setup last_error None (counted_addresses addrs a))
        as (d & Hd & Hcase). exists d.
      split; [|split].
      * rewrite app_assoc.
        apply (delivered_pre d _ _ _ a _ Hd); [reflexivity|].
        rewrite user_callbacks_app. unfold user_callbacks.
        rewrite filter_allocate_calls, filter_free_calls by reflexivity. reflexivity.
      * destruct Hcase as [->| ->]; [left; reflexivity|right; eexists; reflexivity].
      * rewrite choice_setup_state. reflexivity.
    + exists None. split; [|split; [left; reflexivity|]].
      * cbn. rewrite flags_acquired_n. split; [reflexivity|].
        rewrite user_callbacks_app. unfold user_callbacks.
        rewrite filter_allocate_calls, filter_schedule_calls by reflexivity. reflexivity.
      * rewrite choice_acquired_n. reflexivity.
Qed.

(** What [s_on_client_channel_on_setup_completed] tells the user. *)
Lemma setup_completed_delivers c e r last_error a :
  let out := s_on_client_channel_on_setup_completed c e r last_error a in
  exists d,
    delivered d a (state out) (trace out) /\
    (d = None \/ d = Some (0, Some c)) /\
    choice (state out) = choice a.
Proof.
  cbv zeta. destruct (e =? 0) eqn:He.
  - apply Z.eqb_eq in He. subst e.
    destruct (client_setup_completed_run c r last_error a) as (slots & Hs & Hrun & _).
    rewrite Hrun.
    assert (Hu : user_callbacks slots = []).
    { apply filter_slot_calls; [|exact Hs].
      intros x; destruct x; try reflexivity; discriminate. }
    destruct (client_setup_outcome r a); cbn [trace state fst snd].
    + destruct (delivered_setup AWS_OP_SUCCESS (Some c) a) as (d & Hd & Hcase).
      exists d. split; [|split; [exact Hcase|apply choice_setup_state]].
      apply (delivered_pre d _ _ _ a _ Hd); [reflexivity|exact Hu].
    + exists None. cbn. auto.
    + exists None. cbn. rewrite user_callbacks_app, Hu. auto.
  - unfold s_on_client_channel_on_setup_completed, nonzero, setup_completed_error.
    rewrite He. exists None. cbn. auto.
Qed.

(** What [s_tls_client_on_negotiation_result] tells the user. *)
Lemma negotiation_delivers c e a :
  exists d,
    delivered d a (negotiation_state e a) (negotiation_calls c e a) /\
    (d = None \/ d = Some (0, channel (channel_data a))) /\
    choice (negotiation_state e a) = choice a.
Proof.
  unfold negotiation_state, negotiation_calls.
  assert (Hpre : user_callbacks
            (if user_on_negotiation_result (channel_data a)
             then [UserOnNegotiationResult e] else []) = []).
  { destruct (user_on_negotiation_result (channel_data a)); reflexivity. }
  destruct (nonzero e).
  - exists None. cbn. rewrite user_callbacks_app, Hpre. auto.
  - destruct (delivered_setup AWS_ERROR_SUCCESS (channel (channel_data a)) a)
      as (d & Hd & Hcase).
    exists d. split; [|split; [exact Hcase|apply choice_setup_state]].
    apply (delivered_pre d _ _ _ a _ Hd); [reflexivity|exact Hpre].
Qed.

(** What [s_on_client_channel_on_shutdown] tells the user. *)
Lemma shutdown_delivers c e a :
  let a' := on_shutdown_state AWS_ERROR_UNKNOWN e a in
  let tr := on_shutdown_calls AWS_ERROR_UNKNOWN c e a in
  choice a' = choice a /\
  if setup_called a then
    flags a' = flags a /\
    user_callbacks tr = (if shutdown_callback a then [ShutdownCallback e (Some c)] else [])
  else
    delivered (Some (or_unknown AWS_ERROR_UNKNOWN e, None)) a a' tr.
Proof.
  cbv zeta. unfold on_shutdown_state, on_shutdown_calls, shutdown_state, shutdown_calls.
  assert (Hpost : forall x, user_callbacks (ChannelDestroy c :: socket_calls (socket (channel_data x)) ++ release_calls x) = []).
  { intros x. change (ChannelDestroy c :: ?l) with ([ChannelDestroy c] ++ l).
    rewrite !user_callbacks_app, user_callbacks_release.
    destruct (socket (channel_data x)); reflexivity. }
  destruct (setup_called a) eqn:Hs.
  - split; [reflexivity|]. split; [reflexivity|].
    rewrite user_callbacks_app, Hpost, app_nil_r.
    destruct (shutdown_callback a); reflexivity.
  - split; [change (choice (setup_state (or_unknown AWS_ERROR_UNKNOWN e) a) = choice a);
            apply choice_setup_state|].
    cbn. rewrite user_callbacks_app, Hpost, app_nil_r.
    change (flags (released ?x)) with (flags x).
    rewrite flags_setup_state, user_callbacks_setup_calls, Hs. auto.
Qed.

Lemma nonzero_eqb e : negb (nonzero e) = (e =? 0).
Proof. unfold nonzero. apply negb_involutive. Qed.

(** A handler that tells the user nothing, or delivers the setup
    callback, keeps the protocol. *)
Lemma protocol_delivered s s' d tr :
  protocol_inv s ->
  delivered d (Race.args s) (Race.args s') tr ->
  Race.log s' = Race.log s ++ tr ->
  (Race.chan s = Race.Destroyed -> Race.chan s' = Race.Destroyed) ->
  (forall c, live_channel (Race.chan s) = Some c -> live_channel (Race.chan s') = Some c) ->
  (forall e c, d = Some (e, Some c) -> e = 0 /\ live_channel (Race.chan s') = Some c) ->
  protocol_inv s'.
Proof.
  intros Hp Hd Hlog Hdes Hlive Hnew. unfold protocol_inv. rewrite Hlog, user_callbacks_app.
  destruct Hp as [(Hu & Hf) | [(e0 & ch0 & Hu & Hf & Hch) | (ch0 & e' & c0 & Hu & Hor & Hdest & Hs)]];
    rewrite Hu; destruct d as [[e ch]|]; cbn in Hd.
  - destruct Hd as (_ & Hf' & Hu'). rewrite Hu', Hf'. right; left.
    exists e, ch. split; [reflexivity|]. split.
    + unfold flags in Hf. injection Hf as _ ->. rewrite andb_true_r, nonzero_eqb. reflexivity.
    + intros c ->. apply (Hnew e c eq_refl).
  - destruct Hd as (Hf' & Hu'). rewrite Hu', Hf'. left. auto.
  - destruct Hd as (Hsc & _). unfold flags in Hf. congruence.
  - destruct Hd as (Hf' & Hu'). rewrite Hu', Hf'. right; left.
    exists e0, ch0. split; [reflexivity|]. split; [exact Hf|].
    intros c Hc. destruct (Hch c Hc) as [He Hl]. split; [exact He|apply Hlive; exact Hl].
  - destruct Hd as (Hsc & _). congruence.
  - destruct Hd as (Hf' & Hu'). rewrite Hu'. right; right.
    exists ch0, e', c0. split; [reflexivity|]. split; [exact Hor|]. split; [auto|].
    unfold flags in Hf'. congruence.
Qed.

Lemma channel_kept s s' :
  channel_inv s ->
  choice (Race.args s') = choice (Race.args s) ->
  (Race.chan s' <> Race.NoChannel -> Race.chan s <> Race.NoChannel) ->
  (forall c, live_channel (Race.chan s') = Some c -> live_channel (Race.chan s) = Some c) ->
  channel_inv s'.
Proof.
  intros [H1 H2] Hc Hn Hl. unfold choice in Hc. injection Hc as Hc1 Hc2.
  split.
  - intros H. rewrite Hc1. apply H1, Hn, H.
  - intros c H. rewrite Hc2. apply H2, Hl, H.
Qed.

Lemma live_phase_after_setup c tls tr :
  live_channel (Race.phase_after_setup c tls tr) = Some c.
Proof. unfold Race.phase_after_setup. destruct (Race.shutdown_requested tr); [|destruct tls]; reflexivity. Qed.

Lemma phase_after_setup_exists c tls tr :
  Race.phase_after_setup c tls tr <> Race.NoChannel /\
  Race.phase_after_setup c tls tr <> Race.Destroyed.
Proof.
  unfold Race.phase_after_setup.
  destruct (Race.shutdown_requested tr); [|destruct tls]; split; discriminate.
Qed.

Lemma step_protocol ev s s' :
  protocol_inv s -> channel_inv s ->
  Race.step AWS_ERROR_UNKNOWN ev s = Some s' ->
  protocol_inv s' /\ channel_inv s'.
Proof.
  intros Hp Hc Hstep. unfold Race.step in Hstep.
  destruct (Race.freed s); [discriminate|].
  destruct ev as [e addrs loop alloc le | status sock init conn le | sk loop e copy nc
                 | e r le | e | e].
  - (* the resolver answers *)
    destruct (Race.resolving s && (nonzero e || negb (Nat.eqb (List.length addrs) 0))) eqn:Hen;
      [|discriminate].
    apply andb_prop in Hen. destruct Hen as [_ Hen].
    assert (Hok : nonzero e = true \/ addrs <> []).
    { apply orb_prop in Hen. destruct Hen as [H|H]; [left; exact H|right].
      intros ->. discriminate. }
    destruct (host_resolved_delivers e addrs loop alloc le (Race.args s) Hok)
      as (d & Hd & Hcase & Hch).
    destruct (s_on_host_resolved e addrs loop alloc le (Race.args s)) as [[tasks a'] tr].
    cbn [state trace fst snd] in *. injection Hstep as <-. split.
    + apply (protocol_delivered s _ d tr Hp); cbn; auto.
      intros e0 c0 ->. destruct Hcase as [H|[e' H]]; discriminate.
    + apply (channel_kept s); cbn; auto.
  - (* a task runs *)
    destruct (Race.scheduled s) as [|td rest]; [discriminate|].
    rewrite attempt_connection_run in Hstep. injection Hstep as <-.
    destruct (attempt_delivers td status sock init conn le (Race.args s))
      as (d & Hd & Hcase & Hch).
    split.
    + eapply (protocol_delivered s _ d); [exact Hp|exact Hd|reflexivity|..]; cbn; auto.
      intros e0 c0 ->. destruct Hcase as [H|[e' H]]; discriminate.
    + apply (channel_kept s); cbn; auto.
  - (* a connect completes *)
    destruct (Race.take_socket sk (Race.connecting s)) as [[addr rest]|]; [|discriminate].
    rewrite established_run in Hstep. injection Hstep as <-.
    pose proof (established_delivers sk addr loop e copy nc (Race.args s)) as H.
    cbv zeta in H. destruct (gives_up e (Race.args s)).
    + destruct H as ((d & Hd & Hcase) & Hch & Hcc). split.
      * eapply (protocol_delivered s _ d); [exact Hp|exact Hd|reflexivity|..]; cbn; rewrite ?Hcc; auto.
        intros e0 c0 ->. destruct Hcase as [H|H]; discriminate.
      * apply (channel_kept s); cbn; rewrite ?Hcc; auto.
    + destruct H as (Hnc & H).
      assert (Hno : Race.chan s = Race.NoChannel).
      { destruct Hc as [Hc _]. destruct (Race.chan s); try reflexivity;
          (assert (Hx : connection_chosen (Race.args s) = true) by (apply Hc; discriminate));
          congruence. }
      destruct nc as [c|].
      * destruct H as (Hf & Hu & Hch & Hcc). split.
        -- eapply (protocol_delivered s _ None); [exact Hp|split; [exact Hf|exact Hu]
                                                  |reflexivity|..];
             cbn; rewrite ?Hcc, ?Hno; auto; try discriminate.
        -- split; cbn; rewrite Hcc; cbn.
           ++ intros _. unfold choice in Hch. congruence.
           ++ intros c0 Hc0. unfold choice in Hch. congruence.
      * destruct H as ((d & Hd & Hcase) & Hch & Hcc). split.
        -- eapply (protocol_delivered s _ d); [exact Hp|exact Hd|reflexivity|..]; cbn; rewrite ?Hcc; auto.
           intros e0 c0 ->. destruct Hcase as [H|H]; discriminate.
        -- split; cbn; rewrite Hcc, Hno; cbn; [congruence|discriminate].
  - (* the channel completes its setup *)
    destruct (Race.chan s) as [|c|c|c|c err|] eqn:Hchan; try discriminate.
    destruct (setup_completed_delivers c e r le (Race.args s)) as (d & Hd & Hcase & Hch).
    destruct (s_on_client_channel_on_setup_completed c e r le (Race.args s)) as [[u a'] tr].
    cbn [state trace fst snd] in *. injection Hstep as <-. split.
    + eapply (protocol_delivered s _ d); [exact Hp|exact Hd|reflexivity|..]; cbn; rewrite ?Hchan; try discriminate; auto.
      * intros c0 Hc0. injection Hc0 as <-. apply live_phase_after_setup.
      * intros e0 c0 ->. destruct Hcase as [H|H]; [discriminate|].
        injection H as <- <-. split; [reflexivity|apply live_phase_after_setup].
    + apply (channel_kept s); cbn; rewrite ?Hchan; auto; try discriminate.
      intros c0. rewrite live_phase_after_setup. auto.
  - (* the TLS negotiation ends *)
    destruct (Race.chan s) as [|c|c|c|c err|] eqn:Hchan; try discriminate.
    rewrite negotiation_result_run in Hstep. injection Hstep as <-.
    destruct (negotiation_delivers c e (Race.args s)) as (d & Hd & Hcase & Hch).
    assert (Hname : channel (channel_data (Race.args s)) = Some c).
    { destruct Hc as [_ Hc]. apply Hc. rewrite Hchan. reflexivity. }
    split.
    + eapply (protocol_delivered s _ d); [exact Hp|exact Hd|reflexivity|..]; cbn; rewrite ?Hchan; try discriminate; auto.
      * intros c0 Hc0. injection Hc0 as <-. apply live_phase_after_setup.
      * intros e0 c0 ->. destruct Hcase as [H|H]; [discriminate|].
        rewrite Hname in H. injection H as <- <-.
        split; [reflexivity|apply live_phase_after_setup].
    + apply (channel_kept s); cbn; rewrite ?Hchan; auto; try discriminate.
      intros c0. rewrite live_phase_after_setup. auto.
  - (* the channel completes its shutdown *)
    assert (Hen : exists c,
               live_channel (Race.chan s) = Some c /\
               Some s' =
               (let '(_, a, tr) :=
                  s_on_client_channel_on_shutdown AWS_ERROR_UNKNOWN c e (Race.args s) in
                Some {| Race.args := a; Race.freed := Race.args_freed tr;
                        Race.resolving := Race.resolving s;
                        Race.scheduled := Race.scheduled s;
                        Race.connecting := Race.connecting s;
                        Race.chan := Race.Destroyed; Race.log := Race.log s ++ tr |})).
    { destruct (Race.chan s) as [|c|c|c|c err|]; try discriminate;
        try (exists c; split; [reflexivity|symmetry; exact Hstep]).
      destruct (e =? err); [|discriminate].
      exists c; split; [reflexivity|symmetry; exact Hstep]. }
    clear Hstep. destruct Hen as (c & Hlive & Hstep).
    rewrite on_shutdown_run in Hstep. injection Hstep as ->.
    destruct (shutdown_delivers c e (Race.args s)) as (Hch & Hd).
    split.
    + destruct (setup_called (Race.args s)) eqn:Hsc.
      * destruct Hd as (Hf & Hu).
        unfold protocol_inv. cbn [Race.log Race.args Race.chan].
        rewrite user_callbacks_app, Hu, Hf.
        destruct Hp as [(Hu0 & Hf0) | [(e0 & ch0 & Hu0 & Hf0 & Hch0)
                                      | (ch0 & e' & c0 & Hu0 & Hor & Hdest & Hs)]].
        -- unfold flags in Hf0. congruence.
        -- rewrite Hu0. unfold flags in Hf0. injection Hf0 as _ Hcb. rewrite Hcb.
           destruct (e0 =? 0) eqn:He0.
           ++ apply Z.eqb_eq in He0. subst e0. right; right.
              exists ch0, e, c. split; [reflexivity|].
              split; [|split; [reflexivity|unfold flags in Hf; congruence]].
              destruct ch0 as [c1|]; [right|left; reflexivity].
              destruct (Hch0 c1 eq_refl) as [_ Hl]. congruence.
           ++ right; left. exists e0, ch0. rewrite app_nil_r.
              split; [reflexivity|]. split; [unfold flags; rewrite Hsc, Hcb, He0; reflexivity|].
              intros c1 Hc1. destruct (Hch0 c1 Hc1) as [He _].
              apply Z.eqb_neq in He0. contradiction.
        -- rewrite Hdest in Hlive. discriminate.
      * destruct Hd as (_ & Hf & Hu).
        destruct Hp as [(Hu0 & Hf0) | [(e0 & ch0 & Hu0 & Hf0 & Hch0)
                                      | (ch0 & e' & c1 & Hu0 & Hor & Hdest & Hs)]].
        -- right; left. exists (or_unknown AWS_ERROR_UNKNOWN e), None.
           cbn [Race.log Race.args Race.chan].
           rewrite user_callbacks_app, Hu0, Hu, Hf.
           unfold flags in Hf0. injection Hf0 as _ ->.
           rewrite andb_true_r, nonzero_eqb. repeat split; discriminate.
        -- unfold flags in Hf0. congruence.
        -- congruence.
    + apply (channel_kept s); cbn; auto.
      * intros _ H. rewrite H in Hlive. discriminate.
      * discriminate.
Qed.

Lemma run_protocol evs :
  forall s s',
    protocol_inv s -> channel_inv s ->
    Race.run AWS_ERROR_UNKNOWN evs s = Some s' ->
    protocol_inv s' /\ channel_inv s'.
Proof.
  induction evs as [|ev evs IH]; intros s s' Hp Hc Hrun; cbn [Race.run] in Hrun.
  - injection Hrun as <-. auto.
  - destruct (Race.step AWS_ERROR_UNKNOWN ev s) as [s1|] eqn:Hstep; [|discriminate].
    destruct (step_protocol ev s s1 Hp Hc Hstep) as [Hp1 Hc1].
    exact (IH s1 s' Hp1 Hc1 Hrun).
Qed.

(** The state a successful call starts the race from. *)
Lemma started_quiet pn host port o co r s0 :
  Race.started pn host port o co r = Some s0 ->
  user_callbacks (Race.log s0) = [] /\ flags (Race.args s0) = (false, true) /\
  Race.chan s0 = Race.NoChannel /\ Race.freed s0 = false.
Proof.
  unfold Race.started, s_new_client_channel.
  destruct r as [aa tc hna rh sa lsi lsc lcl], o as [t d]. cbn [args_alloc].
  destruct aa; cbn [negb]; [|discriminate].
  destruct co as [co|], d, tc, hna, rh, sa as [sk|], lsi, lsc;
    vm_compute; intros H; try discriminate; injection H as <-; repeat split.
Qed.

(** X10: in every state a connection race reaches after a successful call
    of [aws_client_bootstrap_new_socket_channel] or
    [aws_client_bootstrap_new_tls_socket_channel], the user has seen
    nothing yet, or the setup callback once, or the setup callback once
    with error code 0 followed by the shutdown callback once.  The setup
    callback is never invoked twice, and the shutdown callback is never
    invoked before it, after a setup callback that reported an error, or
    twice.  A channel that the setup callback handed over came with error
    code 0 and still exists as long as the shutdown callback has not been
    invoked; the shutdown callback carries the channel that was
    destroyed, which is the one the setup callback handed over, if it
    handed one over. *)
Theorem race_user_callbacks pn host port o co r s0 evs s :
  Race.started pn host port o co r = Some s0 ->
  Race.run AWS_ERROR_UNKNOWN evs s0 = Some s ->
  (user_callbacks (Race.log s) = [] /\ setup_called (Race.args s) = false)
  \/
  (exists e ch,
     user_callbacks (Race.log s) = [SetupCallback e ch] /\
     setup_called (Race.args s) = true /\
     forall c, ch = Some c -> e = 0 /\ live_channel (Race.chan s) = Some c)
  \/
  (exists ch e' c,
     user_callbacks (Race.log s) = [SetupCallback 0 ch; ShutdownCallback e' (Some c)] /\
     (ch = None \/ ch = Some c) /\
     Race.chan s = Race.Destroyed).
Proof.
  intros Hstart Hrun.
  destruct (started_quiet pn host port o co r s0 Hstart) as (Hu & Hf & Hchan & _).
  assert (Hp0 : protocol_inv s0) by (left; auto).
  assert (Hc0 : channel_inv s0).
  { split; rewrite Hchan; [congruence|discriminate]. }
  destruct (run_protocol evs s0 s Hp0 Hc0 Hrun) as [Hp _].
  destruct Hp as [(Hu1 & Hf1) | [(e & ch & Hu1 & Hf1 & Hch) | (ch & e' & c & Hu1 & Hor & Hd & _)]].
  - left. unfold flags in Hf1. split; [exact Hu1|congruence].
  - right; left. exists e, ch. unfold flags in Hf1. repeat split; try assumption;
      try congruence; apply (Hch c); assumption.
  - right; right. exists ch, e', c. auto.
Qed.

End RaceProtocol.

Lemma race_user_callbacks_witness :
  match Race.run 2 MoreScripts.connect_and_close Examples.race_start with
  | Some s =>
      MoreForms.user_callbacks (Race.log s) =
        [SetupCallback 0 (Some 5%nat); ShutdownCallback 0 (Some 5%nat)] /\
      ((MoreForms.user_callbacks (Race.log s) = [] /\
        Client.setup_called (Race.args s) = false)
       \/
       (exists e ch,
          MoreForms.user_callbacks (Race.log s) = [SetupCallback e ch] /\
          Client.setup_called (Race.args s) = true /\
          forall c, ch = Some c -> e = 0 /\ RaceInv.live_channel (Race.chan s) = Some c)
       \/
       (exists ch e' c,
          MoreForms.user_callbacks (Race.log s) =
            [SetupCallback 0 ch; ShutdownCallback e' (Some c)] /\
          (ch = None \/ ch = Some c) /\
          Race.chan s = Race.Destroyed))
  | None => False
  end.
Proof.
  eassert (Hrun : Race.run 2 MoreScripts.connect_and_close Examples.race_start = Some _)
    by (vm_compute; reflexivity).
  rewrite Hrun. split; [reflexivity|].
  exact (race_user_callbacks 2 false "example.com" 443 Examples.stream_ipv4 None
           Examples.all_succeed Examples.race_start MoreScripts.connect_and_close _
           eq_refl Hrun).
Defined.

(** ** Every state of a connection race: the references on the state *)

Section RaceMemory.

Import Client ClientForms ClientRuns MoreForms RaceInv.

Variable AWS_ERROR_UNKNOWN : Z.

Lemma args_freed_app l1 l2 :
  Race.args_freed (l1 ++ l2) = Race.args_freed l1 || Race.args_freed l2.
Proof. apply existsb_app. Qed.

Lemma uint32_small z : 0 <= z < 2 ^ 32 -> uint32_t z = z.
Proof. intros H. unfold uint32_t. apply Z.mod_small. exact H. Qed.

Lemma pending_range a : 0 <= pending a <= 1.
Proof. unfold pending. destruct (setup_called a); lia. Qed.

Lemma users_nonneg s : 0 <= users s.
Proof. unfold users. destruct (live_channel (Race.chan s)); lia. Qed.

Lemma pending_flags a a' : flags a' = flags a -> pending a' = pending a.
Proof. unfold flags, pending. intros H. injection H as -> _. reflexivity. Qed.

Lemma refs_quiet a a' tr :
  pending a' = pending a -> ref_count a' = ref_count a -> Race.args_freed tr = false ->
  refs_ok 0 a a' tr.
Proof.
  intros Hp Hr Hf _. rewrite Hp, Hr, Hf, Z.eqb_refl. cbn. split; [lia|]. split; [lia|reflexivity].
Qed.

Lemma refs_setup e ch a : refs_ok 0 a (setup_state e a) (setup_calls e ch a).
Proof.
  unfold setup_state, setup_calls. destruct (setup_called a) eqn:Hs.
  - apply refs_quiet; reflexivity.
  - intros Hpre. unfold pending in *. rewrite Hs in *.
    assert (Hsc : setup_called (released (marked e a)) = true).
    { unfold marked. destruct (nonzero e); reflexivity. }
    rewrite Hsc, ref_count_released, ref_count_marked.
    rewrite uint32_small by lia.
    change (SetupCallback e ch :: ?l) with ([SetupCallback e ch] ++ l).
    rewrite args_freed_app, args_freed_release, ref_count_marked, uint32_small by lia.
    cbn [Race.args_freed existsb is_client_args_free orb].
    replace (ref_count a - 1 =? ref_count a) with false by (symmetry; apply Z.eqb_neq; lia).
    cbn [negb andb]. repeat split; lia.
Qed.

Lemma refs_gate e a : refs_ok 0 a (gate e a) (gate_calls e a).
Proof.
  unfold gate, gate_calls. destruct (gate_open a); [apply refs_setup|].
  apply refs_quiet; reflexivity.
Qed.

Lemma refs_released own a a1 tr :
  0 <= own -> refs_ok own a a1 tr ->
  refs_ok (own + 1) a (released a1) (tr ++ release_calls a1).
Proof.
  intros Hown H Hpre.
  destruct H as (Hp & Hrc & Hfr); [lia|].
  pose proof (pending_range a1) as Hr1.
  change (pending (released a1)) with (pending a1).
  rewrite ref_count_released, args_freed_app, args_freed_release, Hfr.
  rewrite uint32_small by lia.
  replace (ref_count a1 =? 0) with false by (symmetry; apply Z.eqb_neq; lia).
  rewrite andb_false_r. cbn [orb].
  replace (ref_count a1 - 1 =? ref_count a) with false by (symmetry; apply Z.eqb_neq; lia).
  cbn [negb andb]. repeat split; lia.
Qed.

Lemma refs_pre own a0 a a' pre tr :
  refs_ok own a0 a' tr -> pending a0 = pending a -> ref_count a0 = ref_count a ->
  Race.args_freed pre = false -> refs_ok own a a' (pre ++ tr).
Proof.
  intros H Hp Hr Hf Hpre. rewrite <- Hp, <- Hr in *.
  rewrite args_freed_app, Hf. cbn [orb]. apply H. exact Hpre.
Qed.

Lemma refs_post own a a1 a' tr post :
  refs_ok own a a1 tr -> pending a' = pending a1 -> ref_count a' = ref_count a1 ->
  Race.args_freed post = false -> refs_ok own a a' (tr ++ post).
Proof.
  intros H Hp Hr Hf Hpre. rewrite Hp, Hr, args_freed_app, Hf, orb_false_r.
  apply H. exact Hpre.
Qed.

Lemma failed_refs td e a : refs_ok 1 a (failed_state e a) (failed_calls td e a).
Proof.
  unfold failed_state, failed_calls. rewrite app_assoc.
  apply (refs_post 1 a (released (gate e (incr a)))); try reflexivity.
  apply (refs_released 0); [lia|].
  rewrite <- (app_nil_l (gate_calls e (incr a))).
  apply (refs_pre 0 (incr a)); try reflexivity. apply refs_gate.
Qed.

(** The references [s_attempt_connection] gives back. *)
Lemma attempt_refs td status sock init conn last_error a :
  refs_ok (if attempt_connects status sock init conn then 0 else 1) a
    (attempt_state status sock init conn last_error a)
    (attempt_calls td status sock init conn last_error a).
Proof.
  unfold attempt_state, attempt_calls.
  assert (Hpre : Race.args_freed (attempt_socket_calls td status sock init conn) = false).
  { unfold attempt_socket_calls.
    destruct (is_run_ready status), sock, init, conn; reflexivity. }
  destruct (attempt_connects status sock init conn).
  - apply refs_quiet; try reflexivity. rewrite args_freed_app, Hpre. reflexivity.
  - apply (refs_pre 1 a); try reflexivity; [|exact Hpre]. apply failed_refs.
Qed.

Lemma counted_refs e a : pending (counted e a) = pending a /\ ref_count (counted e a) = ref_count a.
Proof. unfold counted. destruct (nonzero e); split; reflexivity. Qed.

(** The references [s_on_client_connection_established] gives back. *)
Lemma established_refs sk addr loop e copy nc a :
  refs_ok (if gives_up e a then 1 else 0) a
    (established_state sk e nc a) (established_calls sk addr loop e copy nc a).
Proof.
  unfold established_state, established_calls. destruct (gives_up e a).
  - unfold lost_state, lost_calls. destruct (counted_refs e a) as [Hp Hr].
    rewrite app_assoc.
    apply (refs_pre 1 (counted e a)); [|exact Hp|exact Hr|].
    + apply (refs_released 0); [lia|]. apply refs_gate.
    + apply existsb_filter. rewrite filter_app, Quiet.client_record by reflexivity.
      reflexivity.
  - unfold won_state, won_calls. destruct nc as [c|].
    + apply refs_quiet; reflexivity.
    + apply (refs_pre 0 (incr (chosen sk None a))); try reflexivity. apply refs_gate.
Qed.

(** The references [s_on_client_channel_on_setup_completed] gives back. *)
Lemma setup_completed_refs c e r last_error a :
  let out := s_on_client_channel_on_setup_completed c e r last_error a in
  refs_ok 0 a (state out) (trace out).
Proof.
  cbv zeta. destruct (e =? 0) eqn:He.
  - apply Z.eqb_eq in He. subst e.
    destruct (client_setup_completed_run c r last_error a) as (slots & Hs & Hrun & _).
    rewrite Hrun.
    assert (Hf : Race.args_freed slots = false).
    { apply existsb_filter. apply filter_slot_calls; [|exact Hs].
      intros x; destruct x; try reflexivity; try discriminate.
      destruct o; try reflexivity; discriminate. }
    destruct (client_setup_outcome r a); cbn [trace state fst snd].
    + apply (refs_pre 0 a); try reflexivity; [|exact Hf]. apply refs_setup.
    + apply refs_quiet; try reflexivity. exact Hf.
    + apply refs_quiet; try reflexivity. rewrite args_freed_app, Hf. reflexivity.
  - unfold s_on_client_channel_on_setup_completed, nonzero, setup_completed_error.
    rewrite He. apply refs_quiet; reflexivity.
Qed.

(** The references [s_tls_client_on_negotiation_result] gives back. *)
Lemma negotiation_refs c e a :
  refs_ok 0 a (negotiation_state e a) (negotiation_calls c e a).
Proof.
  unfold negotiation_state, negotiation_calls.
  assert (Hpre : Race.args_freed
            (if user_on_negotiation_result (channel_data a)
             then [UserOnNegotiationResult e] else []) = false).
  { destruct (user_on_negotiation_result (channel_data a)); reflexivity. }
  destruct (nonzero e).
  - apply refs_quiet; try reflexivity. rewrite args_freed_app, Hpre. reflexivity.
  - apply (refs_pre 0 a); try reflexivity; [|exact Hpre]. apply refs_setup.
Qed.

(** The references [s_on_client_channel_on_shutdown] gives back. *)
Lemma shutdown_refs c e a :
  refs_ok 1 a (on_shutdown_state AWS_ERROR_UNKNOWN e a)
    (on_shutdown_calls AWS_ERROR_UNKNOWN c e a).
Proof.
  unfold on_shutdown_state, on_shutdown_calls.
  change (ChannelDestroy c :: ?l) with ([ChannelDestroy c] ++ l).
  rewrite !app_assoc. apply (refs_released 0); [lia|].
  rewrite <- app_assoc.
  apply (refs_post 0 a (shutdown_state AWS_ERROR_UNKNOWN e a)); try reflexivity.
  - unfold shutdown_state, shutdown_calls. destruct (setup_called a).
    + apply refs_quiet; try reflexivity. destruct (shutdown_callback a); reflexivity.
    + apply refs_setup.
  - rewrite args_freed_app. destruct (socket (channel_data _)); reflexivity.
Qed.

Lemma free_calls_keep_state arr : Race.args_freed (free_calls arr) = false.
Proof. induction arr as [|[td|] rest IH]; [reflexivity|exact IH|exact IH]. Qed.

Lemma connect_started_length td status sock init conn :
  List.length (Race.connect_started td status sock init conn) =
  if attempt_connects status sock init conn then 1%nat else 0%nat.
Proof.
  unfold Race.connect_started, attempt_connects.
  destruct (is_run_ready status), sock, init, conn; reflexivity.
Qed.

Lemma take_socket_length sk :
  forall l addr rest,
    Race.take_socket sk l = Some (addr, rest) -> List.length l = Datatypes.S (List.length rest).
Proof.
  induction l as [|[s' a] l IH]; intros addr rest H; cbn [Race.take_socket] in H.
  - discriminate.
  - destruct (Nat.eqb sk s').
    + injection H as _ <-. reflexivity.
    + destruct (Race.take_socket sk l) as [[a' rest']|]; [|discriminate].
      injection H as _ <-. cbn [List.length]. rewrite (IH a' rest' eq_refl). reflexivity.
Qed.

(** A handler that gives back the references of what it used up keeps the
    state referenced by everything that is left. *)
Lemma memory_after s s' own tr :
  Race.freed s = false -> memory_inv s ->
  refs_ok own (Race.args s) (Race.args s') tr ->
  Race.freed s' = Race.args_freed tr ->
  0 <= own -> users s' + own <= users s ->
  Race.resolving s' = false \/ (Race.resolving s' = Race.resolving s /\ 1 <= users s) ->
  memory_inv s'.
Proof.
  intros Hf Hinv Hrefs Hfreed Hown Husers Hres.
  unfold memory_inv in *. rewrite Hf in Hinv. destruct Hinv as ((Hle & Hlt) & H1 & Hr).
  pose proof (users_nonneg s') as Hu'. pose proof (pending_range (Race.args s)) as Hpa.
  unfold holders in *.
  destruct Hrefs as (Hp & Hrc & Hfr); [lia|].
  pose proof (pending_range (Race.args s')) as Hpa'.
  assert (Hres' : Race.resolving s' = false).
  { destruct Hres as [H|[H Hu]]; [exact H|].
    destruct (Race.resolving s) eqn:E; [|exact H].
    destruct (Hr eq_refl) as [Hone Hsc]. unfold pending in Hle. rewrite Hsc in Hle. lia. }
  rewrite Hfreed, Hfr.
  destruct (negb (ref_count (Race.args s') =? ref_count (Race.args s))
            && (ref_count (Race.args s') =? 0)) eqn:E.
  - apply andb_prop in E. destruct E as [_ E]. apply Z.eqb_eq in E.
    repeat split; try assumption; lia.
  - split; [lia|]. split.
    + destruct (ref_count (Race.args s') =? ref_count (Race.args s)) eqn:E1.
      * apply Z.eqb_eq in E1. lia.
      * cbn [negb andb] in E. apply Z.eqb_neq in E. lia.
    + rewrite Hres'. discriminate.
Qed.

Lemma step_memory ev s s' :
  channel_inv s -> memory_inv s -> bounded_event ev ->
  Race.step AWS_ERROR_UNKNOWN ev s = Some s' ->
  memory_inv s'.
Proof.
  intros Hc Hm Hb Hstep. unfold Race.step in Hstep.
  destruct (Race.freed s) eqn:Hf; [discriminate|].
  destruct ev as [e addrs loop alloc le | status sock init conn le | sk loop e copy nc
                 | e r le | e | e].
  - (* the resolver answers *)
    destruct (Race.resolving s) eqn:Hres; [|discriminate]. cbn [andb] in Hstep.
    destruct (nonzero e || negb (Nat.eqb (List.length addrs) 0)) eqn:Hen; [|discriminate].
    pose proof Hm as Hm0. unfold memory_inv in Hm0. rewrite Hf in Hm0.
    destruct Hm0 as ((Hle & Hlt) & H1 & Hr). destruct (Hr Hres) as [Hone Hsc].
    assert (Hu0 : users s = 0).
    { pose proof (users_nonneg s). unfold holders, pending in Hle. rewrite Hsc in Hle. lia. }
    destruct (nonzero e) eqn:He.
    + rewrite (host_resolved_failed_run e addrs loop alloc le (Race.args s) He) in Hstep.
      injection Hstep as <-.
      eapply (memory_after s _ 0);
        [exact Hf|exact Hm|apply refs_setup|reflexivity|lia| |left; reflexivity].
      unfold users. cbn [Race.scheduled Race.connecting Race.chan].
      rewrite app_nil_r. fold (users s). lia.
    + assert (Hne : addrs <> []).
      { intros ->. discriminate. }
      rewrite (host_resolved_run e addrs loop alloc le (Race.args s) He Hne) in Hstep.
      cbv zeta in Hstep.
      destruct (allocated alloc (outgoing_port (Race.args s))
                  (outgoing_options (Race.args s)) loop 0 addrs []) as [arr|new] eqn:Hal.
      * injection Hstep as <-.
        eapply (memory_after s _ 0); [exact Hf|exact Hm| |reflexivity|lia| |left; reflexivity].
        -- cbn [Race.args]. rewrite app_assoc.
           apply (refs_pre 0 (counted_addresses addrs (Race.args s))); try reflexivity.
           ++ apply refs_setup.
           ++ rewrite args_freed_app, free_calls_keep_state, orb_false_r.
              apply existsb_filter. apply filter_allocate_calls. reflexivity.
        -- unfold users. cbn [Race.scheduled Race.connecting Race.chan].
           rewrite app_nil_r. fold (users s). lia.
      * injection Hstep as <-.
        destruct (allocated_tasks _ _ _ _ _ _ _ _ Hal) as (new' & Hnew & Hall & _).
        cbn [app] in Hnew. subst new'.
        assert (Hlen : List.length new = List.length addrs).
        { symmetry. eapply Forall2_length. exact Hall. }
        destruct (acquired_n_fields (List.length new) (counted_addresses addrs (Race.args s)))
          as (Hrc & Hsc' & _).
        assert (Hfree : Race.args_freed
                  (allocate_calls alloc 0 addrs ++
                   schedule_calls loop new (counted_addresses addrs (Race.args s))) = false).
        { apply existsb_filter.
          rewrite filter_app, filter_allocate_calls, filter_schedule_calls by reflexivity.
          reflexivity. }
        cbn [bounded_event] in Hb. rewrite <- Hlen in Hb.
        assert (Hrc' : ref_count (acquired_n (List.length new)
                                    (counted_addresses addrs (Race.args s))) =
                       1 + Z.of_nat (List.length new)).
        { rewrite Hrc. change (ref_count (counted_addresses addrs (Race.args s)))
            with (ref_count (Race.args s)). rewrite Hone.
          destruct (Nat.eqb (List.length new) 0) eqn:E0.
          - apply Nat.eqb_eq in E0. rewrite E0. reflexivity.
          - apply uint32_small. lia. }
        assert (Hp' : pending (acquired_n (List.length new)
                                 (counted_addresses addrs (Race.args s))) = 1).
        { unfold pending. rewrite Hsc'.
          change (setup_called (counted_addresses addrs (Race.args s)))
            with (setup_called (Race.args s)). rewrite Hsc. reflexivity. }
        unfold memory_inv. cbn [Race.freed Race.args Race.resolving]. rewrite Hfree.
        unfold holders. cbn [Race.args]. rewrite Hp', Hrc'.
        unfold users in *. cbn [Race.scheduled Race.connecting Race.chan].
        rewrite length_app, Nat2Z.inj_add.
        destruct (live_channel (Race.chan s)); repeat split; try lia; discriminate.
  - (* a task runs *)
    destruct (Race.scheduled s) as [|td rest] eqn:Hs; [discriminate|].
    rewrite attempt_connection_run in Hstep. injection Hstep as <-.
    eapply (memory_after s _ (if attempt_connects status sock init conn then 0 else 1));
      [exact Hf|exact Hm|apply attempt_refs|reflexivity|..].
    + destruct (attempt_connects status sock init conn); lia.
    + unfold users. cbn [Race.scheduled Race.connecting Race.chan].
      rewrite Hs, length_app, connect_started_length. cbn [List.length].
      destruct (attempt_connects status sock init conn),
        (live_channel (Race.chan s)); lia.
    + right. split; [reflexivity|]. unfold users. rewrite Hs. cbn [List.length].
      destruct (live_channel (Race.chan s)); lia.
  - (* a connect completes *)
    destruct (Race.take_socket sk (Race.connecting s)) as [[addr rest]|] eqn:Ht; [|discriminate].
    rewrite established_run in Hstep. injection Hstep as <-.
    pose proof (take_socket_length sk _ _ _ Ht) as Hlen.
    pose proof (established_delivers sk addr loop e copy nc (Race.args s)) as Hd.
    cbv zeta in Hd.
    eapply (memory_after s _ (if gives_up e (Race.args s) then 1 else 0));
      [exact Hf|exact Hm|apply established_refs|reflexivity|..].
    + destruct (gives_up e (Race.args s)); lia.
    + unfold users. cbn [Race.scheduled Race.connecting Race.chan]. rewrite Hlen.
      destruct (gives_up e (Race.args s)).
      * destruct Hd as (_ & _ & Hcc). rewrite Hcc.
        destruct (live_channel (Race.chan s)); lia.
      * destruct Hd as (Hnc & Hd).
        assert (Hno : Race.chan s = Race.NoChannel).
        { destruct Hc as [Hc _]. destruct (Race.chan s); try reflexivity;
            (assert (Hx : connection_chosen (Race.args s) = true) by (apply Hc; discriminate));
            congruence. }
        rewrite Hno. destruct nc as [c|].
        -- destruct Hd as (_ & _ & _ & Hcc). rewrite Hcc. cbn. lia.
        -- destruct Hd as (_ & _ & Hcc). rewrite Hcc. cbn. lia.
    + right. split; [reflexivity|]. unfold users. rewrite Hlen.
      destruct (live_channel (Race.chan s)); lia.
  - (* the channel completes its setup *)
    destruct (Race.chan s) as [|c|c|c|c err|] eqn:Hchan; try discriminate.
    pose proof (setup_completed_refs c e r le (Race.args s)) as Hrefs. cbv zeta in Hrefs.
    destruct (s_on_client_channel_on_setup_completed c e r le (Race.args s)) as [[u a'] tr].
    cbn [state trace fst snd] in *. injection Hstep as <-.
    eapply (memory_after s _ 0); [exact Hf|exact Hm|exact Hrefs|reflexivity|..]; try lia.
    + unfold users. cbn [Race.scheduled Race.connecting Race.chan].
      rewrite live_phase_after_setup, Hchan. cbn. lia.
    + right. split; [reflexivity|]. unfold users. rewrite Hchan. cbn. lia.
  - (* the TLS negotiation ends *)
    destruct (Race.chan s) as [|c|c|c|c err|] eqn:Hchan; try discriminate.
    rewrite negotiation_result_run in Hstep. injection Hstep as <-.
    eapply (memory_after s _ 0); [exact Hf|exact Hm|apply negotiation_refs|reflexivity|..];
      try lia.
    + unfold users. cbn [Race.scheduled Race.connecting Race.chan].
      rewrite live_phase_after_setup, Hchan. cbn. lia.
    + right. split; [reflexivity|]. unfold users. rewrite Hchan. cbn. lia.
  - (* the channel completes its shutdown *)
    assert (Hen : exists c,
               live_channel (Race.chan s) = Some c /\
               Some s' =
               (let '(_, a, tr) :=
                  s_on_client_channel_on_shutdown AWS_ERROR_UNKNOWN c e (Race.args s) in
                Some {| Race.args := a; Race.freed := Race.args_freed tr;
                        Race.resolving := Race.resolving s;
                        Race.scheduled := Race.scheduled s;
                        Race.connecting := Race.connecting s;
                        Race.chan := Race.Destroyed; Race.log := Race.log s ++ tr |})).
    { destruct (Race.chan s) as [|c|c|c|c err|]; try discriminate;
        try (exists c; split; [reflexivity|symmetry; exact Hstep]).
      destruct (e =? err); [|discriminate].
      exists c; split; [reflexivity|symmetry; exact Hstep]. }
    clear Hstep. destruct Hen as (c & Hlive & Hstep).
    rewrite on_shutdown_run in Hstep. injection Hstep as ->.
    eapply (memory_after s _ 1); [exact Hf|exact Hm|apply shutdown_refs|reflexivity|..];
      try lia.
    + unfold users. cbn [Race.scheduled Race.connecting Race.chan]. rewrite Hlive. cbn. lia.
    + right. split; [reflexivity|]. unfold users. rewrite Hlive. lia.
Qed.

Lemma run_memory evs :
  forall s s',
    protocol_inv s -> channel_inv s -> memory_inv s ->
    Forall bounded_event evs ->
    Race.run AWS_ERROR_UNKNOWN evs s = Some s' ->
    memory_inv s'.
Proof.
  induction evs as [|ev evs IH]; intros s s' Hp Hc Hm Hb Hrun; cbn [Race.run] in Hrun.
  - injection Hrun as <-. exact Hm.
  - destruct (Race.step AWS_ERROR_UNKNOWN ev s) as [s1|] eqn:Hstep; [|discriminate].
    inversion Hb as [|? ? Hb1 Hb2]; subst.
    destruct (step_protocol AWS_ERROR_UNKNOWN ev s s1 Hp Hc Hstep) as [Hp1 Hc1].
    pose proof (step_memory ev s s1 Hc Hm Hb1 Hstep) as Hm1.
    exact (IH s1 s' Hp1 Hc1 Hm1 Hb2 Hrun).
Qed.

Lemma started_fields pn host port o co r s0 :
  Race.started pn host port o co r = Some s0 ->
  Race.freed s0 = false /\ Race.scheduled s0 = [] /\ Race.chan s0 = Race.NoChannel /\
  setup_called (Race.args s0) = false /\
  ((Race.resolving s0 = true /\ Race.connecting s0 = [] /\ ref_count (Race.args s0) = 1) \/
   (Race.resolving s0 = false /\ List.length (Race.connecting s0) = 1%nat /\
    ref_count (Race.args s0) = 2)).
Proof.
  unfold Race.started, s_new_client_channel.
  destruct r as [aa tc hna rh sa lsi lsc lcl], o as [t d]. cbn [args_alloc].
  destruct aa; cbn [negb]; [|discriminate].
  destruct co as [co|], d, tc, hna, rh, sa as [sk|], lsi, lsc;
    vm_compute; intros H; try discriminate; injection H as <-;
    (do 4 (split; [reflexivity|]));
    first [ left; repeat split; reflexivity | right; repeat split; reflexivity ].
Qed.

Lemma started_referenced pn host port o co r s0 :
  Race.started pn host port o co r = Some s0 -> memory_inv s0.
Proof.
  intros H. destruct (started_fields pn host port o co r s0 H)
    as (Hf & Hs & Hc & Hsc & Hcase).
  unfold memory_inv, holders, users, pending. rewrite Hf, Hs, Hc, Hsc. cbn [List.length live_channel].
  destruct Hcase as [(Hr & Hcn & Hrc) | (Hr & Hcn & Hrc)]; rewrite Hr, Hcn, Hrc.
  - cbn. repeat split; try lia.
  - cbn. repeat split; try lia; discriminate.
Qed.

(** X11: in every state a connection race reaches, provided that no
    resolution carries 2^32 - 2 addresses or more, the reference count of
    the connection state does not wrap: as long as the state is allocated
    the count is at least 1 and at least the number of its users (the
    state itself until the setup callback is delivered, every task that
    has not run, every connect in flight, and the channel); and once the
    state is freed the count is 0, the setup callback has been delivered,
    and no resolution, task, connect or channel is left that would use the
    state. *)
Theorem race_state_outlives_its_users pn host port o co r s0 evs s :
  Race.started pn host port o co r = Some s0 ->
  Forall bounded_event evs ->
  Race.run AWS_ERROR_UNKNOWN evs s0 = Some s ->
  if Race.freed s then
    ref_count (Race.args s) = 0 /\ setup_called (Race.args s) = true /\
    Race.quiescent s = true
  else
    1 <= ref_count (Race.args s) < 2 ^ 32 /\
    (if setup_called (Race.args s) then 0 else 1) +
    Z.of_nat (List.length (Race.scheduled s)) +
    Z.of_nat (List.length (Race.connecting s)) +
    (match live_channel (Race.chan s) with Some _ => 1 | None => 0 end)
    <= ref_count (Race.args s).
Proof.
  intros Hstart Hb Hrun.
  destruct (started_quiet pn host port o co r s0 Hstart) as (Hu & Hf & Hchan & _).
  assert (Hp0 : protocol_inv s0) by (left; auto).
  assert (Hc0 : channel_inv s0).
  { split; rewrite Hchan; [congruence|discriminate]. }
  pose proof (started_referenced pn host port o co r s0 Hstart) as Hm0.
  pose proof (run_memory evs s0 s Hp0 Hc0 Hm0 Hb Hrun) as Hm.
  unfold memory_inv, holders, users, pending in Hm.
  destruct (Race.freed s).
  - destruct Hm as (Hh & Hres & Hrc). split; [exact Hrc|].
    unfold Race.quiescent. rewrite Hres.
    destruct (setup_called (Race.args s)), (Race.scheduled s), (Race.connecting s),
      (Race.chan s); cbn in Hh |- *; try lia; auto.
  - destruct Hm as ((Hle & Hlt) & H1 & _). split; lia.
Qed.

End RaceMemory.

Lemma race_state_outlives_its_users_witness :
  match Race.run 2 MoreScripts.connect_and_close Examples.race_start with
  | Some s =>
      Race.freed s = true /\
      if Race.freed s then
        Client.ref_count (Race.args s) = 0 /\ Client.setup_called (Race.args s) = true /\
        Race.quiescent s = true
      else
        1 <= Client.ref_count (Race.args s) < 2 ^ 32 /\
        (if Client.setup_called (Race.args s) then 0 else 1) +
        Z.of_nat (List.length (Race.scheduled s)) +
        Z.of_nat (List.length (Race.connecting s)) +
        (match RaceInv.live_channel (Race.chan s) with Some _ => 1 | None => 0 end)
        <= Client.ref_count (Race.args s)
  | None => False
  end.
Proof.
  eassert (Hrun : Race.run 2 MoreScripts.connect_and_close Examples.race_start = Some _)
    by (vm_compute; reflexivity).
  rewrite Hrun. split; [reflexivity|].
  refine (race_state_outlives_its_users 2 false "example.com" 443 Examples.stream_ipv4 None
            Examples.all_succeed Examples.race_start MoreScripts.connect_and_close _
            eq_refl _ Hrun).
  repeat constructor.
Defined.

(** ** Every race that ends well delivers the setup callback and frees
    its state *)

Section RaceProgressProofs.

Import Client ClientForms ClientRuns MoreForms RaceInv RaceProgress.

Variable AWS_ERROR_UNKNOWN : Z.

Lemma setup_state_counts e a :
  failed_count (setup_state e a) = failed_count a /\
  addresses_count (setup_state e a) = addresses_count a /\
  connection_chosen (setup_state e a) = connection_chosen a.
Proof.
  unfold setup_state, marked, released.
  destruct (setup_called a); [auto|]. destruct (nonzero e); auto.
Qed.

Lemma gate_counts e a :
  failed_count (gate e a) = failed_count a /\
  addresses_count (gate e a) = addresses_count a /\
  connection_chosen (gate e a) = connection_chosen a /\
  setup_called (gate e a) = setup_called a || gate_open a.
Proof.
  unfold gate. destruct (gate_open a).
  - destruct (setup_state_counts e a) as (H1 & H2 & H3).
    rewrite setup_called_setup_state, orb_true_r. auto.
  - rewrite orb_false_r. auto.
Qed.

Lemma failed_state_counts e a :
  failed_count (failed_state e a) = uint8_t (failed_count a + 1) /\
  addresses_count (failed_state e a) = addresses_count a /\
  connection_chosen (failed_state e a) = connection_chosen a /\
  setup_called (failed_state e a) =
    setup_called a || (uint8_t (failed_count a + 1) =? addresses_count a).
Proof.
  unfold failed_state. destruct (gate_counts e (incr a)) as (H1 & H2 & H3 & H4).
  change (failed_count (released ?x)) with (failed_count x).
  change (addresses_count (released ?x)) with (addresses_count x).
  change (connection_chosen (released ?x)) with (connection_chosen x).
  change (setup_called (released ?x)) with (setup_called x).
  rewrite H1, H2, H3, H4. auto.
Qed.

Lemma lost_state_counts e a :
  nonzero e = true ->
  failed_count (lost_state e a) = uint8_t (failed_count a + 1) /\
  addresses_count (lost_state e a) = addresses_count a /\
  connection_chosen (lost_state e a) = connection_chosen a /\
  setup_called (lost_state e a) =
    setup_called a || (uint8_t (failed_count a + 1) =? addresses_count a).
Proof.
  intros He. unfold lost_state, counted. rewrite He. apply (failed_state_counts e a).
Qed.

Lemma uint8_small z : 0 <= z < 256 -> uint8_t z = z.
Proof. intros H. unfold uint8_t. apply Z.mod_small. exact H. Qed.

Lemma delivered_called d a a' tr :
  delivered d a a' tr -> setup_called a = true -> setup_called a' = true.
Proof.
  destruct d as [[e ch]|]; cbn; unfold flags.
  - intros (H & _) H'. congruence.
  - intros (H & _) H'. injection H as -> _. exact H'.
Qed.

Lemma chosen_acquired_n n a : connection_chosen (acquired_n n a) = connection_chosen a.
Proof. pose proof (choice_acquired_n n a) as H. unfold choice in H. congruence. Qed.

Lemma step_progress ev s s' :
  channel_inv s -> progress_inv s -> well_behaved_event ev ->
  Race.step AWS_ERROR_UNKNOWN ev s = Some s' ->
  progress_inv s'.
Proof.
  intros Hc Hp Hw Hstep. unfold Race.step in Hstep.
  destruct (Race.freed s) eqn:Hf; [discriminate|].
  destruct ev as [e addrs loop alloc le | status sock init conn le | sk loop e copy nc
                 | e r le | e | e].
  - (* the resolver answers *)
    destruct (Race.resolving s) eqn:Hres; [|discriminate]. cbn [andb] in Hstep.
    destruct (nonzero e || negb (Nat.eqb (List.length addrs) 0)) eqn:Hen; [|discriminate].
    assert (Hok : nonzero e = true \/ addrs <> []).
    { apply orb_prop in Hen. destruct Hen as [H|H]; [left; exact H|right].
      intros ->. discriminate. }
    destruct (host_resolved_delivers e addrs loop alloc le (Race.args s) Hok)
      as (d & Hd & _ & _).
    destruct Hp as [Hp | [Hp | [Hp | Hp]]].
    + destruct (s_on_host_resolved e addrs loop alloc le (Race.args s)) as [[tasks a'] tr].
      injection Hstep as <-. left. exact (delivered_called d _ _ _ Hd Hp).
    + destruct Hp as (_ & Hch & Hfc & Hs & Hcn).
      destruct (nonzero e) eqn:He.
      * rewrite (host_resolved_failed_run e addrs loop alloc le (Race.args s) He) in Hstep.
        injection Hstep as <-. left. apply setup_called_setup_state.
      * destruct Hok as [Hok|Hne]; [discriminate|].
        rewrite (host_resolved_run e addrs loop alloc le (Race.args s) He Hne) in Hstep.
        cbv zeta in Hstep.
        destruct (allocated alloc (outgoing_port (Race.args s))
                    (outgoing_options (Race.args s)) loop 0 addrs []) as [arr|new] eqn:Hal.
        -- injection Hstep as <-. left. apply setup_called_setup_state.
        -- injection Hstep as <-.
           destruct (allocated_tasks _ _ _ _ _ _ _ _ Hal) as (new' & Hnew & Hall & _).
           cbn [app] in Hnew. subst new'.
           assert (Hlen : List.length new = List.length addrs).
           { symmetry. eapply Forall2_length. exact Hall. }
           destruct (acquired_n_fields (List.length new)
                       (counted_addresses addrs (Race.args s)))
             as (_ & _ & Hfc' & Hac' & _).
           cbn [well_behaved_event] in Hw.
           assert (Hpos : (1 <= List.length addrs)%nat).
           { destruct addrs; [congruence|cbn; lia]. }
           right; right; right.
           unfold Race.outstanding.
           cbn [Race.resolving Race.args Race.scheduled Race.connecting].
           rewrite Hfc', Hac', Hs, Hcn, chosen_acquired_n. cbn [app List.length].
           rewrite Nat.add_0_r, Hlen.
           change (failed_count (counted_addresses addrs (Race.args s)))
             with (failed_count (Race.args s)).
           change (addresses_count (counted_addresses addrs (Race.args s)))
             with (uint8_t (Z.of_nat (List.length addrs))).
           change (connection_chosen (counted_addresses addrs (Race.args s)))
             with (connection_chosen (Race.args s)).
           rewrite Hfc, Hch, uint8_small by lia.
           repeat split; lia.
    + destruct (s_on_host_resolved e addrs loop alloc le (Race.args s)) as [[tasks a'] tr].
      injection Hstep as <-. right; right; left. exact Hp.
    + destruct Hp as (Hr & _). congruence.
  - (* a task runs *)
    destruct (Race.scheduled s) as [|td rest] eqn:Hs; [discriminate|].
    rewrite attempt_connection_run in Hstep. injection Hstep as <-.
    destruct (attempt_delivers td status sock init conn le (Race.args s))
      as (d & Hd & _ & _).
    destruct Hp as [Hp | [Hp | [Hp | Hp]]].
    + left. exact (delivered_called d _ _ _ Hd Hp).
    + destruct Hp as (_ & _ & _ & Hs' & _). congruence.
    + right; right; left. exact Hp.
    + destruct Hp as (Hr & Hch & Hsum & Hac & Hout & Hfc).
      unfold Race.outstanding in *. rewrite Hs in *. cbn [List.length] in *.
      unfold attempt_state.
      pose proof (connect_started_length td status sock init conn) as Hcs.
      destruct (attempt_connects status sock init conn).
      * right; right; right. unfold Race.outstanding.
        cbn [Race.resolving Race.args Race.scheduled Race.connecting].
        rewrite length_app, Hcs. repeat split; try assumption; lia.
      * destruct (failed_state_counts (attempt_error status le) (Race.args s))
          as (H1 & H2 & H3 & H4).
        rewrite uint8_small in H1, H4 by lia.
        destruct (failed_count (Race.args s) + 1 =? addresses_count (Race.args s)) eqn:E.
        -- left. cbn [Race.args]. rewrite H4. apply orb_true_r.
        -- apply Z.eqb_neq in E. right; right; right. unfold Race.outstanding.
           cbn [Race.resolving Race.args Race.scheduled Race.connecting].
           rewrite length_app, Hcs, H1, H2, H3. repeat split; try assumption; lia.
  - (* a connect completes *)
    destruct (Race.take_socket sk (Race.connecting s)) as [[addr rest]|] eqn:Ht; [|discriminate].
    rewrite established_run in Hstep. injection Hstep as <-.
    pose proof (take_socket_length sk _ _ _ Ht) as Hlen.
    pose proof (established_delivers sk addr loop e copy nc (Race.args s)) as Hd.
    cbv zeta in Hd. cbn [well_behaved_event] in Hw.
    destruct Hp as [Hp | [Hp | [Hp | Hp]]].
    + left. cbn [Race.args].
      destruct (gives_up e (Race.args s)).
      * destruct Hd as ((d & Hd & _) & _). exact (delivered_called d _ _ _ Hd Hp).
      * destruct Hd as (_ & Hd). destruct nc as [c|].
        -- destruct Hd as (Hfl & _). unfold flags in Hfl. congruence.
        -- destruct Hd as ((d & Hd & _) & _). exact (delivered_called d _ _ _ Hd Hp).
    + destruct Hp as (_ & _ & _ & _ & Hcn). rewrite Hcn in Ht. discriminate.
    + right; right; left. cbn [Race.chan].
      destruct (Race.channel_created _); [eexists; reflexivity|exact Hp].
    + destruct Hp as (Hr & Hch & Hsum & Hac & Hout & Hfc).
      unfold Race.outstanding in *. rewrite Hlen in *.
      unfold established_state, established_calls in *. unfold gives_up in *.
      rewrite Hch in *. rewrite orb_false_r in *.
      destruct (nonzero e) eqn:He.
      * destruct (lost_state_counts e (Race.args s) He) as (H1 & H2 & H3 & H4).
        rewrite uint8_small in H1, H4 by lia.
        destruct (failed_count (Race.args s) + 1 =? addresses_count (Race.args s)) eqn:E.
        -- left. cbn [Race.args]. rewrite H4. apply orb_true_r.
        -- apply Z.eqb_neq in E. right; right; right. unfold Race.outstanding.
           cbn [Race.resolving Race.args Race.scheduled Race.connecting].
           rewrite H1, H2, H3. repeat split; try assumption; lia.
      * assert (He0 : e = 0).
        { unfold nonzero in He. destruct (e =? 0) eqn:E; [|discriminate].
          apply Z.eqb_eq. exact E. }
        destruct nc as [c|]; [|exfalso; apply (Hw He0); reflexivity].
        right; right; left. cbn [Race.chan won_calls Race.channel_created].
        eexists; reflexivity.
  - (* the channel completes its setup *)
    destruct (Race.chan s) as [|c|c|c|c err|] eqn:Hchan; try discriminate.
    destruct (s_on_client_channel_on_setup_completed c e r le (Race.args s)) as [[u a'] tr].
    injection Hstep as <-. right; right; left. exists c. apply live_phase_after_setup.
  - (* the TLS negotiation ends *)
    destruct (Race.chan s) as [|c|c|c|c err|] eqn:Hchan; try discriminate.
    destruct (s_tls_client_on_negotiation_result c e (Race.args s)) as [[u a'] tr].
    injection Hstep as <-. right; right; left. exists c. apply live_phase_after_setup.
  - (* the channel completes its shutdown *)
    assert (Hen : exists c,
               Some s' =
               (let '(_, a, tr) :=
                  s_on_client_channel_on_shutdown AWS_ERROR_UNKNOWN c e (Race.args s) in
                Some {| Race.args := a; Race.freed := Race.args_freed tr;
                        Race.resolving := Race.resolving s;
                        Race.scheduled := Race.scheduled s;
                        Race.connecting := Race.connecting s;
                        Race.chan := Race.Destroyed; Race.log := Race.log s ++ tr |})).
    { destruct (Race.chan s) as [|c|c|c|c err|]; try discriminate;
        try (exists c; symmetry; exact Hstep).
      destruct (e =? err); [|discriminate]. exists c; symmetry; exact Hstep. }
    clear Hstep. destruct Hen as (c & Hstep).
    rewrite on_shutdown_run in Hstep. injection Hstep as ->.
    left. cbn [Race.args].
    destruct (shutdown_delivers AWS_ERROR_UNKNOWN c e (Race.args s)) as (_ & Hd).
    destruct (setup_called (Race.args s)) eqn:Hsc.
    + destruct Hd as (Hfl & _). unfold flags in Hfl. congruence.
    + destruct Hd as (_ & Hfl & _). unfold flags in Hfl. congruence.
Qed.

Lemma exact_after s s' own tr :
  Race.freed s = false -> memory_inv s -> exact_inv s ->
  refs_ok own (Race.args s) (Race.args s') tr ->
  0 <= own -> users s' + own = users s ->
  exact_inv s'.
Proof.
  intros Hf Hm He Hrefs Hown Husers _.
  unfold memory_inv in Hm. rewrite Hf in Hm. destruct Hm as ((Hle & Hlt) & H1 & _).
  specialize (He Hf). pose proof (users_nonneg s') as Hu'.
  unfold holders in *.
  destruct Hrefs as (_ & Hrc & _); lia.
Qed.

Lemma step_exact ev s s' :
  channel_inv s -> memory_inv s -> exact_inv s -> well_behaved_event ev ->
  Race.step AWS_ERROR_UNKNOWN ev s = Some s' ->
  exact_inv s'.
Proof.
  intros Hc Hm Hx Hw Hstep. unfold Race.step in Hstep.
  destruct (Race.freed s) eqn:Hf; [discriminate|].
  destruct ev as [e addrs loop alloc le | status sock init conn le | sk loop e copy nc
                 | e r le | e | e].
  - (* the resolver answers *)
    destruct (Race.resolving s) eqn:Hres; [|discriminate]. cbn [andb] in Hstep.
    destruct (nonzero e || negb (Nat.eqb (List.length addrs) 0)) eqn:Hen; [|discriminate].
    pose proof Hm as Hm0. unfold memory_inv in Hm0. rewrite Hf in Hm0.
    destruct Hm0 as ((Hle & Hlt) & H1 & Hr). destruct (Hr Hres) as [Hone Hsc].
    assert (Hu0 : users s = 0).
    { pose proof (users_nonneg s). unfold holders, pending in Hle. rewrite Hsc in Hle. lia. }
    destruct (nonzero e) eqn:He.
    + rewrite (host_resolved_failed_run e addrs loop alloc le (Race.args s) He) in Hstep.
      injection Hstep as <-.
      eapply (exact_after s _ 0); [exact Hf|exact Hm|exact Hx|apply (refs_setup e None)|lia|].
      unfold users. cbn [Race.scheduled Race.connecting Race.chan].
      rewrite app_nil_r. fold (users s). lia.
    + assert (Hne : addrs <> []).
      { intros ->. discriminate. }
      rewrite (host_resolved_run e addrs loop alloc le (Race.args s) He Hne) in Hstep.
      cbv zeta in Hstep.
      destruct (allocated alloc (outgoing_port (Race.args s))
                  (outgoing_options (Race.args s)) loop 0 addrs []) as [arr|new] eqn:Hal.
      * injection Hstep as <-.
        eapply (exact_after s _ 0
                  (allocate_calls alloc 0 addrs ++ free_calls arr ++
                   setup_calls le None (counted_addresses addrs (Race.args s))));
          [exact Hf|exact Hm|exact Hx| |lia|].
        -- cbn [Race.args]. rewrite app_assoc.
           apply (refs_pre 0 (counted_addresses addrs (Race.args s))); try reflexivity.
           ++ apply (refs_setup le None).
           ++ rewrite args_freed_app, free_calls_keep_state, orb_false_r.
              apply existsb_filter. apply filter_allocate_calls. reflexivity.
        -- unfold users. cbn [Race.scheduled Race.connecting Race.chan].
           rewrite app_nil_r. fold (users s). lia.
      * injection Hstep as <-.
        destruct (allocated_tasks _ _ _ _ _ _ _ _ Hal) as (new' & Hnew & Hall & _).
        cbn [app] in Hnew. subst new'.
        assert (Hlen : List.length new = List.length addrs).
        { symmetry. eapply Forall2_length. exact Hall. }
        destruct (acquired_n_fields (List.length new) (counted_addresses addrs (Race.args s)))
          as (Hrc & Hsc' & _).
        cbn [well_behaved_event] in Hw. rewrite <- Hlen in Hw.
        assert (Hrc' : ref_count (acquired_n (List.length new)
                                    (counted_addresses addrs (Race.args s))) =
                       1 + Z.of_nat (List.length new)).
        { rewrite Hrc. change (ref_count (counted_addresses addrs (Race.args s)))
            with (ref_count (Race.args s)). rewrite Hone.
          destruct (Nat.eqb (List.length new) 0) eqn:E0.
          - apply Nat.eqb_eq in E0. rewrite E0. reflexivity.
          - apply uint32_small. lia. }
        assert (Hp' : pending (acquired_n (List.length new)
                                 (counted_addresses addrs (Race.args s))) = 1).
        { unfold pending. rewrite Hsc'.
          change (setup_called (counted_addresses addrs (Race.args s)))
            with (setup_called (Race.args s)). rewrite Hsc. reflexivity. }
        intros _. unfold holders. cbn [Race.args]. rewrite Hp', Hrc'.
        unfold users in *. cbn [Race.scheduled Race.connecting Race.chan].
        rewrite length_app, Nat2Z.inj_add. lia.
  - (* a task runs *)
    destruct (Race.scheduled s) as [|td rest] eqn:Hs; [discriminate|].
    rewrite attempt_connection_run in Hstep. injection Hstep as <-.
    eapply (exact_after s _ (if attempt_connects status sock init conn then 0 else 1));
      [exact Hf|exact Hm|exact Hx|apply (attempt_refs td)|..].
    + destruct (attempt_connects status sock init conn); lia.
    + unfold users. cbn [Race.scheduled Race.connecting Race.chan].
      rewrite Hs, length_app, connect_started_length. cbn [List.length].
      destruct (attempt_connects status sock init conn),
        (live_channel (Race.chan s)); lia.
  - (* a connect completes *)
    destruct (Race.take_socket sk (Race.connecting s)) as [[addr rest]|] eqn:Ht; [|discriminate].
    rewrite established_run in Hstep. injection Hstep as <-.
    pose proof (take_socket_length sk _ _ _ Ht) as Hlen.
    pose proof (established_delivers sk addr loop e copy nc (Race.args s)) as Hd.
    cbv zeta in Hd. cbn [well_behaved_event] in Hw.
    eapply (exact_after s _ (if gives_up e (Race.args s) then 1 else 0));
      [exact Hf|exact Hm|exact Hx|apply (established_refs sk addr loop e copy nc)|..].
    + destruct (gives_up e (Race.args s)); lia.
    + unfold users. cbn [Race.scheduled Race.connecting Race.chan]. rewrite Hlen.
      destruct (gives_up e (Race.args s)) eqn:Hg.
      * destruct Hd as (_ & _ & Hcc). rewrite Hcc.
        destruct (live_channel (Race.chan s)); lia.
      * destruct Hd as (Hnc & Hd).
        assert (Hno : Race.chan s = Race.NoChannel).
        { destruct Hc as [Hc _]. destruct (Race.chan s); try reflexivity;
            (assert (Hx' : connection_chosen (Race.args s) = true)
               by (apply Hc; discriminate));
            congruence. }
        assert (He0 : e = 0).
        { unfold gives_up in Hg. apply orb_false_elim in Hg. destruct Hg as [Hg _].
          unfold nonzero in Hg. destruct (e =? 0) eqn:E; [|discriminate].
          apply Z.eqb_eq. exact E. }
        rewrite Hno. destruct nc as [c|]; [|exfalso; apply (Hw He0); reflexivity].
        destruct Hd as (_ & _ & _ & Hcc). rewrite Hcc. cbn. lia.
  - (* the channel completes its setup *)
    destruct (Race.chan s) as [|c|c|c|c err|] eqn:Hchan; try discriminate.
    pose proof (setup_completed_refs c e r le (Race.args s)) as Hrefs. cbv zeta in Hrefs.
    destruct (s_on_client_channel_on_setup_completed c e r le (Race.args s)) as [[u a'] tr].
    cbn [state trace fst snd] in *. injection Hstep as <-.
    eapply (exact_after s _ 0); [exact Hf|exact Hm|exact Hx|exact Hrefs|lia|].
    unfold users. cbn [Race.scheduled Race.connecting Race.chan].
    rewrite live_phase_after_setup, Hchan. cbn. lia.
  - (* the TLS negotiation ends *)
    destruct (Race.chan s) as [|c|c|c|c err|] eqn:Hchan; try discriminate.
    rewrite negotiation_result_run in Hstep. injection Hstep as <-.
    eapply (exact_after s _ 0); [exact Hf|exact Hm|exact Hx|apply (negotiation_refs c)|lia|].
    unfold users. cbn [Race.scheduled Race.connecting Race.chan].
    rewrite live_phase_after_setup, Hchan. cbn. lia.
  - (* the channel completes its shutdown *)
    assert (Hen : exists c,
               live_channel (Race.chan s) = Some c /\
               Some s' =
               (let '(_, a, tr) :=
                  s_on_client_channel_on_shutdown AWS_ERROR_UNKNOWN c e (Race.args s) in
                Some {| Race.args := a; Race.freed := Race.args_freed tr;
                        Race.resolving := Race.resolving s;
                        Race.scheduled := Race.scheduled s;
                        Race.connecting := Race.connecting s;
                        Race.chan := Race.Destroyed; Race.log := Race.log s ++ tr |})).
    { destruct (Race.chan s) as [|c|c|c|c err|]; try discriminate;
        try (exists c; split; [reflexivity|symmetry; exact Hstep]).
      destruct (e =? err); [|discriminate].
      exists c; split; [reflexivity|symmetry; exact Hstep]. }
    clear Hstep. destruct Hen as (c & Hlive & Hstep).
    rewrite on_shutdown_run in Hstep. injection Hstep as ->.
    eapply (exact_after s _ 1); [exact Hf|exact Hm|exact Hx|apply (shutdown_refs AWS_ERROR_UNKNOWN c)|lia|].
    unfold users. cbn [Race.scheduled Race.connecting Race.chan]. rewrite Hlive. cbn. lia.
Qed.

Lemma started_counts pn host port o co r s0 :
  Race.started pn host port o co r = Some s0 ->
  connection_chosen (Race.args s0) = false /\ failed_count (Race.args s0) = 0 /\
  (Race.resolving s0 = true \/ addresses_count (Race.args s0) = 1).
Proof.
  unfold Race.started, s_new_client_channel.
  destruct r as [aa tc hna rh sa lsi lsc lcl], o as [t d]. cbn [args_alloc].
  destruct aa; cbn [negb]; [|discriminate].
  destruct co as [co|], d, tc, hna, rh, sa as [sk|], lsi, lsc;
    vm_compute; intros H; try discriminate; injection H as <-;
    (do 2 (split; [reflexivity|]));
    first [ left; reflexivity | right; reflexivity ].
Qed.

Lemma well_behaved_bounded ev : well_behaved_event ev -> bounded_event ev.
Proof. destruct ev; cbn; auto. intros H. lia. Qed.

Lemma run_ends_well evs :
  forall s s',
    protocol_inv s -> channel_inv s -> memory_inv s -> exact_inv s -> progress_inv s ->
    Forall well_behaved_event evs ->
    Race.run AWS_ERROR_UNKNOWN evs s = Some s' ->
    protocol_inv s' /\ memory_inv s' /\ exact_inv s' /\ progress_inv s'.
Proof.
  induction evs as [|ev evs IH]; intros s s' Hp Hc Hm Hx Hg Hw Hrun; cbn [Race.run] in Hrun.
  - injection Hrun as <-. auto.
  - destruct (Race.step AWS_ERROR_UNKNOWN ev s) as [s1|] eqn:Hstep; [|discriminate].
    inversion Hw as [|? ? Hw1 Hw2]; subst.
    destruct (step_protocol AWS_ERROR_UNKNOWN ev s s1 Hp Hc Hstep) as [Hp1 Hc1].
    pose proof (step_memory AWS_ERROR_UNKNOWN ev s s1 Hc Hm (well_behaved_bounded ev Hw1) Hstep)
      as Hm1.
    pose proof (step_exact ev s s1 Hc Hm Hx Hw1 Hstep) as Hx1.
    pose proof (step_progress ev s s1 Hc Hg Hw1 Hstep) as Hg1.
    exact (IH s1 s' Hp1 Hc1 Hm1 Hx1 Hg1 Hw2 Hrun).
Qed.

(** X12: a connection race in which no resolution carries more than 255
    addresses and [aws_channel_new] does not fail for an established
    connection ends well.  Once nothing is outstanding (no resolution, no
    task, no connect, no channel), the connection state has been freed,
    with a reference count of 0, and the user has seen either the setup
    callback once, with no channel, or the setup callback once with error
    code 0 followed by the shutdown callback once, for the channel that
    was destroyed. *)
Theorem race_that_ends_well pn host port o co r s0 evs s :
  Race.started pn host port o co r = Some s0 ->
  Forall well_behaved_event evs ->
  Race.run AWS_ERROR_UNKNOWN evs s0 = Some s ->
  Race.quiescent s = true ->
  Race.freed s = true /\ ref_count (Race.args s) = 0 /\
  ((exists e, user_callbacks (Race.log s) = [SetupCallback e None])
   \/
   (exists ch e' c,
      user_callbacks (Race.log s) = [SetupCallback 0 ch; ShutdownCallback e' (Some c)] /\
      (ch = None \/ ch = Some c))).
Proof.
  intros Hstart Hw Hrun Hq.
  destruct (started_quiet pn host port o co r s0 Hstart) as (Hu & Hfl & Hchan & _).
  destruct (started_fields pn host port o co r s0 Hstart) as (Hf0 & Hs0 & _ & Hsc0 & Hcase).
  assert (Hp0 : protocol_inv s0) by (left; auto).
  assert (Hc0 : channel_inv s0).
  { split; rewrite Hchan; [congruence|discriminate]. }
  pose proof (started_referenced pn host port o co r s0 Hstart) as Hm0.
  assert (Hx0 : exact_inv s0).
  { intros _. unfold holders, users, pending. rewrite Hs0, Hchan, Hsc0.
    destruct Hcase as [(_ & Hcn & Hrc) | (_ & Hcn & Hrc)]; rewrite Hcn, Hrc; reflexivity. }
  assert (Hg0 : progress_inv s0).
  { destruct (started_counts pn host port o co r s0 Hstart) as (Hcc & Hfc & Hac).
    destruct Hcase as [(Hr & Hcn & _) | (Hr & Hcn & _)].
    - right; left. auto.
    - right; right; right. unfold Race.outstanding. rewrite Hs0, Hcn, Hfc.
      destruct Hac as [Hac|Hac]; [congruence|]. rewrite Hac.
      repeat split; try assumption; cbn; lia. }
  destruct (run_ends_well evs s0 s Hp0 Hc0 Hm0 Hx0 Hg0 Hw Hrun) as (Hp & Hm & Hx & Hg).
  unfold Race.quiescent in Hq.
  apply andb_prop in Hq. destruct Hq as [Hq Hq4].
  apply andb_prop in Hq. destruct Hq as [Hq Hq3].
  apply andb_prop in Hq. destruct Hq as [Hq1 Hq2].
  apply negb_true_iff in Hq1.
  assert (Hs : Race.scheduled s = []) by (destruct (Race.scheduled s); [reflexivity|discriminate]).
  assert (Hcn : Race.connecting s = [])
    by (destruct (Race.connecting s); [reflexivity|discriminate]).
  assert (Hlive : live_channel (Race.chan s) = None)
    by (destruct (Race.chan s); try reflexivity; discriminate).
  assert (Hsc : setup_called (Race.args s) = true).
  { destruct Hg as [H | [H | [H | H]]].
    - exact H.
    - destruct H as (H & _). congruence.
    - destruct H as (c & H). congruence.
    - destruct H as (_ & _ & _ & _ & H & _). unfold Race.outstanding in H.
      rewrite Hs, Hcn in H. cbn in H. lia. }
  assert (Hfreed : Race.freed s = true).
  { destruct (Race.freed s) eqn:Hf; [reflexivity|].
    specialize (Hx Hf). unfold memory_inv in Hm. rewrite Hf in Hm.
    unfold holders, users, pending in Hx. rewrite Hsc, Hs, Hcn, Hlive in Hx. cbn in Hx.
    lia. }
  split; [exact Hfreed|]. split.
  { unfold memory_inv in Hm. rewrite Hfreed in Hm. apply Hm. }
  destruct Hp as [(Hu1 & Hf1) | [(e & ch & Hu1 & Hf1 & Hch) | (ch & e' & c & Hu1 & Hor & _)]].
  - unfold flags in Hf1. congruence.
  - left. exists e. destruct ch as [c|]; [|exact Hu1].
    destruct (Hch c eq_refl) as [_ H]. congruence.
  - right. exists ch, e', c. auto.
Qed.

End RaceProgressProofs.

Lemma connect_and_close_is_well_behaved :
  Forall RaceProgress.well_behaved_event MoreScripts.connect_and_close.
Proof.
  unfold MoreScripts.connect_and_close.
  repeat (constructor; [cbn; first [exact I | lia | discriminate]|]). constructor.
Qed.

Lemma race_that_ends_well_witness :
  match Race.run 2 MoreScripts.connect_and_close Examples.race_start with
  | Some s =>
      Race.freed s = true /\ Client.ref_count (Race.args s) = 0 /\
      ((exists e, MoreForms.user_callbacks (Race.log s) = [SetupCallback e None])
       \/
       (exists ch e' c,
          MoreForms.user_callbacks (Race.log s) =
            [SetupCallback 0 ch; ShutdownCallback e' (Some c)] /\
          (ch = None \/ ch = Some c)))
  | None => False
  end.
Proof.
  eassert (Hrun : Race.run 2 MoreScripts.connect_and_close Examples.race_start = Some _)
    by (vm_compute; reflexivity).
  rewrite Hrun.
  exact (race_that_ends_well 2 false "example.com" 443 Examples.stream_ipv4 None
           Examples.all_succeed Examples.race_start MoreScripts.connect_and_close _
           eq_refl connect_and_close_is_well_behaved Hrun eq_refl).
Defined.

(** ** Every state of a listener: the callbacks of each connection *)

Section ListenerCallbacks.

Import Server ServerForms ServerRuns ListenerProtocol.

Variable AWS_ERROR_UNKNOWN : Z.
Variable offsetof_listener : Z.

Lemma server_callbacks_app l1 l2 :
  server_callbacks (l1 ++ l2) = server_callbacks l1 ++ server_callbacks l2.
Proof. apply filter_app. Qed.

Lemma server_callbacks_release a : server_callbacks (release_calls a) = [].
Proof.
  unfold release_calls. destruct (ref_count a =? 1); [|reflexivity].
  destruct (destroy_callback a), (use_tls a); reflexivity.
Qed.

Lemma server_callbacks_acquire a : server_callbacks (acquire_calls a) = [].
Proof. unfold acquire_calls. destruct (ref_count a =? 0); reflexivity. Qed.

Lemma server_callbacks_slots slots :
  forallb is_slot_call slots = true -> server_callbacks slots = [].
Proof.
  apply filter_slots. intros e; destruct e; try reflexivity; discriminate.
Qed.

Lemma server_callbacks_accept l :
  forallb is_accept_call l = true -> server_callbacks l = [].
Proof.
  apply filter_accept_calls. intros e; destruct e; try reflexivity; discriminate.
Qed.

Lemma data_freed_slots slots :
  forallb is_slot_call slots = true -> Listener.data_freed slots = false.
Proof.
  intros H. unfold Listener.data_freed. apply existsb_filter.
  apply (filter_slots is_channel_data_free); [|exact H].
  intros e; destruct e; try reflexivity; try discriminate.
  destruct o; try reflexivity; discriminate.
Qed.

Lemma shutdown_requested_slots slots :
  forallb is_slot_call slots = true -> Listener.shutdown_requested slots = None.
Proof.
  intros H. apply Quiet.listener_shutdown_requested.
  apply (filter_slots is_channel_shutdown); [|exact H].
  intros e; destruct e; try reflexivity; discriminate.
Qed.

Lemma shutdown_requested_slots_app slots l :
  forallb is_slot_call slots = true ->
  Listener.shutdown_requested (slots ++ l) = Listener.shutdown_requested l.
Proof.
  induction slots as [|x slots IH]; intros H; [reflexivity|].
  cbn [forallb] in H. apply andb_prop in H. destruct H as [Hx Hs].
  destruct x; try discriminate; cbn; auto.
Qed.

Lemma data_freed_app l1 l2 :
  Listener.data_freed (l1 ++ l2) = Listener.data_freed l1 || Listener.data_freed l2.
Proof. apply existsb_app. Qed.

(** What [s_on_server_channel_on_setup_completed] tells the user. *)
Lemma setup_completed_calls c e r last_error a d :
  incoming_called d = false ->
  let out := s_on_server_channel_on_setup_completed c e r last_error (a, d) in
  conn_protocol
    (Some {| Listener.phase := Listener.phase_after c (snd (state out)) (trace out);
             Listener.data := snd (state out) |})
    (server_callbacks (trace out)).
Proof.
  intros Hd. cbv zeta. destruct (nonzero e) eqn:He.
  - rewrite (setup_failed_run c e r last_error a d He).
    unfold setup_failed_state, setup_failed_calls, socket_calls.
    cbn [state trace fst snd]. unfold Listener.phase_after.
    replace (Listener.data_freed _) with true.
    + cbn [conn_protocol]. left. exists e.
      change (ChannelDestroy c :: ?l) with ([ChannelDestroy c] ++ l).
      rewrite !server_callbacks_app, server_callbacks_release. reflexivity.
    + symmetry. unfold Listener.data_freed. cbn. reflexivity.
  - destruct (setup_ok_run c e r last_error a d He) as (slots & Hs & Hrun).
    rewrite Hrun.
    pose proof (server_callbacks_slots slots Hs) as H1.
    pose proof (data_freed_slots slots Hs) as H2.
    destruct (server_setup_outcome r a); cbn [state trace fst snd];
      unfold Listener.phase_after.
    + rewrite data_freed_app, H2, shutdown_requested_slots_app by exact Hs.
      cbn. rewrite server_callbacks_app, H1. auto.
    + rewrite H2, (shutdown_requested_slots slots Hs), Hd. cbn. auto.
    + rewrite data_freed_app, H2, shutdown_requested_slots_app by exact Hs.
      cbn. rewrite server_callbacks_app, H1. auto.
Qed.

(** What [s_tls_server_on_negotiation_result] tells the user. *)
Lemma negotiation_result_calls c e a d :
  incoming_called d = false ->
  let out := s_tls_server_on_negotiation_result c e (a, d) in
  conn_protocol
    (Some {| Listener.phase := Listener.phase_after c (snd (state out)) (trace out);
             Listener.data := snd (state out) |})
    (server_callbacks (trace out)).
Proof.
  intros Hd. cbv zeta. rewrite server_negotiation_result_run.
  unfold negotiation_state, negotiation_calls. cbn [state trace fst snd].
  unfold Listener.phase_after, nonzero.
  destruct (e =? 0) eqn:He; cbn [negb].
  - apply Z.eqb_eq in He. subst e.
    destruct (user_on_negotiation_result a); cbn; auto.
  - destruct (user_on_negotiation_result a); cbn; rewrite Hd; auto.
Qed.

(** What [s_on_server_channel_on_shutdown] tells the user. *)
Lemma channel_shutdown_calls c e a d before :
  (incoming_called d = false /\ before = []) \/
  (incoming_called d = true /\ before = [IncomingCallback AWS_OP_SUCCESS (Some c)]) ->
  let out := s_on_server_channel_on_shutdown AWS_ERROR_UNKNOWN c e (a, d) in
  conn_protocol
    (Some {| Listener.phase := Listener.Closed; Listener.data := snd (state out) |})
    (before ++ server_callbacks (trace out)).
Proof.
  intros Hold. cbv zeta. rewrite server_on_shutdown_run.
  unfold on_shutdown_state, on_shutdown_calls, socket_calls. cbn [state trace fst snd].
  change (ChannelDestroy c :: ?l) with ([ChannelDestroy c] ++ l).
  rewrite !server_callbacks_app, server_callbacks_release.
  destruct Hold as [[Hd ->] | [Hd ->]]; rewrite Hd; cbn.
  - left. eexists; reflexivity.
  - right. eexists _, _; reflexivity.
Qed.

(** What [s_on_server_connection_result] tells the user. *)
Lemma connection_result_calls e new_socket r last_error a :
  let out := s_on_server_connection_result e new_socket r last_error a in
  match result out, new_channel r with
  | Some d, Some c => incoming_called d = false /\ server_callbacks (trace out) = []
  | _, _ => exists e', server_callbacks (trace out) = [IncomingCallback e' None]
  end.
Proof.
  cbv zeta.
  destruct (connection_result_run e new_socket r last_error a)
    as (pre & post & Hpre & Hpost & Hrun).
  rewrite Hrun.
  pose proof (server_callbacks_accept pre Hpre) as H1.
  pose proof (server_callbacks_accept post Hpost) as H2.
  destruct (accept_ok e r) eqn:Hok; cbn [result trace fst snd].
  - unfold accept_ok in Hok. destruct (new_channel r).
    + split; [reflexivity|]. rewrite server_callbacks_app, server_callbacks_acquire. exact H1.
    + rewrite andb_false_r in Hok. discriminate.
  - exists (accept_error e last_error).
    rewrite !server_callbacks_app, server_callbacks_acquire, H1, H2, server_callbacks_release.
    reflexivity.
Qed.

Lemma callbacks_after s id0 ph x a d tr :
  conn_protocol (Some {| Listener.phase := ph; Listener.data := d |})
    (callbacks_of id0 s ++ server_callbacks tr) ->
  (forall id, protocol_inv id s) ->
  forall id,
    protocol_inv id (Listener.after_callback s id0 ph (x, (a, d), tr)).
Proof.
  intros Hnew Hinv id. unfold protocol_inv, callbacks_of, Listener.after_callback.
  cbn [Listener.conns Listener.log]. unfold Listener.update.
  rewrite calls_of_app, calls_of_tag, server_callbacks_app.
  destruct (Nat.eqb id id0) eqn:E.
  - apply Nat.eqb_eq in E. subst id0. rewrite Nat.eqb_refl. exact Hnew.
  - rewrite Nat.eqb_sym, E. cbn. rewrite app_nil_r. apply Hinv.
Qed.

Lemma callbacks_of_listener s s' tr :
  Listener.conns s' = Listener.conns s ->
  Listener.log s' = Listener.log s ++ Listener.tag None tr ->
  (forall id, protocol_inv id s) -> forall id, protocol_inv id s'.
Proof.
  intros Hc Hl Hinv id. unfold protocol_inv, callbacks_of.
  rewrite Hc, Hl, calls_of_app, calls_of_tag_none, app_nil_r. apply Hinv.
Qed.

Lemma step_callbacks ev s s' :
  (forall id, protocol_inv id s) ->
  Listener.step AWS_ERROR_UNKNOWN offsetof_listener ev s = Some s' ->
  forall id, protocol_inv id s'.
Proof.
  intros Hconn Hstep. unfold Listener.step in Hstep.
  destruct (Listener.freed s) eqn:Hf; [discriminate|].
  destruct ev as [id0 e new_socket r last_error | id0 e r last_error | id0 e | id0 e
                 | listener | ].
  - (* s_on_server_connection_result *)
    destruct (Listener.conns s id0) eqn:Hc; [discriminate|].
    destruct (Listener.accepting s); [|discriminate].
    pose proof (connection_result_calls e new_socket r last_error (Listener.args s)) as Hin.
    cbv zeta in Hin.
    destruct (s_on_server_connection_result e new_socket r last_error (Listener.args s))
      as [[cd a'] tr].
    cbn [result trace fst snd] in Hin. injection Hstep as <-.
    pose proof (Hconn id0) as H0. unfold protocol_inv in H0. rewrite Hc in H0. cbn in H0.
    intros id. unfold protocol_inv, callbacks_of. cbn [Listener.conns Listener.log].
    unfold Listener.update. rewrite calls_of_app, calls_of_tag, server_callbacks_app.
    destruct (Nat.eqb id id0) eqn:E.
    + apply Nat.eqb_eq in E. subst id0. rewrite Nat.eqb_refl.
      fold (callbacks_of id s). rewrite H0. cbn [app].
      destruct cd as [d|]; destruct (new_channel r) as [c|]; cbn.
      * exact Hin.
      * left. exact Hin.
      * left. exact Hin.
      * left. exact Hin.
    + rewrite Nat.eqb_sym, E. cbn. rewrite app_nil_r. apply Hconn.
  - (* s_on_server_channel_on_setup_completed *)
    pose proof (Hconn id0) as H0. unfold protocol_inv in H0.
    destruct (Listener.conns s id0) as [[ph d]|]; [|discriminate].
    destruct ph; try discriminate. cbn in H0. destruct H0 as [Hd Hdel].
    pose proof (setup_completed_calls c e r last_error (Listener.args s) d Hd) as Hok.
    cbv zeta in Hok.
    destruct (s_on_server_channel_on_setup_completed c e r last_error (Listener.args s, d))
      as [[u [a' d']] tr].
    cbn [state trace fst snd] in *. injection Hstep as <-.
    apply (callbacks_after s id0 _ u a' d' tr); [|exact Hconn]. rewrite Hdel. exact Hok.
  - (* s_tls_server_on_negotiation_result *)
    pose proof (Hconn id0) as H0. unfold protocol_inv in H0.
    destruct (Listener.conns s id0) as [[ph d]|]; [|discriminate].
    destruct ph; try discriminate. cbn in H0. destruct H0 as [Hd Hdel].
    pose proof (negotiation_result_calls c e (Listener.args s) d Hd) as Hok.
    cbv zeta in Hok.
    destruct (s_tls_server_on_negotiation_result c e (Listener.args s, d))
      as [[u [a' d']] tr].
    cbn [state trace fst snd] in *. injection Hstep as <-.
    apply (callbacks_after s id0 _ u a' d' tr); [|exact Hconn]. rewrite Hdel. exact Hok.
  - (* s_on_server_channel_on_shutdown *)
    pose proof (Hconn id0) as H0. unfold protocol_inv in H0.
    destruct (Listener.conns s id0) as [[ph d]|]; [|discriminate].
    assert (Hold : exists c,
               (match ph with
                | Listener.Negotiating c0 | Listener.Live c0 => Some c0
                | Listener.ShuttingDown c0 err => if e =? err then Some c0 else None
                | _ => None
                end = Some c) /\
               ((incoming_called d = false /\ callbacks_of id0 s = []) \/
                (incoming_called d = true /\
                 callbacks_of id0 s = [IncomingCallback AWS_OP_SUCCESS (Some c)]))).
    { destruct ph as [c|c|c|c err|]; cbn in H0; try discriminate.
      - exists c. split; [reflexivity|]. left. exact H0.
      - exists c. split; [reflexivity|]. right. exact H0.
      - destruct (e =? err); [|discriminate]. exists c. split; [reflexivity|]. left. exact H0. }
    destruct Hold as (c & Hen & Hold). rewrite Hen in Hstep.
    pose proof (channel_shutdown_calls c e (Listener.args s) d (callbacks_of id0 s) Hold)
      as Hok.
    cbv zeta in Hok.
    destruct (s_on_server_channel_on_shutdown AWS_ERROR_UNKNOWN c e (Listener.args s, d))
      as [[u [a' d']] tr].
    cbn [state trace fst snd] in *. injection Hstep as <-.
    apply (callbacks_after s id0 _ u a' d' tr); [exact Hok|exact Hconn].
  - (* aws_server_bootstrap_destroy_socket_listener *)
    destruct (Listener.destroy_called s); [discriminate|].
    destruct (aws_server_bootstrap_destroy_socket_listener offsetof_listener
                (Listener.heap s) listener) as [[rc tr]|]; [|discriminate].
    injection Hstep as <-.
    apply (callbacks_of_listener s _ tr); [reflexivity|reflexivity|exact Hconn].
  - (* s_listener_destroy_task *)
    destruct (Listener.destroy_tasks s) as [|arg rest]; [discriminate|].
    destruct (Listener.heap s arg) as [a0|]; [|discriminate].
    destruct (s_listener_destroy_task a0) as [[u a'] tr].
    injection Hstep as <-.
    apply (callbacks_of_listener s _ tr); [reflexivity|reflexivity|exact Hconn].
Qed.

Lemma run_callbacks evs :
  forall s s',
    (forall id, protocol_inv id s) ->
    Listener.run AWS_ERROR_UNKNOWN offsetof_listener evs s = Some s' ->
    forall id, protocol_inv id s'.
Proof.
  induction evs as [|ev evs IH]; intros s s' Hc Hrun.
  - injection Hrun as <-. exact Hc.
  - cbn [Listener.run] in Hrun.
    destruct (Listener.step AWS_ERROR_UNKNOWN offsetof_listener ev s) as [s1|] eqn:Hstep;
      [|discriminate].
    exact (IH s1 s' (step_callbacks ev s s1 Hc Hstep) Hrun).
Qed.

Lemma started_without_connections pn co destroy r listener s0 :
  Listener.started offsetof_listener pn co destroy r = Some (listener, s0) ->
  Listener.conns s0 = (fun _ => None) /\
  exists tr, Listener.log s0 = Listener.tag None tr.
Proof.
  unfold Listener.started.
  destruct (s_server_new_socket_listener offsetof_listener pn co destroy r)
    as [[[l|] [[p a]|]] tr]; try discriminate.
  intros H. injection H as _ <-. cbn. split; [reflexivity|]. exists tr. reflexivity.
Qed.

(** X13: in every state a listener reaches, the calls into the user's
    incoming and shutdown callbacks that were made for one accepted
    connection are, in order: none, while the connection is unknown,
    awaits its channel setup, negotiates TLS or is shut down before the
    incoming callback was due; the incoming callback, with error code 0
    and the channel, while the connection is live; and, once the
    connection is closed, either the incoming callback alone, with no
    channel, or the incoming callback with error code 0 and a channel,
    followed by the shutdown callback for the same channel.  The
    shutdown callback is invoked at most once, and only for a channel that
    the incoming callback handed over. *)
Theorem connection_callbacks
    (pn : bool) (co : option tls_connection_options) (destroy : bool) (r : listener_results)
    (listener : Z) (s0 : Listener.system) (evs : list Listener.event) (s : Listener.system)
    (id : nat) :
  Listener.started offsetof_listener pn co destroy r = Some (listener, s0) ->
  Listener.run AWS_ERROR_UNKNOWN offsetof_listener evs s0 = Some s ->
  let calls := server_callbacks (Listener.calls_of id (Listener.log s)) in
  match Listener.conns s id with
  | None => calls = []
  | Some c =>
      match Listener.phase c with
      | Listener.SetupPending _ | Listener.Negotiating _ | Listener.ShuttingDown _ _ =>
          calls = []
      | Listener.Live ch => calls = [IncomingCallback 0 (Some ch)]
      | Listener.Closed =>
          (exists e, calls = [IncomingCallback e None]) \/
          (exists ch e, calls = [IncomingCallback 0 (Some ch); ServerShutdownCallback e ch])
      end
  end.
Proof.
  intros Hstart Hrun.
  destruct (started_without_connections pn co destroy r listener s0 Hstart)
    as (Hc0 & tr0 & Hl0).
  assert (H0 : forall id, protocol_inv id s0).
  { intros j. unfold protocol_inv, callbacks_of.
    rewrite Hc0, Hl0, calls_of_tag_none. reflexivity. }
  pose proof (run_callbacks evs s0 s H0 Hrun id) as H.
  unfold protocol_inv, conn_protocol, callbacks_of in H. cbv zeta.
  destruct (Listener.conns s id) as [[ph d]|]; [|exact H].
  cbn [Listener.phase]. destruct ph; try exact H; apply H.
Qed.

End ListenerCallbacks.

Lemma connection_callbacks_witness :
  match Listener.run 2 64 Examples.serve_one Examples.listener_start with
  | Some s =>
      ListenerProtocol.server_callbacks (Listener.calls_of 0 (Listener.log s)) =
        [IncomingCallback 0 (Some 5%nat); ServerShutdownCallback 0 5%nat] /\
      ((exists e,
          ListenerProtocol.server_callbacks (Listener.calls_of 0 (Listener.log s)) =
            [IncomingCallback e None]) \/
       (exists ch e,
          ListenerProtocol.server_callbacks (Listener.calls_of 0 (Listener.log s)) =
            [IncomingCallback 0 (Some ch); ServerShutdownCallback e ch]))
  | None => False
  end.
Proof.
  eassert (Hrun : Listener.run 2 64 Examples.serve_one Examples.listener_start = Some _)
    by (vm_compute; reflexivity).
  rewrite Hrun. split; [reflexivity|].
  exact (connection_callbacks 2 64 false None true Examples.listener_succeeds 4160
           Examples.listener_start Examples.serve_one _ 0%nat eq_refl Hrun).
Defined.

(** ** Every state of a listener: the lifetime of its state *)

Section ListenerLifetime.

Import Server ServerForms ServerRuns ListenerMemory.

Variable AWS_ERROR_UNKNOWN : Z.
Variable offsetof_listener : Z.

Lemma count_open_nonneg m ids : 0 <= count_open m ids.
Proof. unfold count_open. lia. Qed.

Lemma count_open_bound m ids : count_open m ids <= Z.of_nat (List.length ids).
Proof. unfold count_open. pose proof (filter_length_le (fun id => Listener.is_open (m id)) ids). lia. Qed.

Lemma count_open_cons m id ids :
  count_open m (id :: ids) = Z.b2z (Listener.is_open (m id)) + count_open m ids.
Proof.
  unfold count_open. cbn [filter]. destruct (Listener.is_open (m id)); cbn [List.length Z.b2z]; lia.
Qed.

Lemma count_open_other id0 c m ids :
  ~ In id0 ids -> count_open (Listener.update id0 c m) ids = count_open m ids.
Proof.
  induction ids as [|id ids IH]; intros Hn; [reflexivity|].
  rewrite !count_open_cons, IH by (intros H; apply Hn; right; exact H).
  unfold Listener.update. destruct (Nat.eqb id id0) eqn:E; [|reflexivity].
  apply Nat.eqb_eq in E. subst id. exfalso. apply Hn. left. reflexivity.
Qed.

Lemma count_open_update id0 c m ids :
  NoDup ids -> In id0 ids ->
  count_open (Listener.update id0 c m) ids =
  count_open m ids - Z.b2z (Listener.is_open (m id0)) + Z.b2z (Listener.is_open (Some c)).
Proof.
  induction ids as [|id ids IH]; intros Hnd Hin; [destruct Hin|].
  inversion Hnd as [|? ? Hn Hnd']; subst.
  rewrite !count_open_cons. destruct Hin as [-> | Hin].
  - rewrite count_open_other by exact Hn. unfold Listener.update at 1.
    rewrite Nat.eqb_refl. lia.
  - rewrite IH by assumption. unfold Listener.update at 1.
    destruct (Nat.eqb id id0) eqn:E.
    + apply Nat.eqb_eq in E. subst id. contradiction.
    + lia.
Qed.

Lemma count_open_zero m ids :
  count_open m ids = 0 <-> forall id, In id ids -> Listener.is_open (m id) = false.
Proof.
  induction ids as [|id ids IH].
  - split; [intros _ id []|reflexivity].
  - rewrite count_open_cons. pose proof (count_open_nonneg m ids) as Hp. split.
    + intros H id' [<- | Hin].
      * destruct (Listener.is_open (m id)); [cbn [Z.b2z] in H; lia|reflexivity].
      * apply IH; [|exact Hin]. destruct (Listener.is_open (m id)); cbn [Z.b2z] in H; lia.
    + intros H. rewrite (H id) by (left; reflexivity).
      cbn [Z.b2z]. rewrite Z.add_0_l. apply IH. intros id' Hin. apply H. right. exact Hin.
Qed.

(** The count does not depend on the list, as long as the list has every
    open connection once. *)
Lemma count_open_any m ids ids' :
  NoDup ids -> NoDup ids' ->
  (forall id, Listener.is_open (m id) = true -> In id ids) ->
  (forall id, Listener.is_open (m id) = true -> In id ids') ->
  count_open m ids = count_open m ids'.
Proof.
  intros H1 H2 Ha Hb. unfold count_open. f_equal. apply Nat.le_antisymm.
  - apply NoDup_incl_length; [apply NoDup_filter; exact H1|].
    intros id Hin. apply filter_In in Hin. apply filter_In. split; [apply Hb|]; apply Hin.
  - apply NoDup_incl_length; [apply NoDup_filter; exact H2|].
    intros id Hin. apply filter_In in Hin. apply filter_In. split; [apply Ha|]; apply Hin.
Qed.

Lemma counted_kept a tr :
  1 <= ref_count a -> filter is_server_args_free tr = [] -> counted 0 a a tr.
Proof.
  intros H Hq. unfold counted. rewrite Z.add_0_r, Hq.
  replace (ref_count a =? 0) with false by (symmetry; apply Z.eqb_neq; lia).
  split; [destruct a; reflexivity|reflexivity].
Qed.

Lemma counted_acquired a tr :
  1 <= ref_count a < 2 ^ 64 - 1 -> filter is_server_args_free tr = [] ->
  counted 1 a (acquired a) tr.
Proof.
  intros H Hq. unfold counted, acquired. rewrite Hq.
  replace (ref_count a + 1 =? 0) with false by (symmetry; apply Z.eqb_neq; lia).
  replace (size_t (ref_count a + 1)) with (ref_count a + 1)
    by (symmetry; unfold size_t; apply Z.mod_small; lia).
  split; reflexivity.
Qed.

Lemma counted_released a tr :
  1 <= ref_count a < 2 ^ 64 ->
  filter is_server_args_free tr = filter is_server_args_free (release_calls a) ->
  counted (-1) a (released a) tr.
Proof.
  intros H Hq. unfold counted, released. rewrite Hq, release_calls_free.
  replace (ref_count a + -1) with (ref_count a - 1) by lia.
  replace (size_t (ref_count a - 1)) with (ref_count a - 1)
    by (symmetry; unfold size_t; apply Z.mod_small; lia).
  split; [reflexivity|].
  destruct (ref_count a =? 1) eqn:E.
  - apply Z.eqb_eq in E. rewrite E. reflexivity.
  - apply Z.eqb_neq in E.
    replace (ref_count a - 1 =? 0) with false by (symmetry; apply Z.eqb_neq; lia).
    reflexivity.
Qed.

(** [s_on_server_channel_on_setup_completed] gives a reference back exactly
    when it frees the channel data. *)
Lemma setup_completed_counted c e r last_error a d :
  1 <= ref_count a < 2 ^ 64 ->
  let out := s_on_server_channel_on_setup_completed c e r last_error (a, d) in
  counted (if closes (Listener.phase_after c (snd (state out)) (trace out)) then -1 else 0)
    a (fst (state out)) (trace out).
Proof.
  intros Hrc. cbv zeta. destruct (nonzero e) eqn:He.
  - rewrite (setup_failed_run c e r last_error a d He).
    unfold setup_failed_state, setup_failed_calls, socket_calls.
    cbn [state trace fst snd]. unfold Listener.phase_after.
    replace (Listener.data_freed _) with true by (symmetry; unfold Listener.data_freed; reflexivity).
    cbn [closes]. apply counted_released; [exact Hrc|reflexivity].
  - destruct (setup_ok_run c e r last_error a d He) as (slots & Hs & Hrun).
    rewrite Hrun.
    pose proof (data_freed_slots slots Hs) as H2.
    pose proof (slots_no_args_free slots Hs) as H4.
    assert (Hrc' : 1 <= ref_count a) by lia.
    destruct (server_setup_outcome r a); cbn [state trace fst snd];
      unfold Listener.phase_after.
    + rewrite data_freed_app, H2, shutdown_requested_slots_app by exact Hs.
      cbn. apply counted_kept; [exact Hrc'|]. rewrite filter_app, H4. reflexivity.
    + rewrite H2, (shutdown_requested_slots slots Hs).
      destruct (incoming_called d); cbn; (apply counted_kept; [exact Hrc'|exact H4]).
    + rewrite data_freed_app, H2, shutdown_requested_slots_app by exact Hs.
      cbn. apply counted_kept; [exact Hrc'|]. rewrite filter_app, H4. reflexivity.
Qed.

Lemma negotiation_counted c e a d :
  1 <= ref_count a ->
  let out := s_tls_server_on_negotiation_result c e (a, d) in
  closes (Listener.phase_after c (snd (state out)) (trace out)) = false /\
  counted 0 a (fst (state out)) (trace out).
Proof.
  intros Hrc. cbv zeta. rewrite server_negotiation_result_run.
  unfold negotiation_state, negotiation_calls. cbn [state trace fst snd].
  unfold Listener.phase_after.
  destruct (nonzero e), (user_on_negotiation_result a); cbn;
    (split; [try reflexivity; destruct (incoming_called d); reflexivity
            |apply counted_kept; [exact Hrc|reflexivity]]).
Qed.

Lemma channel_shutdown_counted c e a d :
  1 <= ref_count a < 2 ^ 64 ->
  let out := s_on_server_channel_on_shutdown AWS_ERROR_UNKNOWN c e (a, d) in
  counted (-1) a (fst (state out)) (trace out).
Proof.
  intros Hrc. cbv zeta. rewrite server_on_shutdown_run.
  unfold on_shutdown_state, on_shutdown_calls, socket_calls. cbn [state trace fst snd].
  apply counted_released; [exact Hrc|].
  destruct (incoming_called d); cbn; rewrite !filter_app; cbn; rewrite app_nil_r; reflexivity.
Qed.

Lemma connection_result_counted e new_socket r last_error a :
  1 <= ref_count a < 2 ^ 64 - 1 ->
  let out := s_on_server_connection_result e new_socket r last_error a in
  counted (match result out, new_channel r with Some _, Some _ => 1 | _, _ => 0 end)
    a (state out) (trace out).
Proof.
  intros Hrc. cbv zeta.
  destruct (connection_result_run e new_socket r last_error a)
    as (pre & post & Hpre & Hpost & Hrun).
  rewrite Hrun.
  assert (P3 : forall x, is_accept_call x = true -> is_server_args_free x = false).
  { intros x; destruct x; try reflexivity; try discriminate.
    destruct o; try reflexivity; discriminate. }
  pose proof (filter_accept_calls _ pre P3 Hpre) as I3.
  pose proof (filter_accept_calls _ post P3 Hpost) as J3.
  destruct (server_acquired_released a Hrc) as (Hback & Hrel & Hacq & _).
  destruct (accept_ok e r) eqn:Hok; cbn [result state trace fst snd].
  - unfold accept_ok in Hok. destruct (new_channel r).
    + apply counted_acquired; [exact Hrc|]. rewrite filter_app, Hacq, I3. reflexivity.
    + rewrite andb_false_r in Hok. discriminate.
  - rewrite Hback, Hrel, Hacq.
    apply counted_kept; [lia|]. rewrite !filter_app, I3, J3. reflexivity.
Qed.

Lemma destroy_task_counted a :
  1 <= ref_count a < 2 ^ 64 ->
  let out := s_listener_destroy_task a in
  Listener.stopped_accepting (trace out) = true /\
  counted (-1) a (state out) (trace out).
Proof.
  intros Hrc. cbv zeta. rewrite listener_destroy_task_run. cbn [state trace fst snd].
  split; [reflexivity|]. apply counted_released; [exact Hrc|reflexivity].
Qed.

(** One callback and the accounting of references. *)
Lemma listener_memory_after ids ids' s s' x tr delta :
  memory_inv ids s ->
  Listener.freed s = false ->
  counted delta (Listener.args s) (Listener.args s') tr ->
  Listener.freed s' = Listener.args_freed tr ->
  Listener.log s' = Listener.log s ++ Listener.tag x tr ->
  NoDup ids' ->
  (forall id, In id ids' <-> Listener.conns s' id <> None) ->
  listener_ref s' + count_open (Listener.conns s') ids' =
    listener_ref s + count_open (Listener.conns s) ids + delta ->
  match Listener.destroy_tasks s' with
  | [] => Listener.accepting s' = false -> Listener.destroy_called s' = true
  | q :: rest =>
      q = Listener.base s' /\ rest = [] /\ Listener.accepting s' = true /\
      Listener.destroy_called s' = true
  end ->
  memory_inv ids' s'.
Proof.
  intros (_ & _ & Hrc & _ & Hfr & _) Hf [Ha Hq] Hfreed Hlog Hnd Hids Hcount Htasks.
  unfold memory_inv. rewrite Hf in Hfr.
  assert (Hrc' : ref_count (Listener.args s') = ref_count (Listener.args s) + delta).
  { rewrite Ha. reflexivity. }
  assert (Hfreed' : Listener.freed s' = (ref_count (Listener.args s') =? 0)).
  { rewrite Hfreed, Hrc'. unfold Listener.args_freed. rewrite existsb_as_filter, Hq.
    destruct (ref_count (Listener.args s) + delta =? 0); reflexivity. }
  repeat split; try assumption; try apply Hids.
  - rewrite Hrc', Hrc, Hcount. reflexivity.
  - unfold frees_of in *. rewrite Hlog, all_calls_app, all_calls_tag, filter_app, Hfr, Hq.
    rewrite Hfreed', Hrc'. reflexivity.
Qed.

Lemma open_phase (c : Listener.conn) :
  closes (Listener.phase c) = false -> Listener.is_open (Some c) = true.
Proof. destruct c as [[] d]; cbn; congruence. Qed.

Lemma is_open_closes ph d :
  Z.b2z (Listener.is_open (Some {| Listener.phase := ph; Listener.data := d |})) =
  if closes ph then 0 else 1.
Proof. destruct ph; reflexivity. Qed.

Lemma update_known id0 c (m : nat -> option Listener.conn) ids :
  In id0 ids ->
  (forall id, In id ids <-> m id <> None) ->
  forall id, In id ids <-> Listener.update id0 c m id <> None.
Proof.
  intros Hin Hids id. unfold Listener.update. destruct (Nat.eqb id id0) eqn:E.
  - apply Nat.eqb_eq in E. subst id. split; [discriminate|intros _; exact Hin].
  - apply Hids.
Qed.

(** A callback of an open connection. *)
Lemma callback_memory ids s id0 ph0 d0 ph x a d tr :
  memory_inv ids s ->
  Listener.freed s = false ->
  Listener.conns s id0 = Some {| Listener.phase := ph0; Listener.data := d0 |} ->
  closes ph0 = false ->
  counted (if closes ph then -1 else 0) (Listener.args s) a tr ->
  memory_inv ids (Listener.after_callback s id0 ph (x, (a, d), tr)).
Proof.
  intros Hinv Hf Hc Hopen Hcount.
  pose proof Hinv as (Hnd & Hids & Hrc & _ & _ & Htasks).
  assert (Hin : In id0 ids) by (apply Hids; rewrite Hc; discriminate).
  apply (listener_memory_after ids ids s _ (Some id0) tr (if closes ph then -1 else 0));
    try assumption; try reflexivity.
  - cbn [Listener.conns Listener.after_callback]. apply update_known; assumption.
  - cbn [Listener.conns Listener.after_callback]. unfold listener_ref.
    cbn [Listener.accepting].
    rewrite count_open_update, Hc, !is_open_closes, Hopen by assumption.
    destruct (closes ph); lia.
Qed.

Lemma referenced_while_open ids s id0 c :
  memory_inv ids s ->
  Listener.conns s id0 = Some c -> closes (Listener.phase c) = false ->
  1 <= ref_count (Listener.args s) <= 1 + Z.of_nat (List.length ids).
Proof.
  intros (Hnd & Hids & Hrc & _) Hc Hopen.
  assert (Hin : In id0 ids) by (apply Hids; rewrite Hc; discriminate).
  assert (H1 : 1 <= count_open (Listener.conns s) ids).
  { destruct (Z.eq_dec (count_open (Listener.conns s) ids) 0) as [E|E].
    - pose proof (proj1 (count_open_zero _ _) E id0 Hin) as H.
      rewrite Hc, (open_phase c Hopen) in H. discriminate.
    - pose proof (count_open_nonneg (Listener.conns s) ids). lia. }
  pose proof (count_open_bound (Listener.conns s) ids).
  unfold listener_ref in Hrc. destruct (Listener.accepting s); lia.
Qed.

Lemma listener_step_memory ids ev s s' :
  memory_inv ids s ->
  Z.of_nat (List.length ids) < 2 ^ 64 - 2 ->
  Listener.step AWS_ERROR_UNKNOWN offsetof_listener ev s = Some s' ->
  exists ids', memory_inv ids' s' /\ (List.length ids' <= S (List.length ids))%nat.
Proof.
  intros Hinv Hlen Hstep. unfold Listener.step in Hstep.
  destruct (Listener.freed s) eqn:Hf; [discriminate|].
  pose proof Hinv as (Hnd & Hids & Hrc & Hfz & Hfr & Htasks).
  destruct ev as [id0 e new_socket r last_error | id0 e r last_error | id0 e | id0 e
                 | listener | ].
  - (* s_on_server_connection_result *)
    destruct (Listener.conns s id0) eqn:Hc; [discriminate|].
    destruct (Listener.accepting s) eqn:Hacc; [|discriminate].
    assert (Hbound : 1 <= ref_count (Listener.args s) < 2 ^ 64 - 1).
    { pose proof (count_open_nonneg (Listener.conns s) ids).
      pose proof (count_open_bound (Listener.conns s) ids).
      unfold listener_ref in Hrc. rewrite Hacc in Hrc. lia. }
    pose proof (connection_result_counted e new_socket r last_error (Listener.args s) Hbound)
      as Hcount.
    cbv zeta in Hcount.
    destruct (s_on_server_connection_result e new_socket r last_error (Listener.args s))
      as [[cd a'] tr].
    cbn [result state trace fst snd] in Hcount. injection Hstep as <-.
    assert (Hnew : ~ In id0 ids) by (intros H; apply Hids in H; contradiction).
    exists (id0 :: ids). split; [|cbn; lia].
    eapply (listener_memory_after ids (id0 :: ids) s _ (Some id0) tr); try eassumption; try reflexivity.
    + constructor; assumption.
    + intros id. cbn [Listener.conns]. unfold Listener.update.
      destruct (Nat.eqb id id0) eqn:E.
      * apply Nat.eqb_eq in E. subst id. split; [discriminate|intros _; left; reflexivity].
      * split.
        -- intros [H | H]; [subst id; rewrite Nat.eqb_refl in E; discriminate|].
           apply Hids. exact H.
        -- intros H. right. apply Hids. exact H.
    + cbn [Listener.conns]. unfold listener_ref. cbn [Listener.accepting].
      rewrite count_open_cons, count_open_other by exact Hnew.
      unfold Listener.update at 1. rewrite Nat.eqb_refl, Hacc.
      destruct cd as [d|]; destruct (new_channel r) as [c|];
        cbn [Listener.is_open Z.b2z]; lia.
  - (* s_on_server_channel_on_setup_completed *)
    destruct (Listener.conns s id0) as [[ph d]|] eqn:Hc; [|discriminate].
    destruct ph; try discriminate.
    pose proof (referenced_while_open ids s id0 _ Hinv Hc eq_refl) as Hbound.
    exists ids. split; [|lia]. injection Hstep as <-.
    pose proof (setup_completed_counted c e r last_error (Listener.args s) d
                  ltac:(lia)) as Hcount.
    cbv zeta in Hcount.
    destruct (s_on_server_channel_on_setup_completed c e r last_error (Listener.args s, d))
      as [[u [a' d']] tr].
    cbn [state trace fst snd] in *.
    exact (callback_memory ids s id0 _ d _ u a' d' tr Hinv Hf Hc eq_refl Hcount).
  - (* s_tls_server_on_negotiation_result *)
    destruct (Listener.conns s id0) as [[ph d]|] eqn:Hc; [|discriminate].
    destruct ph; try discriminate.
    pose proof (referenced_while_open ids s id0 _ Hinv Hc eq_refl) as Hbound.
    destruct (negotiation_counted c e (Listener.args s) d ltac:(lia)) as [Hopen Hcount].
    cbv zeta in Hopen, Hcount.
    destruct (s_tls_server_on_negotiation_result c e (Listener.args s, d))
      as [[u [a' d']] tr].
    cbn [state trace fst snd] in *. injection Hstep as <-.
    exists ids. split; [|lia].
    apply (callback_memory ids s id0 _ d _ u a' d' tr Hinv Hf Hc eq_refl).
    rewrite Hopen. exact Hcount.
  - (* s_on_server_channel_on_shutdown *)
    destruct (Listener.conns s id0) as [[ph d]|] eqn:Hc; [|discriminate].
    destruct (match ph with
              | Listener.Negotiating c | Listener.Live c => Some c
              | Listener.ShuttingDown c err => if e =? err then Some c else None
              | _ => None
              end) as [c|] eqn:Hen; [|discriminate].
    assert (Hopen : closes ph = false) by (destruct ph; try reflexivity; discriminate).
    pose proof (referenced_while_open ids s id0 _ Hinv Hc Hopen) as Hbound.
    pose proof (channel_shutdown_counted c e (Listener.args s) d ltac:(lia)) as Hcount.
    cbv zeta in Hcount.
    destruct (s_on_server_channel_on_shutdown AWS_ERROR_UNKNOWN c e (Listener.args s, d))
      as [[u [a' d']] tr].
    cbn [state trace fst snd] in *. injection Hstep as <-.
    exists ids. split; [|lia].
    exact (callback_memory ids s id0 ph d Listener.Closed u a' d' tr Hinv Hf Hc Hopen Hcount).
  - (* aws_server_bootstrap_destroy_socket_listener *)
    destruct (Listener.destroy_called s) eqn:Hdc; [discriminate|].
    unfold aws_server_bootstrap_destroy_socket_listener, Listener.heap in Hstep.
    destruct (AWS_CONTAINER_OF listener offsetof_listener =? Listener.base s) eqn:Hb;
      [|discriminate].
    rewrite Hf in Hstep. cbn [negb andb] in Hstep.
    destruct (listener_event_loop (Listener.args s)) as [loop|]; [|discriminate].
    injection Hstep as <-. apply Z.eqb_eq in Hb.
    exists ids. split; [|lia].
    assert (Hacc : Listener.accepting s = true).
    { destruct (Listener.accepting s) eqn:Hacc; [reflexivity|].
      destruct (Listener.destroy_tasks s) as [|q rest].
      - exact (Htasks eq_refl).
      - destruct Htasks as (_ & _ & H & _). exact H. }
    assert (Hnone : Listener.destroy_tasks s = []).
    { destruct (Listener.destroy_tasks s) as [|q rest]; [reflexivity|].
      destruct Htasks as (_ & _ & _ & H). discriminate H. }
    unfold memory_inv, frees_of, listener_ref in *.
    cbn [Listener.conns Listener.args Listener.freed Listener.log
      Listener.destroy_tasks Listener.accepting Listener.destroy_called Listener.base].
    rewrite all_calls_app, filter_app, Hnone, Hb, Hfr.
    repeat split; try assumption; try apply Hids.
    + rewrite <- Hfz. symmetry. exact Hf.
    + rewrite Hf. reflexivity.
  - (* s_listener_destroy_task *)
    destruct (Listener.destroy_tasks s) as [|arg rest] eqn:Ht; [discriminate|].
    destruct Htasks as (-> & -> & Hacc & Hdc).
    unfold Listener.heap in Hstep. rewrite Z.eqb_refl, Hf in Hstep. cbn [negb andb] in Hstep.
    assert (Hbound : 1 <= ref_count (Listener.args s) < 2 ^ 64).
    { pose proof (count_open_nonneg (Listener.conns s) ids).
      pose proof (count_open_bound (Listener.conns s) ids).
      unfold listener_ref in Hrc. rewrite Hacc in Hrc. lia. }
    destruct (destroy_task_counted (Listener.args s) Hbound) as [Hstop Hcount].
    cbv zeta in Hstop, Hcount.
    destruct (s_listener_destroy_task (Listener.args s)) as [[u a'] tr].
    cbn [state trace fst snd] in *. injection Hstep as <-.
    exists ids. split; [|lia].
    eapply (listener_memory_after ids ids s _ None tr (-1)); try eassumption; try reflexivity.
    + unfold listener_ref. cbn [Listener.accepting Listener.conns].
      rewrite Hacc, Hstop. cbn [negb andb]. lia.
    + cbn [Listener.destroy_tasks Listener.accepting Listener.destroy_called]. intros _. exact Hdc.
Qed.

Lemma listener_run_memory evs :
  forall ids s s',
    memory_inv ids s ->
    Z.of_nat (List.length ids + List.length evs) < 2 ^ 64 - 1 ->
    Listener.run AWS_ERROR_UNKNOWN offsetof_listener evs s = Some s' ->
    exists ids', memory_inv ids' s'.
Proof.
  induction evs as [|ev evs IH]; intros ids s s' Hinv Hlen Hrun.
  - injection Hrun as <-. exists ids. exact Hinv.
  - cbn [Listener.run] in Hrun. cbn [List.length] in Hlen.
    destruct (Listener.step AWS_ERROR_UNKNOWN offsetof_listener ev s) as [s1|] eqn:Hstep;
      [|discriminate].
    destruct (listener_step_memory ids ev s s1 Hinv ltac:(lia) Hstep) as (ids1 & Hinv1 & Hl1).
    apply (IH ids1 s1 s' Hinv1); [lia|exact Hrun].
Qed.

Lemma started_memory pn co destroy r listener s0 :
  Listener.started offsetof_listener pn co destroy r = Some (listener, s0) ->
  memory_inv [] s0.
Proof.
  unfold Listener.started, s_server_new_socket_listener, new_socket_listener_body.
  destruct (args_alloc r) as [p|]; [|discriminate].
  destruct co as [co|]; destruct (tls_options_copy r), (listener_init r), (listener_bind r),
    (listener_listen r), (listener_start_accept r), destroy; cbn; try discriminate;
    intros H; injection H as <- <-; unfold memory_inv; cbn;
    (split; [constructor|]);
    (split; [intros id; split; [intros []|intros H; apply H; reflexivity]|]);
    repeat split; discriminate.
Qed.

(** X14: in every state a listener reaches (by fewer than 2^64 - 1
    events), its state is released exactly when the destroy task has run
    and no accepted connection still has its channel data; the memory is
    freed once then, and never before.  The destroy task has run only
    after [aws_server_bootstrap_destroy_socket_listener] was called; while
    it is scheduled it is the only one, it carries the address of the
    state, and the state is still allocated when it runs.  The reference
    count is the number of connections whose channel data is allocated,
    plus one until the destroy task has run. *)
Theorem listener_state_lifetime
    (pn : bool) (co : option tls_connection_options) (destroy : bool) (r : listener_results)
    (listener : Z) (s0 : Listener.system) (evs : list Listener.event) (s : Listener.system) :
  Listener.started offsetof_listener pn co destroy r = Some (listener, s0) ->
  Listener.run AWS_ERROR_UNKNOWN offsetof_listener evs s0 = Some s ->
  Z.of_nat (List.length evs) < 2 ^ 64 - 1 ->
  (Listener.freed s = true <->
   Listener.accepting s = false /\
   forall id, Listener.is_open (Listener.conns s id) = false) /\
  frees_of s = (if Listener.freed s then [MemRelease ObjServerArgs] else []) /\
  (Listener.accepting s = false ->
   Listener.destroy_called s = true /\ Listener.destroy_tasks s = []) /\
  (Listener.destroy_tasks s <> [] ->
   Listener.destroy_tasks s = [Listener.base s] /\
   Listener.heap s (Listener.base s) = Some (Listener.args s)) /\
  (forall ids,
     NoDup ids ->
     (forall id, Listener.is_open (Listener.conns s id) = true -> In id ids) ->
     ref_count (Listener.args s) = listener_ref s + count_open (Listener.conns s) ids).
Proof.
  intros Hstart Hrun Hlen.
  pose proof (started_memory pn co destroy r listener s0 Hstart) as H0.
  destruct (listener_run_memory evs [] s0 s H0 Hlen Hrun) as (ids0 & Hnd & Hids & Hrc & Hfz & Hfr & Ht).
  assert (Hopen : forall id, Listener.is_open (Listener.conns s id) = true -> In id ids0).
  { intros id H. apply Hids. intros E. rewrite E in H. discriminate. }
  pose proof (count_open_nonneg (Listener.conns s) ids0) as Hpos.
  assert (Hacc : Listener.accepting s = true -> Listener.freed s = false).
  { intros Ha. rewrite Hfz. apply Z.eqb_neq. unfold listener_ref in Hrc.
    rewrite Ha in Hrc. lia. }
  split; [|split; [exact Hfr|split; [|split]]].
  - rewrite Hfz, Z.eqb_eq, Hrc. unfold listener_ref. split.
    + intros E. destruct (Listener.accepting s); [lia|]. split; [reflexivity|].
      intros id. destruct (Listener.is_open (Listener.conns s id)) eqn:Ho; [|reflexivity].
      assert (Hz : count_open (Listener.conns s) ids0 = 0) by lia.
      rewrite <- Ho. exact (proj1 (count_open_zero _ _) Hz id (Hopen id Ho)).
    + intros [Ha Hall]. rewrite Ha.
      rewrite (proj2 (count_open_zero (Listener.conns s) ids0)); [reflexivity|].
      intros id _. apply Hall.
  - intros Ha. destruct (Listener.destroy_tasks s) as [|q rest].
    + split; [exact (Ht Ha)|reflexivity].
    + destruct Ht as (_ & _ & H & _). rewrite Ha in H. discriminate.
  - intros Hne. destruct (Listener.destroy_tasks s) as [|q rest]; [contradiction|].
    destruct Ht as (-> & -> & Ha & _). split; [reflexivity|].
    unfold Listener.heap. rewrite Z.eqb_refl, (Hacc Ha). reflexivity.
  - intros ids Hnd' Hin. rewrite Hrc. f_equal.
    apply count_open_any; assumption.
Qed.

End ListenerLifetime.

Lemma listener_state_lifetime_witness :
  match Listener.run 2 64 Examples.destroy_then_close Examples.listener_start with
  | Some s =>
      Listener.freed s = true /\
      (Listener.freed s = true <->
       Listener.accepting s = false /\
       forall id, Listener.is_open (Listener.conns s id) = false)
  | None => False
  end.
Proof.
  eassert (Hrun : Listener.run 2 64 Examples.destroy_then_close Examples.listener_start
                  = Some _) by (vm_compute; reflexivity).
  rewrite Hrun. split; [reflexivity|].
  exact (proj1 (listener_state_lifetime 2 64 false None true Examples.listener_succeeds 4160
                  Examples.listener_start Examples.destroy_then_close _ eq_refl Hrun
                  eq_refl)).
Defined.

(** ** Every accepted connection gets the incoming callback *)

Section ListenerDelivery.

Import Server ServerForms ServerRuns ListenerInv.

Variable AWS_ERROR_UNKNOWN : Z.
Variable offsetof_listener : Z.





End ListenerDelivery.


(** ** Races whose resolutions carry at most 255 addresses *)

Section RaceTallyProofs.

Import Client ClientForms ClientRuns MoreForms RaceInv RaceTally.

Variable AWS_ERROR_UNKNOWN : Z.

















End RaceTallyProofs.






